(** * BPF generation and semantic comparison: a shallow embedding

    The development follows the Go packages of the prototype:
    - [filter]     the packet-filter record and the checks of [Validate];
    - [prototype]  the instruction record, the program builder with its
                   in-place branch patching, and the staged generator
                   [buildAntreaBPF] / [GenerateBPF];
    - [tcpdump]    the reference program record consumed by the comparison;
    - [compare]    the semantic classifier [analyzeInstruction] and the
                   comparison engine [Compare] with its score and verdict.

    Machine integers are modelled in [Z] with the conversions [uint8] and
    [uint32] written out; the builder's slice of instruction pointers is a
    list of addresses into an explicit store; Go maps are [gmap]s and their
    unspecified iteration order is a parameter; [float64] is the kernel's
    binary64. *)

From Stdlib Require Import ZArith String Ascii List Bool Lia PrimFloat Uint63Axioms.
From Stdlib Require DecimalString HexadecimalString.

#[local] Set Warnings "-inexact-float".
From stdpp Require Import base option list gmap.

Open Scope string_scope.
Open Scope list_scope.
Open Scope Z_scope.

(** ** Machine integers *)

Definition uint8 (z : Z) : Z := z mod 2 ^ 8.
Definition uint32 (z : Z) : Z := z mod 2 ^ 32.

(** Go's [len] has type [int]. *)
Definition len {A} (l : list A) : Z := Z.of_nat (length l).

(** [s[i]] on a slice: a run-time panic ([None]) outside [0 <= i < len s]. *)
Definition index {A} (l : list A) (i : Z) : option A :=
  if (i <? 0) then None else l !! Z.to_nat i.

(** ** Formatting verbs of [fmt.Sprintf] *)

(** [%d] *)
Definition fmtDec (z : Z) : string := DecimalString.NilZero.string_of_int (Z.to_int z).

(** [%x] on an unsigned value *)
Definition fmtHex (z : Z) : string :=
  HexadecimalString.NilZero.string_of_uint (N.to_hex_uint (Z.to_N z)).

Fixpoint zeros (n : nat) : string :=
  match n with
  | O => ""
  | S n' => String "0" (zeros n')
  end.

(** [%0wx]: zero-padded on the left to at least [w] characters *)
Definition fmtHexPad (w : nat) (z : Z) : string :=
  let h := fmtHex z in (zeros (w - String.length h) ++ h)%string.

(** [strings.Contains] *)
Fixpoint Contains (s substr : string) : bool :=
  String.prefix substr s
  || match s with
     | EmptyString => false
     | String _ s' => Contains s' substr
     end.

(** ** Package filter *)

Module filter.

Record PacketFilter := {
  Protocol : string;
  SrcIP : string;
  DstIP : string;
  SrcPort : Z;
  DstPort : Z
}.

(** The conditions [Validate] enforces on the protocol, the ports and their
    combination (its two address checks call the library's [net.ParseIP]
    and constrain only the text of [SrcIP] and [DstIP]).  The protocol is
    taken after the lower-casing that [Validate] stores back. *)
Definition validProtocol (p : string) : bool :=
  String.eqb p "" || String.eqb p "tcp" || String.eqb p "udp" || String.eqb p "icmp".

Definition validPort (p : Z) : bool := negb ((p <? 0) || (p >? 65535)).

Definition Validate (f : PacketFilter) : bool :=
  validProtocol (Protocol f)
  && validPort (SrcPort f)
  && validPort (DstPort f)
  && negb (String.eqb (Protocol f) "" && String.eqb (SrcIP f) ""
           && String.eqb (DstIP f) "" && (SrcPort f =? 0) && (DstPort f =? 0))
  && negb (String.eqb (Protocol f) "icmp"
           && (negb (SrcPort f =? 0) || negb (DstPort f =? 0))).

End filter.

(** ** Package prototype: instructions and the builder *)

Module prototype.
Import filter.

Record BPFInstruction := {
  Code : Z;   (* uint16 *)
  JT : Z;     (* uint8 *)
  JF : Z;     (* uint8 *)
  K : Z       (* uint32 *)
}.

Definition withJumps (inst : BPFInstruction) (jt jf : Z) : BPFInstruction :=
  {| Code := Code inst; JT := jt; JF := jf; K := K inst |}.

(** The builder holds a slice of pointers.  Addresses are positions in
    [store]; [&BPFInstruction{...}] allocates at the end of it. *)
Record BPFBuilder := {
  store : list BPFInstruction;
  instructions : list nat;
  optimizations : list string;
  currentOffset : Z
}.

Definition NewBPFBuilder : BPFBuilder :=
  {| store := []; instructions := []; optimizations := []; currentOffset := 0 |}.

(** Builder actions: state passing, [None] for a run-time panic. *)
Definition M (A : Type) : Type := BPFBuilder -> option (A * BPFBuilder).

Definition ret {A} (a : A) : M A := fun b => Some (a, b).

Definition bind {A B} (m : M A) (k : A -> M B) : M B :=
  fun b => match m b with
           | Some (a, b') => k a b'
           | None => None
           end.

Notation "x <- m ;; k" := (bind m (fun x => k))
  (at level 100, m at next level, right associativity).
Notation "m ;;; k" := (bind m (fun _ => k))
  (at level 100, right associativity).

Definition AddInstruction (code jt jf k : Z) : M Z := fun b =>
  let inst := {| Code := code; JT := jt; JF := jf; K := k |} in
  Some (currentOffset b,
        {| store := store b ++ [inst];
           instructions := instructions b ++ [length (store b)];
           optimizations := optimizations b;
           currentOffset := currentOffset b + 1 |}).

Definition AddOptimization (description : string) : M unit := fun b =>
  Some (tt,
        {| store := store b;
           instructions := instructions b;
           optimizations := optimizations b ++ [description];
           currentOffset := currentOffset b |}).

Definition UpdateJumpTargets (instructionIndex jt jf : Z) : M unit := fun b =>
  if instructionIndex <? len (instructions b) then
    match index (instructions b) instructionIndex with
    | Some p =>
        match store b !! p with
        | Some inst =>
            Some (tt,
                  {| store := <[p := withJumps inst jt jf]> (store b);
                     instructions := instructions b;
                     optimizations := optimizations b;
                     currentOffset := currentOffset b |})
        | None => None
        end
    | None => None
    end
  else Some (tt, b).

(** The instructions a slice of pointers denotes. *)
Definition deref (st : list BPFInstruction) (ps : list nat) : list BPFInstruction :=
  omap (fun p => st !! p) ps.

Definition Build (b : BPFBuilder) : list BPFInstruction :=
  deref (store b) (instructions b).

(** No two slots of the slice hold the same pointer, and every pointer is
    allocated: the shape [AddInstruction] maintains. *)
Definition aliasFree (b : BPFBuilder) : Prop :=
  NoDup (instructions b) /\ Forall (fun p => (p < length (store b))%nat) (instructions b).

(** ** Package prototype: the generator *)

Definition ipToUint32 (ip : string) : Z :=
  if String.eqb ip "192.168.1.1" then 0xc0a80101
  else if String.eqb ip "10.0.0.1" then 0x0a000001
  else if String.eqb ip "127.0.0.1" then 0x7f000001
  else 0xc0a80001.

Definition protocolNum (p : string) : Z :=
  if String.eqb p "tcp" then 6
  else if String.eqb p "udp" then 17
  else if String.eqb p "icmp" then 1
  else 0.

(** Stage 1: the ethertype gate. *)
Definition ethertypeGate : M Z :=
  AddInstruction 0x28 0 0 0x0000000c ;;;
  AddInstruction 0x15 0 0 0x00000800.

(** Stage 2: the protocol gate; [-1] when absent. *)
Definition protocolGate (f : PacketFilter) : M Z :=
  if negb (String.eqb (Protocol f) "") then
    AddInstruction 0x30 0 0 0x00000017 ;;;
    AddInstruction 0x15 0 0 (protocolNum (Protocol f))
  else ret (-1).

(** Stage 3: the address gates; [-1] for an absent one. *)
Definition addressGate (f : PacketFilter) : M (Z * Z) :=
  if negb (String.eqb (SrcIP f) "") || negb (String.eqb (DstIP f) "") then
    srcIPCheckIdx <-
      (if negb (String.eqb (SrcIP f) "") then
         AddInstruction 0x20 0 0 0x0000001a ;;;
         AddInstruction 0x15 0 0 (ipToUint32 (SrcIP f))
       else ret (-1)) ;;
    dstIPCheckIdx <-
      (if negb (String.eqb (DstIP f) "") then
         AddInstruction 0x20 0 0 0x0000001e ;;;
         AddInstruction 0x15 0 0 (ipToUint32 (DstIP f))
       else ret (-1)) ;;
    ret (srcIPCheckIdx, dstIPCheckIdx)
  else ret (-1, -1).

(** Stage 4, first part: the fragment check, the header-length load and
    the port checks.  Returns the fragment check's position and the
    recorded port-check positions. *)
Definition portChecks (f : PacketFilter) : M (Z * list Z) :=
  AddInstruction 0x28 0 0 0x00000014 ;;;
  fragCheckIdx <- AddInstruction 0x45 0 0 0x00001fff ;;
  AddInstruction 0xb1 0 0 0x0000000e ;;;
  srcIndices <-
    (if negb (SrcPort f =? 0) then
       AddInstruction 0x48 0 0 0x0000000e ;;;
       portCheckIdx <- AddInstruction 0x15 0 0 (uint32 (SrcPort f)) ;;
       ret [portCheckIdx]
     else ret []) ;;
  dstIndices <-
    (if negb (DstPort f =? 0) then
       AddInstruction 0x48 0 0 0x00000010 ;;;
       portCheckIdx <- AddInstruction 0x15 0 0 (uint32 (DstPort f)) ;;
       ret [portCheckIdx]
     else ret []) ;;
  ret (fragCheckIdx, srcIndices ++ dstIndices).

(** Stage 4, second part: the fragment check is patched on the spot. *)
Definition patchFragment (fragCheckIdx : Z) : M unit := fun b =>
  let rejectOffset := uint8 (len (instructions b) + 1) in
  UpdateJumpTargets fragCheckIdx rejectOffset 0 b.

Definition portGate (f : PacketFilter) : M (list Z) :=
  if negb (SrcPort f =? 0) || negb (DstPort f =? 0) then
    r <- portChecks f ;;
    patchFragment (fst r) ;;;
    ret (snd r)
  else ret [].

(** The positions recorded for the final pass. *)
Record checkIndices := {
  ipCheckIdx : Z;
  protocolCheckIdx : Z;
  srcIPCheckIdx : Z;
  dstIPCheckIdx : Z;
  portCheckIndices : list Z
}.

Definition emitGates (f : PacketFilter) : M checkIndices :=
  ip <- ethertypeGate ;;
  pr <- protocolGate f ;;
  ad <- addressGate f ;;
  ports <- portGate f ;;
  ret {| ipCheckIdx := ip; protocolCheckIdx := pr;
         srcIPCheckIdx := fst ad; dstIPCheckIdx := snd ad;
         portCheckIndices := ports |}.

(** Stage 5: accept, then reject. *)
Definition terminalPair : M (Z * Z) :=
  acceptIdx <- AddInstruction 0x06 0 0 0x00040000 ;;
  rejectIdx <- AddInstruction 0x06 0 0 0x00000000 ;;
  ret (acceptIdx, rejectIdx).

Definition patchCheck (acceptIdx rejectIdx idx : Z) : M unit :=
  UpdateJumpTargets idx (uint8 (acceptIdx - idx)) (uint8 (rejectIdx - idx)).

Definition patchIfRecorded (acceptIdx rejectIdx idx : Z) : M unit :=
  if 0 <=? idx then patchCheck acceptIdx rejectIdx idx else ret tt.

Fixpoint patchPorts (acceptIdx rejectIdx : Z) (idxs : list Z) : M unit :=
  match idxs with
  | [] => ret tt
  | portIdx :: rest =>
      patchCheck acceptIdx rejectIdx portIdx ;;;
      patchPorts acceptIdx rejectIdx rest
  end.

(** The final backpatching pass. *)
Definition backpatch (acceptIdx rejectIdx : Z) (c : checkIndices) : M unit :=
  patchCheck acceptIdx rejectIdx (ipCheckIdx c) ;;;
  patchIfRecorded acceptIdx rejectIdx (protocolCheckIdx c) ;;;
  patchIfRecorded acceptIdx rejectIdx (srcIPCheckIdx c) ;;;
  patchIfRecorded acceptIdx rejectIdx (dstIPCheckIdx c) ;;;
  patchPorts acceptIdx rejectIdx (portCheckIndices c).

Definition when (c : bool) (m : M unit) : M unit := if c then m else ret tt.

Definition recordOptimizations (f : PacketFilter) : M unit :=
  when (negb (String.eqb (Protocol f) "")
        && (negb (SrcPort f =? 0) || negb (DstPort f =? 0)))
       (AddOptimization "Combined protocol and port filtering in single pass") ;;;
  when (negb (String.eqb (SrcIP f) "") && negb (String.eqb (DstIP f) ""))
       (AddOptimization "Dual IP address filtering with early termination") ;;;
  AddOptimization "Fragment-aware port filtering prevents false matches" ;;;
  AddOptimization "Minimal instruction count with structured validation".

Definition reasoningText (f : PacketFilter) : string :=
  ("Antrea-style approach: " ++ "1) Early IP validation, "
   ++ (if negb (String.eqb (Protocol f) "") then "2) Protocol-specific filtering, " else "")
   ++ (if negb (String.eqb (SrcIP f) "") || negb (String.eqb (DstIP f) "")
       then "3) IP address filtering, " else "")
   ++ (if negb (SrcPort f =? 0)%Z || negb (DstPort f =? 0)%Z
       then "4) Fragment-aware port filtering, " else "")
   ++ "5) Optimized accept/reject with minimal instructions")%string.

Definition buildAntreaBPF (f : PacketFilter) : M string :=
  c <- emitGates f ;;
  t <- terminalPair ;;
  backpatch (fst t) (snd t) c ;;;
  recordOptimizations f ;;;
  ret (reasoningText f).

(** The positions the final pass patches, in the order it visits them. *)
Definition patchedPositions (c : checkIndices) : list Z :=
  ipCheckIdx c
  :: List.filter (fun idx => 0 <=? idx)
       [protocolCheckIdx c; srcIPCheckIdx c; dstIPCheckIdx c]
  ++ portCheckIndices c.

(** The finished program with its provenance.  Once built the program is
    only read, so [Instructions] holds the instructions themselves. *)
Record BPFCode := {
  Instructions : list BPFInstruction;
  FilterExpr : string;
  InstructionCount : Z;
  Reasoning : string;
  Optimizations : list string
}.

Definition buildFilterDescription (f : PacketFilter) : string :=
  String.concat " "
    ((if negb (String.eqb (Protocol f) "") then [Protocol f] else [])
     ++ (if negb (String.eqb (SrcIP f) "") then [("src=" ++ SrcIP f)%string] else [])
     ++ (if negb (String.eqb (DstIP f) "") then [("dst=" ++ DstIP f)%string] else [])
     ++ (if negb (SrcPort f =? 0) then [("sport=" ++ fmtDec (SrcPort f))%string] else [])
     ++ (if negb (DstPort f =? 0) then [("dport=" ++ fmtDec (DstPort f))%string] else [])).

(** [GenerateBPF] on a fresh builder; [None] stands for a run-time panic
    (the Go function's [error] result is always [nil]). *)
Definition GenerateBPF (f : PacketFilter) : option BPFCode :=
  match buildAntreaBPF f NewBPFBuilder with
  | Some (reasoning, builder) =>
      let instructions := Build builder in
      Some {| Instructions := instructions;
              FilterExpr := buildFilterDescription f;
              InstructionCount := len instructions;
              Reasoning := reasoning;
              Optimizations := optimizations builder |}
  | None => None
  end.

(** *** Reading a finished program *)

(** The positions, counted from [start], of the instructions satisfying [P]. *)
Fixpoint positionsFrom (P : BPFInstruction -> bool) (start : Z) (prog : list BPFInstruction)
  : list Z :=
  match prog with
  | [] => []
  | inst :: rest =>
      (if P inst then [start] else []) ++ positionsFrom P (start + 1) rest
  end.

Definition isCheck (inst : BPFInstruction) : bool := Code inst =? 0x15.
Definition isReturn (inst : BPFInstruction) : bool := Code inst =? 0x06.

(** The equality checks that directly follow a load satisfying [isLoad],
    each with its position. *)
Fixpoint checksAfterFrom (isLoad : BPFInstruction -> bool) (start : Z)
  (prog : list BPFInstruction) : list (Z * BPFInstruction) :=
  match prog with
  | [] => []
  | load :: rest =>
      match rest with
      | check :: _ =>
          if isLoad load && isCheck check then [(start + 1, check)] else []
      | [] => []
      end ++ checksAfterFrom isLoad (start + 1) rest
  end.

Definition isPortLoad (inst : BPFInstruction) : bool := Code inst =? 0x48.
Definition isLoadWord (offset : Z) (inst : BPFInstruction) : bool :=
  (Code inst =? 0x20) && (K inst =? offset).

Definition portChecksOf (prog : list BPFInstruction) : list (Z * BPFInstruction) :=
  checksAfterFrom isPortLoad 0 prog.

(** The immediates of the equality checks on the address word at [offset]. *)
Definition addressChecks (offset : Z) (prog : list BPFInstruction) : list Z :=
  map (fun pc => K (snd pc)) (checksAfterFrom (isLoadWord offset) 0 prog).

(** The generator up to the moment the fragment check is patched: stages 1
    to 3 and the instructions of stage 4. *)
Definition gatesBeforeFragmentPatch (f : PacketFilter) : M (Z * list Z) :=
  ethertypeGate ;;; protocolGate f ;;; addressGate f ;;; portChecks f.

(** The check at [p] has both branches resolved against the terminal pair:
    as distances from [p] they lead to [acceptPos] and [rejectPos]. *)
Definition resolved (prog : list BPFInstruction) (acceptPos rejectPos p : Z) : Prop :=
  exists inst,
    index prog p = Some inst
    /\ isCheck inst = true
    /\ JT inst = acceptPos - p
    /\ JF inst = rejectPos - p
    /\ 0 <= JT inst <= 255 /\ 0 <= JF inst <= 255.

End prototype.

(** ** Package tcpdump: the reference program *)

Module tcpdump.

Record BPFInstruction := {
  Code : Z;   (* uint16 *)
  JT : Z;     (* uint8 *)
  JF : Z;     (* uint8 *)
  K : Z       (* uint32 *)
}.

Record BPFCode := {
  Instructions : list BPFInstruction;
  RawOutput : string;
  FilterExpr : string;
  InstructionCount : Z;
  IsMocked : bool
}.

End tcpdump.

(** ** Package compare: purpose tags and the classifier *)

Module compare.

Inductive InstructionType :=
  | LoadEtherType
  | CheckIP
  | LoadProtocol
  | CheckProtocol
  | LoadSourceIP
  | CheckSourceIP
  | LoadDestIP
  | CheckDestIP
  | LoadFragmentInfo
  | CheckFragment
  | LoadHeaderLength
  | LoadSourcePort
  | LoadDestPort
  | CheckSourcePort
  | CheckDestPort
  | Accept
  | Reject
  | Unknown.

(** The [iota] numbering of the constants. *)
Definition iota (it : InstructionType) : Z :=
  match it with
  | LoadEtherType => 0 | CheckIP => 1 | LoadProtocol => 2 | CheckProtocol => 3
  | LoadSourceIP => 4 | CheckSourceIP => 5 | LoadDestIP => 6 | CheckDestIP => 7
  | LoadFragmentInfo => 8 | CheckFragment => 9 | LoadHeaderLength => 10
  | LoadSourcePort => 11 | LoadDestPort => 12 | CheckSourcePort => 13
  | CheckDestPort => 14 | Accept => 15 | Reject => 16 | Unknown => 17
  end.

Definition allTypes : list InstructionType :=
  [LoadEtherType; CheckIP; LoadProtocol; CheckProtocol; LoadSourceIP;
   CheckSourceIP; LoadDestIP; CheckDestIP; LoadFragmentInfo; CheckFragment;
   LoadHeaderLength; LoadSourcePort; LoadDestPort; CheckSourcePort;
   CheckDestPort; Accept; Reject; Unknown].

#[global] Instance InstructionType_eq_dec : EqDecision InstructionType.
Proof. solve_decision. Defined.

#[global] Instance InstructionType_countable : Countable InstructionType.
Proof.
  refine (inj_countable' (fun it => Z.to_nat (iota it))
            (fun n => default Unknown (allTypes !! n)) _).
  intros []; reflexivity.
Defined.

Definition names : list string :=
  ["Load Ethernet Type"; "Check IP Protocol"; "Load IP Protocol"; "Check Protocol";
   "Load Source IP"; "Check Source IP"; "Load Dest IP"; "Check Dest IP";
   "Load Fragment Info"; "Check Fragment"; "Load Header Length";
   "Load Source Port"; "Load Dest Port"; "Check Source Port"; "Check Dest Port";
   "Accept Packet"; "Reject Packet"; "Unknown"].

(** [InstructionType.String] *)
Definition InstructionType_String (it : InstructionType) : string :=
  if iota it <? len names then default "" (index names (iota it)) else "Unknown".

Record SemanticInstruction := {
  Type_ : InstructionType;
  Value : Z;
  Description : string;
  Index : Z
}.

Definition semantic (index k : Z) (t : InstructionType) (d : string) : SemanticInstruction :=
  {| Type_ := t; Value := k; Description := d; Index := index |}.

(** [analyzeInstruction]: dispatch on the opcode, then on the immediate. *)
Definition analyzeInstruction (code jt jf k : Z) (index : Z) : SemanticInstruction :=
  let semantic := semantic index k in
  if code =? 0x28 then
    if k =? 0x0000000c then semantic LoadEtherType "Load Ethernet type field"
    else if k =? 0x00000014 then semantic LoadFragmentInfo "Load IP fragment information"
    else semantic Unknown ("Load half-word from offset 0x" ++ fmtHex k)%string
  else if code =? 0x30 then
    if k =? 0x00000017 then semantic LoadProtocol "Load IP protocol field"
    else semantic Unknown ("Load byte from offset 0x" ++ fmtHex k)%string
  else if code =? 0x20 then
    if k =? 0x0000001a then semantic LoadSourceIP "Load source IP address"
    else if k =? 0x0000001e then semantic LoadDestIP "Load destination IP address"
    else semantic Unknown ("Load word from offset 0x" ++ fmtHex k)%string
  else if code =? 0x48 then
    if k =? 0x0000000e then semantic LoadSourcePort "Load source port (with header offset)"
    else if k =? 0x00000010 then
      semantic LoadDestPort "Load destination port (with header offset)"
    else semantic Unknown ("Load half-word with offset 0x" ++ fmtHex k)%string
  else if code =? 0x15 then
    if k =? 0x00000800 then semantic CheckIP "Check if packet is IP (0x800)"
    else if k =? 0x00000006 then semantic CheckProtocol "Check if protocol is TCP (6)"
    else if k =? 0x00000011 then semantic CheckProtocol "Check if protocol is UDP (17)"
    else if k =? 0x00000001 then semantic CheckProtocol "Check if protocol is ICMP (1)"
    else if (1 <=? k) && (k <=? 65535) then
      semantic CheckDestPort ("Check if destination port is " ++ fmtDec k)%string
    else if 0xc0000000 <=? k then
      semantic CheckSourceIP ("Check source IP (0x" ++ fmtHexPad 8 k ++ ")")%string
    else semantic Unknown ("Check if value equals 0x" ++ fmtHexPad 8 k)%string
  else if code =? 0x45 then
    if k =? 0x00001fff then semantic CheckFragment "Check for IP fragmentation"
    else semantic Unknown ("Check if bits 0x" ++ fmtHexPad 8 k ++ " are set")%string
  else if code =? 0xb1 then
    semantic LoadHeaderLength "Load IP header length into index register"
  else if code =? 0x06 then
    if (k =? 0x00040000) || (0 <? k) then
      semantic Accept ("Accept packet (return " ++ fmtDec k ++ " bytes)")%string
    else semantic Reject "Reject packet (return 0)"
  else semantic Unknown ("Unknown instruction: 0x" ++ fmtHexPad 4 code)%string.

(** The loop [for i, inst := range instructions] of the two analysers,
    with [i] counted from [start]. *)
Fixpoint analyzeFrom {I} (fields : I -> Z * Z * Z * Z) (start : Z) (instructions : list I)
  : list SemanticInstruction :=
  match instructions with
  | [] => []
  | inst :: rest =>
      let '(code, jt, jf, k) := fields inst in
      analyzeInstruction code jt jf k start :: analyzeFrom fields (start + 1) rest
  end.

Definition analyzeTcpdumpSemantics (instructions : list tcpdump.BPFInstruction)
  : list SemanticInstruction :=
  analyzeFrom (fun inst => (tcpdump.Code inst, tcpdump.JT inst, tcpdump.JF inst, tcpdump.K inst))
              0 instructions.

Definition analyzePrototypeSemantics (instructions : list prototype.BPFInstruction)
  : list SemanticInstruction :=
  analyzeFrom (fun inst => (prototype.Code inst, prototype.JT inst, prototype.JF inst,
                            prototype.K inst))
              0 instructions.

(** ** Package compare: the comparison engine *)

Record ComparisonResult := {
  TcpdumpBPF : tcpdump.BPFCode;
  PrototypeBPF : prototype.BPFCode;
  TcpdumpSemantic : list SemanticInstruction;
  PrototypeSemantic : list SemanticInstruction;
  Matches : list string;
  Differences : list string;
  MissingInPrototype : list string;
  ExtraInPrototype : list string;
  StructuralDiffs : list string;
  Verdict : string;
  Score : float
}.

(** Field updates of the result under construction. *)
Definition addMatch (s : string) (r : ComparisonResult) : ComparisonResult :=
  {| TcpdumpBPF := TcpdumpBPF r; PrototypeBPF := PrototypeBPF r;
     TcpdumpSemantic := TcpdumpSemantic r; PrototypeSemantic := PrototypeSemantic r;
     Matches := Matches r ++ [s]; Differences := Differences r;
     MissingInPrototype := MissingInPrototype r; ExtraInPrototype := ExtraInPrototype r;
     StructuralDiffs := StructuralDiffs r; Verdict := Verdict r; Score := Score r |}.

Definition addDifference (s : string) (r : ComparisonResult) : ComparisonResult :=
  {| TcpdumpBPF := TcpdumpBPF r; PrototypeBPF := PrototypeBPF r;
     TcpdumpSemantic := TcpdumpSemantic r; PrototypeSemantic := PrototypeSemantic r;
     Matches := Matches r; Differences := Differences r ++ [s];
     MissingInPrototype := MissingInPrototype r; ExtraInPrototype := ExtraInPrototype r;
     StructuralDiffs := StructuralDiffs r; Verdict := Verdict r; Score := Score r |}.

Definition addMissing (s : string) (r : ComparisonResult) : ComparisonResult :=
  {| TcpdumpBPF := TcpdumpBPF r; PrototypeBPF := PrototypeBPF r;
     TcpdumpSemantic := TcpdumpSemantic r; PrototypeSemantic := PrototypeSemantic r;
     Matches := Matches r; Differences := Differences r;
     MissingInPrototype := MissingInPrototype r ++ [s];
     ExtraInPrototype := ExtraInPrototype r;
     StructuralDiffs := StructuralDiffs r; Verdict := Verdict r; Score := Score r |}.

Definition addExtra (s : string) (r : ComparisonResult) : ComparisonResult :=
  {| TcpdumpBPF := TcpdumpBPF r; PrototypeBPF := PrototypeBPF r;
     TcpdumpSemantic := TcpdumpSemantic r; PrototypeSemantic := PrototypeSemantic r;
     Matches := Matches r; Differences := Differences r;
     MissingInPrototype := MissingInPrototype r;
     ExtraInPrototype := ExtraInPrototype r ++ [s];
     StructuralDiffs := StructuralDiffs r; Verdict := Verdict r; Score := Score r |}.

Definition addStructural (s : string) (r : ComparisonResult) : ComparisonResult :=
  {| TcpdumpBPF := TcpdumpBPF r; PrototypeBPF := PrototypeBPF r;
     TcpdumpSemantic := TcpdumpSemantic r; PrototypeSemantic := PrototypeSemantic r;
     Matches := Matches r; Differences := Differences r;
     MissingInPrototype := MissingInPrototype r; ExtraInPrototype := ExtraInPrototype r;
     StructuralDiffs := StructuralDiffs r ++ [s]; Verdict := Verdict r; Score := Score r |}.

Definition setVerdict (sc : float) (v : string) (r : ComparisonResult) : ComparisonResult :=
  {| TcpdumpBPF := TcpdumpBPF r; PrototypeBPF := PrototypeBPF r;
     TcpdumpSemantic := TcpdumpSemantic r; PrototypeSemantic := PrototypeSemantic r;
     Matches := Matches r; Differences := Differences r;
     MissingInPrototype := MissingInPrototype r; ExtraInPrototype := ExtraInPrototype r;
     StructuralDiffs := StructuralDiffs r; Verdict := v; Score := sc |}.

(** [m[t]++] on a [map[InstructionType]int] *)
Definition increment (m : gmap InstructionType Z) (t : InstructionType)
  : gmap InstructionType Z :=
  <[t := default 0 (m !! t) + 1]> m.

Definition countTypes (sems : list SemanticInstruction) : gmap InstructionType Z :=
  foldl (fun m sem => increment m (Type_ sem)) ∅ sems.

Definition hasInstructionType (semantics : list SemanticInstruction) (instType : InstructionType)
  : bool :=
  existsb (fun sem => bool_decide (Type_ sem = instType)) semantics.

Definition fmtMatch (t : InstructionType) (n : Z) : string :=
  ("Both implement " ++ InstructionType_String t ++ " (" ++ fmtDec n ++ " instructions)")%string.
Definition fmtDifference (t : InstructionType) (n m : Z) : string :=
  (InstructionType_String t ++ ": tcpdump has " ++ fmtDec n
   ++ ", prototype has " ++ fmtDec m)%string.
Definition fmtMissing (t : InstructionType) (n : Z) : string :=
  ("Missing " ++ InstructionType_String t ++ " (" ++ fmtDec n ++ " instructions)")%string.
Definition fmtExtra (t : InstructionType) (n : Z) : string :=
  ("Extra " ++ InstructionType_String t ++ " (" ++ fmtDec n ++ " instructions)")%string.

Definition analyzeStructuralDifferences (result : ComparisonResult) : ComparisonResult :=
  let tcpCount := len (tcpdump.Instructions (TcpdumpBPF result)) in
  let protoCount := len (prototype.Instructions (PrototypeBPF result)) in
  let result :=
    if tcpCount =? protoCount then addMatch "Same instruction count" result
    else
      let diff := protoCount - tcpCount in
      if 0 <? diff then
        addStructural ("Prototype has " ++ fmtDec diff ++ " more instructions than tcpdump")
                      result
      else
        addStructural ("Prototype has " ++ fmtDec (- diff)
                       ++ " fewer instructions than tcpdump") result in
  let tcpHasFragment := hasInstructionType (TcpdumpSemantic result) CheckFragment in
  let protoHasFragment := hasInstructionType (PrototypeSemantic result) CheckFragment in
  let result :=
    if protoHasFragment && negb tcpHasFragment then
      addStructural "Prototype includes fragment handling that tcpdump mock doesn't have"
                    result
    else result in
  let tcpHasIPFilter := hasInstructionType (TcpdumpSemantic result) CheckSourceIP
                        || hasInstructionType (TcpdumpSemantic result) CheckDestIP in
  let protoHasIPFilter := hasInstructionType (PrototypeSemantic result) CheckSourceIP
                          || hasInstructionType (PrototypeSemantic result) CheckDestIP in
  if protoHasIPFilter && negb tcpHasIPFilter then
    addStructural "Prototype implements IP address filtering" result
  else result.

(** [float64(n)] of an [int] *)
Definition float64 (n : Z) : float := PrimFloat.of_uint63 (Uint63Axioms.of_Z n).

Definition thresholdVerdict (score : float) : string :=
  if PrimFloat.leb 0.8 score then
    "EXCELLENT MATCH: Prototype closely matches tcpdump behavior"
  else if PrimFloat.leb 0.6 score then
    "GOOD MATCH: Prototype implements core functionality with some differences"
  else if PrimFloat.leb 0.4 score then
    "PARTIAL MATCH: Prototype covers some functionality but has significant gaps"
  else "POOR MATCH: Prototype differs significantly from tcpdump approach".

Definition calculateVerdict (result : ComparisonResult) : ComparisonResult :=
  let totalMatches := len (Matches result) in
  let totalDifferences := len (Differences result) + len (MissingInPrototype result)
                          + len (ExtraInPrototype result) in
  if totalMatches + totalDifferences =? 0 then
    setVerdict 0 "INCONCLUSIVE: No comparable instructions found" result
  else
    let score := PrimFloat.div (float64 totalMatches)
                               (float64 (totalMatches + totalDifferences)) in
    let verdict := thresholdVerdict score in
    let verdict :=
      if existsb (fun missing => Contains missing "Check IP Protocol")
                 (MissingInPrototype result)
      then ("CRITICAL ISSUE: " ++ verdict ++ " (Missing IP validation)")%string
      else verdict in
    setVerdict score verdict result.

(** The body of the loop "find matches", for one entry of [tcpTypes]. *)
Definition findMatch (protoTypes : gmap InstructionType Z) (result : ComparisonResult)
  (entry : InstructionType * Z) : ComparisonResult :=
  let '(instType, tcpCount) := entry in
  match protoTypes !! instType with
  | Some protoCount =>
      if tcpCount =? protoCount
      then addMatch (fmtMatch instType tcpCount) result
      else addDifference (fmtDifference instType tcpCount protoCount) result
  | None => addMissing (fmtMissing instType tcpCount) result
  end.

(** The body of the loop "find extra instructions", for one entry of
    [protoTypes]. *)
Definition findExtra (tcpTypes : gmap InstructionType Z) (result : ComparisonResult)
  (entry : InstructionType * Z) : ComparisonResult :=
  let '(instType, protoCount) := entry in
  match tcpTypes !! instType with
  | Some _ => result
  | None => addExtra (fmtExtra instType protoCount) result
  end.

Section MapOrder.

(** Go leaves the order in which [range] visits a map unspecified.  The two
    loops of [compareSemantics] visit their maps in the orders [rangeTcp]
    and [rangeProto]; each lists every entry of its map once. *)
Variables rangeTcp rangeProto : gmap InstructionType Z -> list (InstructionType * Z).

Definition visitsOnce (range : gmap InstructionType Z -> list (InstructionType * Z)) : Prop :=
  forall m, range m ≡ₚ map_to_list m.

Definition compareSemantics (result : ComparisonResult) : ComparisonResult :=
  let tcpTypes := countTypes (TcpdumpSemantic result) in
  let protoTypes := countTypes (PrototypeSemantic result) in
  let result := foldl (findMatch protoTypes) result (rangeTcp tcpTypes) in
  let result := foldl (findExtra tcpTypes) result (rangeProto protoTypes) in
  analyzeStructuralDifferences result.

Definition Compare (tcpBPF : tcpdump.BPFCode) (protoBPF : prototype.BPFCode)
  : ComparisonResult :=
  let result :=
    {| TcpdumpBPF := tcpBPF; PrototypeBPF := protoBPF;
       TcpdumpSemantic := analyzeTcpdumpSemantics (tcpdump.Instructions tcpBPF);
       PrototypeSemantic := analyzePrototypeSemantics (prototype.Instructions protoBPF);
       Matches := []; Differences := []; MissingInPrototype := [];
       ExtraInPrototype := []; StructuralDiffs := [];
       Verdict := ""; Score := 0 |} in
  calculateVerdict (compareSemantics result).

End MapOrder.

End compare.

(** * Statements about the generator *)

Import filter prototype compare.

Definition tcpDstPort80 : PacketFilter :=
  {| Protocol := "tcp"; SrcIP := ""; DstIP := ""; SrcPort := 0; DstPort := 80 |}.

Definition tcpSrcPort80 : PacketFilter :=
  {| Protocol := "tcp"; SrcIP := ""; DstIP := ""; SrcPort := 80; DstPort := 0 |}.

Definition fromGoogleDNS : PacketFilter :=
  {| Protocol := ""; SrcIP := "8.8.8.8"; DstIP := ""; SrcPort := 0; DstPort := 0 |}.

(** The fragment check's true branch, read as a distance from its own
    position, leads to the position right after the last port check emitted
    when the fragment check is patched. *)
Definition fragmentBranchSkipsPortChecks (f : PacketFilter) : Prop :=
  exists fragIdx ports b b' inst lastPort,
    gatesBeforeFragmentPatch f NewBPFBuilder = Some ((fragIdx, ports), b)
    /\ patchFragment fragIdx b = Some (tt, b')
    /\ index (Build b') fragIdx = Some inst
    /\ last ports = Some lastPort
    /\ fragIdx + JT inst = lastPort + 1.

(** The single port check is classified by the port that was set. *)
Definition portCheckClassifiedByPort (f : PacketFilter) : Prop :=
  exists code p check sem,
    GenerateBPF f = Some code
    /\ portChecksOf (Instructions code) = [(p, check)]
    /\ index (analyzePrototypeSemantics (Instructions code)) p = Some sem
    /\ Type_ sem = (if SrcPort f =? 0 then CheckDestPort else CheckSourcePort).

(** The integer form of an address as the specification words it: the
    32-bit big-endian value of a dotted quad. *)
Definition digitValue (c : ascii) : option Z :=
  let n := Z.of_nat (nat_of_ascii c) in
  if (48 <=? n) && (n <=? 57) then Some (n - 48) else None.

Fixpoint splitDots (s : string) : list string :=
  match s with
  | EmptyString => [EmptyString]
  | String c s' =>
      if Ascii.eqb c "." then EmptyString :: splitDots s'
      else match splitDots s' with
           | part :: parts => String c part :: parts
           | [] => [String c EmptyString]
           end
  end.

Fixpoint decimalValue (acc : Z) (s : string) : option Z :=
  match s with
  | EmptyString => Some acc
  | String c s' =>
      match digitValue c with
      | Some d => decimalValue (acc * 10 + d) s'
      | None => None
      end
  end.

Definition octet (s : string) : option Z :=
  if String.eqb s "" then None
  else match decimalValue 0 s with
       | Some v => if v <=? 255 then Some v else None
       | None => None
       end.

Definition dottedQuadValue (s : string) : option Z :=
  match map octet (splitDots s) with
  | [Some a; Some b; Some c; Some d] => Some (a * 2 ^ 24 + b * 2 ^ 16 + c * 2 ^ 8 + d)
  | _ => None
  end.

(** Each present address is checked against its integer form. *)
Definition addressGatesExact (f : PacketFilter) : Prop :=
  exists code,
    GenerateBPF f = Some code
    /\ (SrcIP f <> "" -> forall v, dottedQuadValue (SrcIP f) = Some v ->
        addressChecks 26 (Instructions code) = [v])
    /\ (DstIP f <> "" -> forall v, dottedQuadValue (DstIP f) = Some v ->
        addressChecks 30 (Instructions code) = [v]).

(** The addresses [ipToUint32] knows. *)
Definition knownAddresses : list string := ["192.168.1.1"; "10.0.0.1"; "127.0.0.1"].

(** * Statements about the comparison *)

(** What the first loop of [compareSemantics] records for one entry of the
    reference program's type counts, and the second loop for one entry of
    the prototype's. *)
Definition matchEntry (protoTypes : gmap InstructionType Z) (e : InstructionType * Z)
  : option string :=
  match protoTypes !! e.1 with
  | Some protoCount => if e.2 =? protoCount then Some (fmtMatch e.1 e.2) else None
  | None => None
  end.

Definition differenceEntry (protoTypes : gmap InstructionType Z) (e : InstructionType * Z)
  : option string :=
  match protoTypes !! e.1 with
  | Some protoCount =>
      if e.2 =? protoCount then None else Some (fmtDifference e.1 e.2 protoCount)
  | None => None
  end.

Definition missingEntry (protoTypes : gmap InstructionType Z) (e : InstructionType * Z)
  : option string :=
  match protoTypes !! e.1 with
  | Some _ => None
  | None => Some (fmtMissing e.1 e.2)
  end.

Definition extraEntry (tcpTypes : gmap InstructionType Z) (e : InstructionType * Z)
  : option string :=
  match tcpTypes !! e.1 with
  | Some _ => None
  | None => Some (fmtExtra e.1 e.2)
  end.

Definition tcpdumpFields (inst : tcpdump.BPFInstruction) : Z * Z * Z * Z :=
  (tcpdump.Code inst, tcpdump.JT inst, tcpdump.JF inst, tcpdump.K inst).

Definition prototypeFields (inst : prototype.BPFInstruction) : Z * Z * Z * Z :=
  (prototype.Code inst, prototype.JT inst, prototype.JF inst, prototype.K inst).

(** The five lists of a result, and what it was computed from. *)
Definition findings (r : ComparisonResult)
  : list string * list string * list string * list string * list string :=
  (Matches r, Differences r, MissingInPrototype r, ExtraInPrototype r, StructuralDiffs r).

Definition inputs (r : ComparisonResult)
  : tcpdump.BPFCode * prototype.BPFCode * list SemanticInstruction * list SemanticInstruction :=
  (TcpdumpBPF r, PrototypeBPF r, TcpdumpSemantic r, PrototypeSemantic r).

(** The purpose tag of an instruction of the first program; the tag does
    not depend on the instruction's position. *)
Definition tagOf (inst : tcpdump.BPFInstruction) : InstructionType :=
  Type_ (analyzeInstruction (tcpdump.Code inst) (tcpdump.JT inst) (tcpdump.JF inst)
                            (tcpdump.K inst) 0).

(** How many instructions of [prog] carry the purpose tag [t]. *)
Definition tagCount (t : InstructionType) (prog : list tcpdump.BPFInstruction) : Z :=
  len (filter (fun inst => tagOf inst = t) prog).

(** The two programs hold the same instructions, field by field. *)
Definition sameInstructions (tcpBPF : tcpdump.BPFCode) (protoBPF : prototype.BPFCode) : Prop :=
  map tcpdumpFields (tcpdump.Instructions tcpBPF)
  = map prototypeFields (prototype.Instructions protoBPF).

(** Programs without instructions. *)
Definition emptyTcpdump : tcpdump.BPFCode :=
  {| tcpdump.Instructions := []; tcpdump.RawOutput := ""; tcpdump.FilterExpr := "";
     tcpdump.InstructionCount := 0; tcpdump.IsMocked := false |}.

Definition emptyPrototype : prototype.BPFCode :=
  {| prototype.Instructions := []; prototype.FilterExpr := "";
     prototype.InstructionCount := 0; prototype.Reasoning := "";
     prototype.Optimizations := [] |}.

(** A reference program that only checks the protocol. *)
Definition protocolOnlyTcpdump : tcpdump.BPFCode :=
  {| tcpdump.Instructions :=
       [{| tcpdump.Code := 0x30; tcpdump.JT := 0; tcpdump.JF := 0; tcpdump.K := 0x17 |};
        {| tcpdump.Code := 0x15; tcpdump.JT := 0; tcpdump.JF := 1; tcpdump.K := 6 |};
        {| tcpdump.Code := 0x06; tcpdump.JT := 0; tcpdump.JF := 0; tcpdump.K := 0x40000 |};
        {| tcpdump.Code := 0x06; tcpdump.JT := 0; tcpdump.JF := 0; tcpdump.K := 0 |}];
     tcpdump.RawOutput := ""; tcpdump.FilterExpr := "tcp";
     tcpdump.InstructionCount := 4; tcpdump.IsMocked := false |}.

(** The same instructions as a prototype program. *)
Definition protocolOnlyPrototype : prototype.BPFCode :=
  {| prototype.Instructions :=
       [{| Code := 0x30; JT := 0; JF := 0; K := 0x17 |};
        {| Code := 0x15; JT := 0; JF := 1; K := 6 |};
        {| Code := 0x06; JT := 0; JF := 0; K := 0x40000 |};
        {| Code := 0x06; JT := 0; JF := 0; K := 0 |}];
     prototype.FilterExpr := "tcp"; prototype.InstructionCount := 4;
     prototype.Reasoning := ""; prototype.Optimizations := [] |}.

(** A prototype program that only returns. *)
Definition returnsOnlyPrototype : prototype.BPFCode :=
  {| prototype.Instructions :=
       [{| Code := 0x06; JT := 0; JF := 0; K := 0x40000 |};
        {| Code := 0x06; JT := 0; JF := 0; K := 0 |}];
     prototype.FilterExpr := ""; prototype.InstructionCount := 2;
     prototype.Reasoning := ""; prototype.Optimizations := [] |}.

(** The verdict is the threshold verdict of the score, made critical when
    a missing entry names the ethertype check or the protocol check. *)
Definition namesCheck (missing : string) : bool :=
  Contains missing (InstructionType_String CheckIP)
  || Contains missing (InstructionType_String CheckProtocol).

(** The verdict of a score as the thresholds word it: at least 0.8
    excellent, at least 0.6 good, at least 0.4 partial, else poor. *)
Definition verdictOfBand (score : float) (verdict : string) : Prop :=
  (PrimFloat.leb 0.8 score = true
   /\ verdict = "EXCELLENT MATCH: Prototype closely matches tcpdump behavior")
  \/ (PrimFloat.leb 0.8 score = false /\ PrimFloat.leb 0.6 score = true
      /\ verdict = "GOOD MATCH: Prototype implements core functionality with some differences")
  \/ (PrimFloat.leb 0.8 score = false /\ PrimFloat.leb 0.6 score = false
      /\ PrimFloat.leb 0.4 score = true
      /\ verdict
         = "PARTIAL MATCH: Prototype covers some functionality but has significant gaps")
  \/ (PrimFloat.leb 0.8 score = false /\ PrimFloat.leb 0.6 score = false
      /\ PrimFloat.leb 0.4 score = false
      /\ verdict = "POOR MATCH: Prototype differs significantly from tcpdump approach").

Definition verdictEscalatesOnEitherCheck (r : ComparisonResult) : Prop :=
  (existsb namesCheck (MissingInPrototype r) = true ->
   String.prefix "CRITICAL" (Verdict r) = true)
  /\ (existsb namesCheck (MissingInPrototype r) = false ->
      verdictOfBand (Score r) (Verdict r)).

(** * More of the packages *)

From Stdlib Require DecimalPos FloatOps SpecFloat.

(** ** Package prototype: builder states *)

(** The builder states the exported operations can produce. *)
Inductive reachable : BPFBuilder -> Prop :=
  | reachable_new : reachable NewBPFBuilder
  | reachable_add code jt jf k b off b' :
      reachable b -> AddInstruction code jt jf k b = Some (off, b') -> reachable b'
  | reachable_note description b b' :
      reachable b -> AddOptimization description b = Some (tt, b') -> reachable b'
  | reachable_update idx jt jf b b' :
      reachable b -> UpdateJumpTargets idx jt jf b = Some (tt, b') -> reachable b'.

(** What the operations maintain: no aliasing in the slice, and the offset
    counter equal to the number of instructions. *)
Definition wellFormed (b : BPFBuilder) : Prop :=
  aliasFree b /\ currentOffset b = len (instructions b).

(** ** Package prototype: reading the generated program *)

Definition portsSet (f : PacketFilter) : bool :=
  negb (SrcPort f =? 0) || negb (DstPort f =? 0).

(** How many instructions of [prog] carry the opcode [code]. *)
Definition countCode (code : Z) (prog : list BPFInstruction) : Z :=
  len (positionsFrom (fun inst => Code inst =? code) 0 prog).

(** The tag the classifier gives to an equality check, from its immediate. *)
Definition checkTag (k : Z) : InstructionType :=
  if k =? 0x800 then CheckIP
  else if (k =? 6) || (k =? 17) || (k =? 1) then CheckProtocol
  else if (1 <=? k) && (k <=? 65535) then CheckDestPort
  else if 0xc0000000 <=? k then CheckSourceIP
  else Unknown.

Definition portCheckTag (port : Z) : InstructionType :=
  if port =? 2048 then CheckIP
  else if (port =? 6) || (port =? 17) || (port =? 1) then CheckProtocol
  else CheckDestPort.

Definition addressCheckTag (ip : string) : InstructionType :=
  if String.eqb ip "10.0.0.1" || String.eqb ip "127.0.0.1" then Unknown else CheckSourceIP.

(** The purpose tags of the generated program, stage by stage. *)
Definition generatedTags (f : PacketFilter) : list InstructionType :=
  [LoadEtherType; CheckIP]
  ++ (if String.eqb (Protocol f) "" then [] else [LoadProtocol; CheckProtocol])
  ++ (if String.eqb (SrcIP f) "" then []
      else [LoadSourceIP; addressCheckTag (SrcIP f)])
  ++ (if String.eqb (DstIP f) "" then []
      else [LoadDestIP; addressCheckTag (DstIP f)])
  ++ (if portsSet f then [LoadFragmentInfo; CheckFragment; LoadHeaderLength] else [])
  ++ (if SrcPort f =? 0 then [] else [LoadSourcePort; portCheckTag (SrcPort f)])
  ++ (if DstPort f =? 0 then [] else [LoadDestPort; portCheckTag (DstPort f)])
  ++ [Accept; Reject].

(** ** Package filter: rendering a filter *)

Definition ToTcpdumpFilter (f : PacketFilter) : string :=
  String.concat " and "
    ((if negb (String.eqb (Protocol f) "") then [Protocol f] else [])
     ++ (if negb (String.eqb (SrcIP f) "") then [("src " ++ SrcIP f)%string] else [])
     ++ (if negb (String.eqb (DstIP f) "") then [("dst " ++ DstIP f)%string] else [])
     ++ (if negb (SrcPort f =? 0) then [("src port " ++ fmtDec (SrcPort f))%string] else [])
     ++ (if negb (DstPort f =? 0) then [("dst port " ++ fmtDec (DstPort f))%string] else [])).

(** [PacketFilter.String] *)
Definition PacketFilter_String (f : PacketFilter) : string :=
  String.concat ", "
    ((if negb (String.eqb (Protocol f) "")
      then [("Protocol: " ++ Protocol f)%string] else [])
     ++ (if negb (String.eqb (SrcIP f) "")
         then [("Source IP: " ++ SrcIP f)%string] else [])
     ++ (if negb (String.eqb (DstIP f) "")
         then [("Destination IP: " ++ DstIP f)%string] else [])
     ++ (if negb (SrcPort f =? 0)
         then [("Source Port: " ++ fmtDec (SrcPort f))%string] else [])
     ++ (if negb (DstPort f =? 0)
         then [("Destination Port: " ++ fmtDec (DstPort f))%string] else [])).

(** ** Package compare: what a comparison looks at *)

(** Opcode and immediate of an instruction, without its branch fields. *)
Definition tcpdumpOperation (inst : tcpdump.BPFInstruction) : Z * Z :=
  (tcpdump.Code inst, tcpdump.K inst).

Definition prototypeOperation (inst : prototype.BPFInstruction) : Z * Z :=
  (prototype.Code inst, prototype.K inst).

(** What the structural pass records for two programs of [tcpCount] and
    [protoCount] instructions with the semantic lists [tcpSem] and
    [protoSem]. *)
Definition structuralEntries (tcpCount protoCount : Z)
  (tcpSem protoSem : list SemanticInstruction) : list string :=
  (if tcpCount =? protoCount then []
   else if 0 <? protoCount - tcpCount
        then [("Prototype has " ++ fmtDec (protoCount - tcpCount)
               ++ " more instructions than tcpdump")%string]
        else [("Prototype has " ++ fmtDec (- (protoCount - tcpCount))
               ++ " fewer instructions than tcpdump")%string])
  ++ (if hasInstructionType protoSem CheckFragment
         && negb (hasInstructionType tcpSem CheckFragment)
      then ["Prototype includes fragment handling that tcpdump mock doesn't have"]
      else [])
  ++ (if (hasInstructionType protoSem CheckSourceIP
          || hasInstructionType protoSem CheckDestIP)
         && negb (hasInstructionType tcpSem CheckSourceIP
                  || hasInstructionType tcpSem CheckDestIP)
      then ["Prototype implements IP address filtering"]
      else []).

(** The instructions of [protocolOnlyTcpdump] in reverse order and with
    other branch fields. *)
Definition reversedProtocolOnly : prototype.BPFCode :=
  {| prototype.Instructions :=
       [{| Code := 0x06; JT := 0; JF := 0; K := 0 |};
        {| Code := 0x06; JT := 0; JF := 0; K := 0x40000 |};
        {| Code := 0x15; JT := 7; JF := 9; K := 6 |};
        {| Code := 0x30; JT := 0; JF := 0; K := 0x17 |}];
     prototype.FilterExpr := "tcp"; prototype.InstructionCount := 4;
     prototype.Reasoning := ""; prototype.Optimizations := [] |}.

(** The four verdicts of the score thresholds. *)
Definition thresholdVerdicts : list string :=
  ["EXCELLENT MATCH: Prototype closely matches tcpdump behavior";
   "GOOD MATCH: Prototype implements core functionality with some differences";
   "PARTIAL MATCH: Prototype covers some functionality but has significant gaps";
   "POOR MATCH: Prototype differs significantly from tcpdump approach"].

(** ** Package compare: helpers of the report *)

Definition strlen (s : string) : Z := Z.of_nat (String.length s).

(** [s[:n]]: a run-time panic outside [0 <= n <= len(s)]. *)
Definition sliceTo (s : string) (n : Z) : option string :=
  if (n <? 0) || (strlen s <? n) then None
  else Some (String.substring 0 (Z.to_nat n) s).

Fixpoint repeatString (s : string) (count : nat) : string :=
  match count with
  | O => ""
  | S count' => (s ++ repeatString s count')%string
  end.

(** [strings.Repeat]: panics on a negative count. *)
Definition Repeat (s : string) (count : Z) : option string :=
  if count <? 0 then None else Some (repeatString s (Z.to_nat count)).

Definition centerText (text : string) (width : Z) : option string :=
  if width <=? strlen text then sliceTo text width
  else
    let padding := Z.quot (width - strlen text) 2 in
    match Repeat " " padding, Repeat " " (width - padding - strlen text) with
    | Some lpad, Some rpad => Some (lpad ++ text ++ rpad)%string
    | _, _ => None
    end.

Definition truncateString (s : string) (maxLen : Z) : option string :=
  if strlen s <=? maxLen then Some s
  else match sliceTo s (maxLen - 3) with
       | Some head => Some (head ++ "...")%string
       | None => None
       end.

Record Difference := {
  Icon : string;
  Text : string;
  Priority : Z
}.

Definition missingDifference (missing : string) : Difference :=
  if Contains missing "IP Protocol"
  then {| Icon := "🚨"; Text := ("CRITICAL: " ++ missing)%string; Priority := 1 |}
  else {| Icon := "✗"; Text := missing; Priority := 3 |}.

Definition extraDifference (extra : string) : Difference :=
  if Contains extra "Fragment" || Contains extra "IP"
  then {| Icon := "✨"; Text := ("ENHANCEMENT: " ++ extra)%string; Priority := 2 |}
  else {| Icon := "+"; Text := extra; Priority := 4 |}.

Definition structuralDifference (structural : string) : Difference :=
  {| Icon := "⚠"; Text := structural; Priority := 5 |}.

(** [l[:n]] for [n] up to the length of [l]; a negative [n] panics. *)
Definition sliceListTo {A} (l : list A) (n : Z) : option (list A) :=
  if n <? 0 then None else Some (take (Z.to_nat n) l).

Definition getTopDifferences (r : ComparisonResult) (maxCount : Z)
  : option (list Difference) :=
  let diffs := map missingDifference (MissingInPrototype r)
               ++ map extraDifference (ExtraInPrototype r)
               ++ map structuralDifference (StructuralDiffs r) in
  if maxCount <? len diffs then sliceListTo diffs maxCount else Some diffs.
(** ** Go's [strings] and [strconv], as far as the reference parser uses them

    A Go string is a sequence of bytes; the library functions below work on
    the bytes and read them as UTF-8 where they look for white space. *)

Definition byteOf (c : ascii) : Z := Z.of_N (N_of_ascii c).

Definition uint16 (z : Z) : Z := z mod 2 ^ 16.

Module strings.

(** [unicode.IsSpace] below U+0080: tab, line feed, vertical tab, form feed,
    carriage return and space. *)
Definition asciiSpace (c : ascii) : bool :=
  let b := byteOf c in ((9 <=? b) && (b <=? 13)) || (b =? 32).

(** The two-byte encodings of a white-space character: U+0085 and U+00A0. *)
Definition space2 (b0 b1 : Z) : bool :=
  (b0 =? 0xC2) && ((b1 =? 0x85) || (b1 =? 0xA0)).

(** The three-byte encodings of a white-space character: U+1680, U+2000 to
    U+200A, U+2028, U+2029, U+202F, U+205F and U+3000. *)
Definition space3 (b0 b1 b2 : Z) : bool :=
  ((b0 =? 0xE1) && (b1 =? 0x9A) && (b2 =? 0x80))
  || ((b0 =? 0xE2) && (b1 =? 0x80)
      && (((0x80 <=? b2) && (b2 <=? 0x8A)) || (b2 =? 0xA8) || (b2 =? 0xA9) || (b2 =? 0xAF)))
  || ((b0 =? 0xE2) && (b1 =? 0x81) && (b2 =? 0x9F))
  || ((b0 =? 0xE3) && (b1 =? 0x80) && (b2 =? 0x80)).

(** The number of bytes of the white-space character that [s] starts with,
    0 when it starts with none.  The first byte of each of these encodings is
    below 0x80 or a UTF-8 lead byte, so it is met only where a character
    starts. *)
Definition spaceWidth (s : list ascii) : nat :=
  match s with
  | c :: rest =>
      if asciiSpace c then 1%nat
      else match rest with
           | d :: rest' =>
               if space2 (byteOf c) (byteOf d) then 2%nat
               else match rest' with
                    | e :: _ => if space3 (byteOf c) (byteOf d) (byteOf e) then 3%nat else 0%nat
                    | [] => 0%nat
                    end
           | [] => 0%nat
           end
  | [] => 0%nat
  end.

(** The same for the white-space character that a text ends with; [r] is the
    text read backwards. *)
Definition lastSpaceWidth (r : list ascii) : nat :=
  match r with
  | c :: rest =>
      if asciiSpace c then 1%nat
      else match rest with
           | d :: rest' =>
               if space2 (byteOf d) (byteOf c) then 2%nat
               else match rest' with
                    | e :: _ => if space3 (byteOf e) (byteOf d) (byteOf c) then 3%nat else 0%nat
                    | [] => 0%nat
                    end
           | [] => 0%nat
           end
  | [] => 0%nat
  end.

(** Drop characters from the front while [width] finds one there; [skip] is
    the number of bytes still to drop of the character under way. *)
Fixpoint trimFrom (width : list ascii -> nat) (skip : nat) (s : list ascii) : list ascii :=
  match s with
  | [] => []
  | _ :: rest =>
      match skip with
      | S k => trimFrom width k rest
      | O => match width s with
             | O => s
             | S w => trimFrom width w rest
             end
      end
  end.

(** [strings.TrimSpace]: leading white space goes first, then trailing. *)
Definition TrimSpace (s : list ascii) : list ascii :=
  rev (trimFrom lastSpaceWidth 0 (rev (trimFrom spaceWidth 0 s))).

(** [strings.Split(s, sep)] for a separator of one byte: the pieces between
    the separators, one more than there are separators. *)
Fixpoint splitFrom (sep : ascii) (piece : list ascii) (s : list ascii) : list (list ascii) :=
  match s with
  | [] => [piece]
  | c :: rest =>
      if Ascii.eqb c sep then piece :: splitFrom sep [] rest
      else splitFrom sep (piece ++ [c]) rest
  end.

Definition Split (s : list ascii) (sep : ascii) : list (list ascii) := splitFrom sep [] s.

(** The field under way, if it has a byte. *)
Definition flush (field : list ascii) : list (list ascii) :=
  match field with
  | [] => []
  | _ => [field]
  end.

(** [strings.Fields]: the maximal runs of bytes that are not white space. *)
Fixpoint fieldsFrom (skip : nat) (field : list ascii) (s : list ascii) : list (list ascii) :=
  match s with
  | [] => flush field
  | c :: rest =>
      match skip with
      | S k => fieldsFrom k field rest
      | O => match spaceWidth s with
             | O => fieldsFrom 0 (field ++ [c]) rest
             | S w => flush field ++ fieldsFrom w [] rest
             end
      end
  end.

Definition Fields (s : list ascii) : list (list ascii) := fieldsFrom 0 [] s.

End strings.

Module strconv.

Inductive NumError :=
  | ErrSyntax
  | ErrRange.

(** The value of a decimal digit. *)
Definition digit (c : ascii) : option Z :=
  let b := byteOf c in
  if (48 <=? b) && (b <=? 57) then Some (b - 48) else None.

(** [maxUint64/10 + 1]: from here on [n*10] no longer fits 64 bits. *)
Definition cutoff : Z := (2 ^ 64 - 1) / 10 + 1.

(** The loop of [ParseUint] in base 10: a byte that is no digit is a syntax
    error, a value above [maxVal] a range error, whichever comes first. *)
Fixpoint parseDigits (maxVal n : Z) (s : list ascii) : NumError + Z :=
  match s with
  | [] => inr n
  | c :: rest =>
      match digit c with
      | None => inl ErrSyntax
      | Some d =>
          if cutoff <=? n then inl ErrRange
          else let n1 := n * 10 + d in
               if maxVal <? n1 then inl ErrRange
               else parseDigits maxVal n1 rest
      end
  end.

(** [strconv.ParseUint(s, 10, bitSize)] for [bitSize] from 1 to 64. *)
Definition ParseUint (s : list ascii) (bitSize : Z) : NumError + Z :=
  match s with
  | [] => inl ErrSyntax
  | _ => parseDigits (2 ^ bitSize - 1) 0 s
  end.

(** [strconv.Atoi], which is [ParseInt(s, 10, 0)]: an optional sign, then
    digits; [intSize] is the width of [int], 32 or 64. *)
Definition Atoi (intSize : Z) (s : list ascii) : NumError + Z :=
  match s with
  | [] => inl ErrSyntax
  | c :: rest =>
      let neg := Ascii.eqb c "-" in
      let digits := if Ascii.eqb c "+" || neg then rest else s in
      match ParseUint digits intSize with
      | inl e => inl e
      | inr un =>
          let cutoff := 2 ^ (intSize - 1) in
          if negb neg && (cutoff <=? un) then inl ErrRange
          else if neg && (cutoff <? un) then inl ErrRange
          else inr (if neg then - un else un)
      end
  end.

End strconv.

(** ** Package tcpdump: the mock and the parser *)

(** [int] arithmetic wraps around. *)
Definition int (intSize z : Z) : Z :=
  (z + 2 ^ (intSize - 1)) mod 2 ^ intSize - 2 ^ (intSize - 1).

Definition mockInstruction (code jt jf k : Z) : tcpdump.BPFInstruction :=
  {| tcpdump.Code := code; tcpdump.JT := jt; tcpdump.JF := jf; tcpdump.K := k |}.

(** The instructions [generateMockBPF] collects. *)
Definition mockInstructions (filterExpr : string) : list tcpdump.BPFInstruction :=
  let instructions :=
    [mockInstruction 0x28 0 0 0x0000000c; mockInstruction 0x15 0 8 0x00000800] in
  let instructions :=
    if Contains filterExpr "tcp" then
      instructions ++ [mockInstruction 0x30 0 0 0x00000017; mockInstruction 0x15 0 6 0x00000006]
    else if Contains filterExpr "udp" then
      instructions ++ [mockInstruction 0x30 0 0 0x00000017; mockInstruction 0x15 0 6 0x00000011]
    else instructions in
  let instructions :=
    if Contains filterExpr "port" then
      let instructions :=
        instructions ++ [mockInstruction 0x28 0 0 0x00000014;
                         mockInstruction 0x45 4 0 0x00001fff;
                         mockInstruction 0xb1 0 0 0x0000000e;
                         mockInstruction 0x48 0 0 0x0000000e] in
      if Contains filterExpr "80" then
        instructions ++ [mockInstruction 0x15 2 0 0x00000050]
      else instructions
    else instructions in
  instructions ++ [mockInstruction 0x06 0 0 0x00040000; mockInstruction 0x06 0 0 0x00000000].

(** One line of the numeric form: ["%d %d %d %d\n"]. *)
Definition instructionLine (inst : tcpdump.BPFInstruction) : string :=
  (fmtDec (tcpdump.Code inst) ++ " " ++ fmtDec (tcpdump.JT inst) ++ " "
   ++ fmtDec (tcpdump.JF inst) ++ " " ++ fmtDec (tcpdump.K inst) ++ String "010" "")%string.

(** The text [generateMockBPF] writes for its instructions: their number on
    the first line, then one line per instruction. *)
Definition mockOutput (instructions : list tcpdump.BPFInstruction) : string :=
  fold_left (fun out inst => (out ++ instructionLine inst)%string) instructions
            (fmtDec (len instructions) ++ String "010" "")%string.

Definition generateMockBPF (filterExpr : string) : tcpdump.BPFCode :=
  let instructions := mockInstructions filterExpr in
  {| tcpdump.Instructions := instructions;
     tcpdump.RawOutput := mockOutput instructions;
     tcpdump.FilterExpr := filterExpr;
     tcpdump.InstructionCount := len instructions;
     tcpdump.IsMocked := true |}.

(** The errors [parseTcpdumpOutput] returns; lines are counted from 0. *)
Inductive parseError :=
  | EmptyOutput
  | InvalidCount
  | CountMismatch (expected got : Z)
  | InvalidFormat (line : Z) (text : string)
  | InvalidCode (line : Z)
  | InvalidJT (line : Z)
  | InvalidJF (line : Z)
  | InvalidK (line : Z).

(** The body of the loop: line [i] of the output. *)
Definition parseInstruction (i : Z) (text : list ascii) : parseError + tcpdump.BPFInstruction :=
  let line := strings.TrimSpace text in
  match strings.Fields line with
  | [p0; p1; p2; p3] =>
      match strconv.ParseUint p0 16 with
      | inl _ => inl (InvalidCode i)
      | inr code =>
          match strconv.ParseUint p1 8 with
          | inl _ => inl (InvalidJT i)
          | inr jt =>
              match strconv.ParseUint p2 8 with
              | inl _ => inl (InvalidJF i)
              | inr jf =>
                  match strconv.ParseUint p3 32 with
                  | inl _ => inl (InvalidK i)
                  | inr k =>
                      inr {| tcpdump.Code := uint16 code; tcpdump.JT := uint8 jt;
                             tcpdump.JF := uint8 jf; tcpdump.K := uint32 k |}
                  end
              end
          end
      end
  | _ => inl (InvalidFormat i (string_of_list_ascii line))
  end.

(** The loop [for i := ...; i <= numInstructions; i++], with [count] rounds
    to go; [lines[i]] outside the slice is a run-time panic ([None]). *)
Fixpoint parseFrom (lines : list (list ascii)) (i : nat) (count : nat)
    (instructions : list tcpdump.BPFInstruction)
  : option (parseError + list tcpdump.BPFInstruction) :=
  match count with
  | O => Some (inr instructions)
  | S count' =>
      match lines !! i with
      | None => None
      | Some text =>
          match parseInstruction (Z.of_nat i) text with
          | inl e => Some (inl e)
          | inr instruction => parseFrom lines (S i) count' (instructions ++ [instruction])
          end
      end
  end.

Definition parseTcpdumpOutput (intSize : Z) (output : string)
  : option (parseError + list tcpdump.BPFInstruction) :=
  let lines := strings.Split (strings.TrimSpace (list_ascii_of_string output)) "010"%char in
  if len lines =? 0 then Some (inl EmptyOutput)
  else
    match index lines 0 with
    | None => None
    | Some first =>
        match strconv.Atoi intSize (strings.TrimSpace first) with
        | inl _ => Some (inl InvalidCount)
        | inr numInstructions =>
            if negb (len lines =? int intSize (numInstructions + 1))
            then Some (inl (CountMismatch numInstructions (len lines - 1)))
            else parseFrom lines 1 (Z.to_nat numInstructions) []
        end
    end.

(** The fields of an instruction lie in the ranges of their Go types. *)
Definition inRange (inst : tcpdump.BPFInstruction) : Prop :=
  0 <= tcpdump.Code inst < 2 ^ 16 /\ 0 <= tcpdump.JT inst < 2 ^ 8
  /\ 0 <= tcpdump.JF inst < 2 ^ 8 /\ 0 <= tcpdump.K inst < 2 ^ 32.

Definition tcpPort80 : string := "tcp and dst port 80".

(** The purpose tags of the mock for a filter expression, stage by stage. *)
Definition mockTags (filterExpr : string) : list InstructionType :=
  [LoadEtherType; CheckIP]
  ++ (if Contains filterExpr "tcp" || Contains filterExpr "udp"
      then [LoadProtocol; CheckProtocol] else [])
  ++ (if Contains filterExpr "port"
      then [LoadFragmentInfo; CheckFragment; LoadHeaderLength; LoadSourcePort]
           ++ (if Contains filterExpr "80" then [CheckDestPort] else [])
      else [])
  ++ [Accept; Reject].

(** Where a branch offset of the instruction at position [i] leads, as the
    comments beside the mock's instructions read them ([JF: 8] at position 1
    is "jf 10"). *)
Definition branchTarget (i offset : Z) : Z := i + 1 + offset.

(** The conditional jumps of the reference programs: [jeq] and [jset]. *)
Definition isConditional (inst : tcpdump.BPFInstruction) : bool :=
  (tcpdump.Code inst =? 0x15) || (tcpdump.Code inst =? 0x45).

(** ** Statements about the reference parser *)

(** A decimal digit. *)
Definition digitChar (c : ascii) : Prop := 48 <= byteOf c <= 57.

(** A text that starts and ends with a digit. *)
Definition digitEnds (s : list ascii) : Prop :=
  (exists c rest, s = c :: rest /\ digitChar c)
  /\ (exists front c, s = front ++ [c] /\ digitChar c).

(** The lines of a text, joined by line feeds. *)
Fixpoint joinLines (lines : list (list ascii)) : list ascii :=
  match lines with
  | [] => []
  | [line] => line
  | line :: rest => line ++ "010"%char :: joinLines rest
  end.

(** The bytes of [%d]. *)
Definition decBytes (n : Z) : list ascii := list_ascii_of_string (fmtDec n).

(** An instruction's line, without its line feed. *)
Definition lineBytes (inst : tcpdump.BPFInstruction) : list ascii :=
  decBytes (tcpdump.Code inst) ++ " "%char :: decBytes (tcpdump.JT inst)
  ++ " "%char :: decBytes (tcpdump.JF inst) ++ " "%char :: decBytes (tcpdump.K inst).

(** ** Package compare: the score bar, the indicator and the takeaway *)

(** [int(x)] of a [float64]: the integral part.  What Go leaves to the
    implementation (a value that is not finite, or whose integral part does
    not fit an [int] of [intSize] bits) is [None]. *)
Definition intOfFloat (intSize : Z) (x : float) : option Z :=
  match FloatOps.Prim2SF x with
  | SpecFloat.S754_zero _ => Some 0
  | SpecFloat.S754_finite s m e =>
      let v := if 0 <=? e then Z.pos m * 2 ^ e else Z.pos m / 2 ^ (- e) in
      let v := if s then - v else v in
      if (- 2 ^ (intSize - 1) <=? v) && (v <? 2 ^ (intSize - 1)) then Some v else None
  | _ => None
  end.

(** [None]: [strings.Repeat] panics on a negative count (or the conversion
    to [int] is left to the implementation). *)
Definition getScoreBar (intSize : Z) (r : ComparisonResult) (width : Z) : option string :=
  match intOfFloat intSize (PrimFloat.mul (Score r) (float64 width)) with
  | None => None
  | Some filled =>
      let empty := width - filled in
      let cells :=
        if PrimFloat.leb 0.8 (Score r) then Repeat "█" filled
        else if PrimFloat.leb 0.6 (Score r) then Repeat "▓" filled
        else Repeat "▒" filled in
      match cells, Repeat "░" empty with
      | Some cells, Some rest => Some ("[" ++ cells ++ rest ++ "]")%string
      | _, _ => None
      end
  end.

Definition getVerdictColor (r : ComparisonResult) : string :=
  if PrimFloat.leb 0.8 (Score r) then ("🟢 VERDICT: " ++ Verdict r)%string
  else if PrimFloat.leb 0.6 (Score r) then ("🟡 VERDICT: " ++ Verdict r)%string
  else ("🔴 VERDICT: " ++ Verdict r)%string.

Definition getKeyTakeaway (r : ComparisonResult) : string :=
  if PrimFloat.leb 0.8 (Score r) then
    "Prototype successfully implements tcpdump functionality with valuable enhancements."
  else if PrimFloat.leb 0.6 (Score r) then
    "Prototype covers core functionality but has some implementation differences."
  else if PrimFloat.leb 0.4 (Score r) then
    "Prototype partially implements the required functionality - review needed."
  else "Prototype requires significant improvements to match tcpdump behavior.".

(** The bar that [getScoreBar] draws with [filled] cells of [cell]. *)
Definition scoreBar (cell : string) (filled width : Z) : string :=
  ("[" ++ repeatString cell (Z.to_nat filled)
   ++ repeatString "░" (Z.to_nat (width - filled)) ++ "]")%string.

(** What the report shows for a score in each of the four bands: the
    threshold verdict, the indicator, the takeaway. *)
Definition bands : list (string * string * string) :=
  [("EXCELLENT MATCH: Prototype closely matches tcpdump behavior", "🟢",
    "Prototype successfully implements tcpdump functionality with valuable enhancements.");
   ("GOOD MATCH: Prototype implements core functionality with some differences", "🟡",
    "Prototype covers core functionality but has some implementation differences.");
   ("PARTIAL MATCH: Prototype covers some functionality but has significant gaps", "🔴",
    "Prototype partially implements the required functionality - review needed.");
   ("POOR MATCH: Prototype differs significantly from tcpdump approach", "🔴",
    "Prototype requires significant improvements to match tcpdump behavior.")].

(** * Properties *)

(** ** The builder *)

Lemma deref_length st ps :
  Forall (fun p => (p < length st)%nat) ps -> length (deref st ps) = length ps.
Proof.
  unfold deref. induction 1 as [|p ps Hp _ IH]; [reflexivity|].
  cbn. destruct (lookup_lt_is_Some_2 st p Hp) as [x ->]. cbn. now rewrite IH.
Qed.

Lemma deref_lookup st ps i p :
  Forall (fun p => (p < length st)%nat) ps ->
  ps !! i = Some p -> deref st ps !! i = st !! p.
Proof.
  unfold deref. intros H. revert i. induction H as [|q ps Hq _ IH]; intros i Hi.
  - now rewrite lookup_nil in Hi.
  - cbn. destruct (lookup_lt_is_Some_2 st q Hq) as [x Hx]. rewrite Hx. cbn.
    destruct i as [|i]; cbn in *.
    + now inversion Hi; subst.
    + now apply IH.
Qed.

Lemma deref_insert st ps i p x :
  NoDup ps -> Forall (fun p => (p < length st)%nat) ps ->
  ps !! i = Some p ->
  deref (<[p := x]> st) ps = <[i := x]> (deref st ps).
Proof.
  unfold deref. intros Hnd H. revert i. induction H as [|q ps Hq Hall IH]; intros i Hi.
  - now rewrite lookup_nil in Hi.
  - apply NoDup_cons in Hnd as [Hnotin Hnd].
    destruct (lookup_lt_is_Some_2 st q Hq) as [y Hy].
    destruct i as [|i]; cbn in Hi.
    + inversion Hi; subst q. cbn.
      rewrite list_lookup_insert_eq by assumption. rewrite Hy. cbn. f_equal.
      clear IH Hi. induction Hall as [|r ps Hr Hall IH']; [reflexivity|].
      cbn. rewrite list_lookup_insert_ne by (intros ->; apply Hnotin; left).
      destruct (st !! r); cbn; [f_equal|]; apply IH';
        try (intros Hin; apply Hnotin; now right);
        now apply NoDup_cons in Hnd as [_ ?].
    + cbn. rewrite list_lookup_insert_ne
        by (intros ->; apply Hnotin; eapply list_elem_of_lookup_2; eassumption).
      rewrite Hy. cbn. f_equal. now apply IH.
Qed.

Lemma Build_length b : aliasFree b -> length (Build b) = length (instructions b).
Proof. intros [_ H]. now apply deref_length. Qed.

Lemma NewBPFBuilder_aliasFree : aliasFree NewBPFBuilder.
Proof. split; constructor. Qed.

Lemma AddInstruction_spec code jt jf k b :
  aliasFree b ->
  exists b',
    AddInstruction code jt jf k b = Some (currentOffset b, b')
    /\ aliasFree b'
    /\ Build b' = Build b ++ [{| Code := code; JT := jt; JF := jf; K := k |}]
    /\ currentOffset b' = currentOffset b + 1
    /\ optimizations b' = optimizations b.
Proof.
  intros [Hnd Hall]. eexists. split; [reflexivity|]. repeat split; cbn.
  - apply NoDup_app. repeat split; [assumption| |apply NoDup_singleton].
    intros p Hp Hp'. apply list_elem_of_singleton in Hp'. subst p.
    rewrite Forall_forall in Hall. specialize (Hall _ Hp). lia.
  - rewrite length_app. cbn. apply Forall_app. split.
    + eapply Forall_impl; [eassumption|]. cbn. intros; lia.
    + constructor; [lia|constructor].
  - unfold Build, deref. cbn. rewrite omap_app. f_equal.
    + clear Hnd. induction Hall as [|p ps Hp _ IH]; [reflexivity|].
      cbn. rewrite lookup_app_l by assumption.
      destruct (store b !! p); cbn; now rewrite IH.
    + cbn. rewrite lookup_app_r by lia. now rewrite Nat.sub_diag.
Qed.

(** A position at or past the end of the slice: nothing happens. *)
Lemma UpdateJumpTargets_past_end idx jt jf b :
  len (instructions b) <= idx -> UpdateJumpTargets idx jt jf b = Some (tt, b).
Proof.
  intros H. unfold UpdateJumpTargets.
  destruct (Z.ltb_spec idx (len (instructions b))); [lia|reflexivity].
Qed.

(** A negative position passes the guard and the indexing panics. *)
Lemma UpdateJumpTargets_negative idx jt jf b :
  idx < 0 -> UpdateJumpTargets idx jt jf b = None.
Proof.
  intros H. unfold UpdateJumpTargets, index, len.
  destruct (Z.ltb_spec idx (Z.of_nat (length (instructions b)))); [|lia].
  destruct (Z.ltb_spec idx 0); [reflexivity|lia].
Qed.

(** A position inside the slice: exactly the two branch fields of that
    instruction change. *)
Lemma UpdateJumpTargets_in_range idx jt jf b :
  aliasFree b -> 0 <= idx < len (instructions b) ->
  exists inst b',
    Build b !! Z.to_nat idx = Some inst
    /\ UpdateJumpTargets idx jt jf b = Some (tt, b')
    /\ Build b' = <[Z.to_nat idx := withJumps inst jt jf]> (Build b)
    /\ aliasFree b'
    /\ instructions b' = instructions b
    /\ optimizations b' = optimizations b
    /\ currentOffset b' = currentOffset b.
Proof.
  intros [Hnd Hall] [H0 Hlt]. unfold len in Hlt.
  destruct (lookup_lt_is_Some_2 (instructions b) (Z.to_nat idx)) as [p Hp]; [lia|].
  assert (Hpst : (p < length (store b))%nat).
  { rewrite Forall_forall in Hall. apply Hall. eapply list_elem_of_lookup_2; eassumption. }
  destruct (lookup_lt_is_Some_2 (store b) p Hpst) as [inst Hinst].
  exists inst. eexists. split; [|split].
  - unfold Build. erewrite deref_lookup; eassumption.
  - unfold UpdateJumpTargets, index, len.
    destruct (Z.ltb_spec idx (Z.of_nat (length (instructions b)))); [|lia].
    destruct (Z.ltb_spec idx 0); [lia|]. rewrite Hp, Hinst. reflexivity.
  - repeat split; cbn; try assumption.
    + unfold Build. cbn. now apply deref_insert.
    + rewrite length_insert. assumption.
Qed.

(** ** The generator *)

(** The final pass visits exactly [patchedPositions]. *)
Lemma backpatch_patchedPositions acceptIdx rejectIdx c b :
  0 <= ipCheckIdx c ->
  backpatch acceptIdx rejectIdx c b
  = patchPorts acceptIdx rejectIdx (patchedPositions c) b.
Proof.
  intros Hip. unfold backpatch, patchedPositions, patchIfRecorded. cbn [List.filter].
  destruct c as [ip pr sa da ports]. cbn [ipCheckIdx protocolCheckIdx srcIPCheckIdx
    dstIPCheckIdx portCheckIndices] in *.
  cbn [patchPorts]. unfold bind.
  destruct (patchCheck acceptIdx rejectIdx ip b) as [[[] b1]|]; [|reflexivity].
  destruct (0 <=? pr); cbn [app patchPorts ret]; unfold bind;
    [destruct (patchCheck acceptIdx rejectIdx pr b1) as [[[] b2]|]; [|reflexivity]
    |set (b2 := b1)];
  (destruct (0 <=? sa); cbn [app patchPorts ret]; unfold bind;
    [destruct (patchCheck acceptIdx rejectIdx sa b2) as [[[] b3]|]; [|reflexivity]
    |set (b3 := b2)]);
  (destruct (0 <=? da); cbn [app patchPorts ret]; unfold bind;
    [destruct (patchCheck acceptIdx rejectIdx da b3) as [[[] b4]|]; [|reflexivity]
    |set (b4 := b3)]);
  reflexivity.
Qed.

(** Case analysis on which fields of the filter are set; the immediates
    that depend on the field values stay symbolic. *)
Ltac filter_shape f :=
  let proto := fresh "proto" in
  let sip := fresh "sip" in
  let dip := fresh "dip" in
  let sp := fresh "sp" in
  let dp := fresh "dp" in
  destruct f as [proto sip dip sp dp];
  unfold GenerateBPF, buildAntreaBPF, emitGates, protocolGate, addressGate, portGate,
    portChecks, recordOptimizations, reasoningText, buildFilterDescription in *;
  cbn [Protocol SrcIP DstIP SrcPort DstPort] in *;
  destruct (String.eqb proto "") eqn:Hproto, (String.eqb sip "") eqn:Hsip,
           (String.eqb dip "") eqn:Hdip, (sp =? 0) eqn:Hsp, (dp =? 0) eqn:Hdp.

Ltac run_generator :=
  cbv -[protocolNum ipToUint32 uint32 String.append String.concat fmtDec
        Z.lt Z.le].

(** C1: the generated program ends with accept then reject, it holds no
    other return instruction, and every check the final pass patches (the
    equality checks: all checks but the fragment check) has its true branch
    equal to the accept position minus its own and its false branch equal
    to the reject position minus its own, so that its true branch leads
    exactly to the accept instruction. *)
Theorem generated_program_terminal_pair_and_backpatch (f : PacketFilter) :
  exists c b code,
    emitGates f NewBPFBuilder = Some (c, b)
    /\ GenerateBPF f = Some code
    /\ let prog := Instructions code in
       let acceptPos := len prog - 2 in
       let rejectPos := len prog - 1 in
       exists accept reject,
         prog = take (Z.to_nat acceptPos) prog ++ [accept; reject]
         /\ (Code accept = 0x06 /\ 0 < K accept)
         /\ (Code reject = 0x06 /\ K reject = 0)
         /\ positionsFrom isReturn 0 prog = [acceptPos; rejectPos]
         /\ positionsFrom isCheck 0 prog = patchedPositions c
         /\ Forall (resolved prog acceptPos rejectPos) (patchedPositions c)
         /\ Forall (fun p => exists inst, index prog p = Some inst
                                        /\ index prog (p + JT inst) = Some accept)
                   (patchedPositions c).
Proof.
  filter_shape f.
  all: unfold resolved. 
  all: run_generator.
  all: do 3 eexists; split; [reflexivity|split; [reflexivity|]].
  all: run_generator.
  all: do 2 eexists.
  all: repeat first [ split | reflexivity | lia ].
  all: repeat first [apply Forall_nil_2 | apply Forall_cons_2].
  all: run_generator; eexists; (split; [reflexivity|]); run_generator;
    repeat split; first [reflexivity | lia].
Qed.

(** When a port is set, [emitGates] is the run up to the port checks
    followed by the patch of the fragment check. *)
Lemma emitGates_fragment_patch f b :
  negb (SrcPort f =? 0) || negb (DstPort f =? 0) = true ->
  emitGates f b =
  match gatesBeforeFragmentPatch f b with
  | Some ((fragIdx, ports), b1) =>
      match patchFragment fragIdx b1 with
      | Some (_, b2) =>
          option_map (fun '(c, _) =>
                        ({| ipCheckIdx := ipCheckIdx c;
                            protocolCheckIdx := protocolCheckIdx c;
                            srcIPCheckIdx := srcIPCheckIdx c;
                            dstIPCheckIdx := dstIPCheckIdx c;
                            portCheckIndices := ports |}, b2))
                     ((ip <- ethertypeGate ;; pr <- protocolGate f ;;
                       ad <- addressGate f ;;
                       ret {| ipCheckIdx := ip; protocolCheckIdx := pr;
                              srcIPCheckIdx := fst ad; dstIPCheckIdx := snd ad;
                              portCheckIndices := [] |}) b)
      | None => None
      end
  | None => None
  end.
Proof.
  intros Hport. unfold emitGates, gatesBeforeFragmentPatch, portGate. rewrite Hport.
  unfold bind.
  destruct (ethertypeGate b) as [[ip b1]|]; [|reflexivity].
  destruct (protocolGate f b1) as [[pr b2]|]; [|reflexivity].
  destruct (addressGate f b2) as [[ad b3]|]; [|reflexivity].
  destruct (portChecks f b3) as [[[fragIdx ports] b4]|]; [|reflexivity].
  cbn [fst snd]. destruct (patchFragment fragIdx b4) as [[[] b5]|]; reflexivity.
Qed.

(** C2, the divergence: with a port set, the fragment check is patched
    during construction, right after the last port check has been emitted,
    with false branch 0 and, as true branch, the position [n + 1] itself,
    where [n] is the number of instructions emitted so far: the position
    the reject instruction takes afterwards.  The final pass, which stores
    distances (target minus own position) in the other checks, leaves the
    fragment check as it is.  Read as a distance from the fragment check,
    as the data model has it, the stored value does not lead to the
    position after the last port check: it leads out of the program. *)
Theorem fragment_check_stores_position_not_distance (f : PacketFilter) :
  negb (SrcPort f =? 0) || negb (DstPort f =? 0) = true ->
  ~ fragmentBranchSkipsPortChecks f
  /\ exists fragIdx ports b b' lastPort code,
      gatesBeforeFragmentPatch f NewBPFBuilder = Some ((fragIdx, ports), b)
      /\ patchFragment fragIdx b = Some (tt, b')
      /\ last ports = Some lastPort
      /\ len (Build b) = lastPort + 1
      /\ index (Build b') fragIdx
         = Some {| Code := 0x45; JT := lastPort + 2; JF := 0; K := 0x1fff |}
      /\ GenerateBPF f = Some code
      /\ len (Instructions code) = lastPort + 3
      /\ index (Instructions code) fragIdx
         = Some {| Code := 0x45; JT := lastPort + 2; JF := 0; K := 0x1fff |}
      /\ index (Instructions code) (lastPort + 2)
         = Some {| Code := 0x06; JT := 0; JF := 0; K := 0 |}
      /\ 0 < fragIdx
      /\ index (Instructions code) (fragIdx + (lastPort + 2)) = None.
Proof.
  intros Hport.
  assert (exists fragIdx ports b b' lastPort code,
      gatesBeforeFragmentPatch f NewBPFBuilder = Some ((fragIdx, ports), b)
      /\ patchFragment fragIdx b = Some (tt, b')
      /\ last ports = Some lastPort
      /\ len (Build b) = lastPort + 1
      /\ index (Build b') fragIdx
         = Some {| Code := 0x45; JT := lastPort + 2; JF := 0; K := 0x1fff |}
      /\ GenerateBPF f = Some code
      /\ len (Instructions code) = lastPort + 3
      /\ index (Instructions code) fragIdx
         = Some {| Code := 0x45; JT := lastPort + 2; JF := 0; K := 0x1fff |}
      /\ index (Instructions code) (lastPort + 2)
         = Some {| Code := 0x06; JT := 0; JF := 0; K := 0 |}
      /\ 0 < fragIdx
      /\ index (Instructions code) (fragIdx + (lastPort + 2)) = None) as Hfacts.
  { unfold gatesBeforeFragmentPatch.
    filter_shape f; try discriminate Hport.
    all: run_generator.
    all: do 6 eexists.
    all: repeat (split; [reflexivity|]); run_generator; reflexivity. }
  split; [|exact Hfacts].
  destruct Hfacts as (fragIdx & ports & b & b' & lastPort & code
                      & H1 & H2 & H3 & _ & H5 & _ & _ & _ & _ & Hpos & _).
  intros (fragIdx' & ports' & b0 & b0' & inst & lastPort' & G1 & G2 & G3 & G4 & G5).
  rewrite H1 in G1. injection G1 as <- <- <-.
  rewrite H2 in G2. injection G2 as <-.
  rewrite H5 in G3. injection G3 as <-.
  rewrite H3 in G4. injection G4 as <-.
  cbn [JT] in G5. lia.
Qed.

(** C2 at the filter "tcp, destination port 80": the fragment check sits
    at position 5 and holds the true-branch value 10, the position of the
    reject instruction; as a distance from 5 that leads to 15, in a program
    of 11 instructions, and not to 9, the position after the last port
    check. *)
Lemma fragment_check_stores_position_tcp_dport_80 :
  ~ fragmentBranchSkipsPortChecks tcpDstPort80
  /\ exists fragIdx ports b b' lastPort code,
      gatesBeforeFragmentPatch tcpDstPort80 NewBPFBuilder = Some ((fragIdx, ports), b)
      /\ patchFragment fragIdx b = Some (tt, b')
      /\ last ports = Some lastPort
      /\ len (Build b) = lastPort + 1
      /\ index (Build b') fragIdx
         = Some {| Code := 0x45; JT := lastPort + 2; JF := 0; K := 0x1fff |}
      /\ GenerateBPF tcpDstPort80 = Some code
      /\ len (Instructions code) = lastPort + 3
      /\ index (Instructions code) fragIdx
         = Some {| Code := 0x45; JT := lastPort + 2; JF := 0; K := 0x1fff |}
      /\ index (Instructions code) (lastPort + 2)
         = Some {| Code := 0x06; JT := 0; JF := 0; K := 0 |}
      /\ 0 < fragIdx
      /\ index (Instructions code) (fragIdx + (lastPort + 2)) = None.
Proof.
  apply (fragment_check_stores_position_not_distance tcpDstPort80). reflexivity.
Defined.

(** ** The classifier *)

(** The tag of an equality check depends on its immediate alone. *)
Lemma analyzeInstruction_check_tag jt jf k idx :
  Type_ (analyzeInstruction 0x15 jt jf k idx)
  = if k =? 0x800 then CheckIP
    else if (k =? 6) || (k =? 17) || (k =? 1) then CheckProtocol
    else if (1 <=? k) && (k <=? 65535) then CheckDestPort
    else if 0xc0000000 <=? k then CheckSourceIP
    else Unknown.
Proof.
  unfold analyzeInstruction, semantic. cbn [Z.eqb].
  change (21 =? 40) with false. change (21 =? 48) with false.
  change (21 =? 32) with false. change (21 =? 72) with false.
  change (21 =? 21) with true. cbv iota.
  destruct (k =? 0x800); [reflexivity|].
  destruct (k =? 6); [reflexivity|].
  destruct (k =? 17); [reflexivity|].
  destruct (k =? 1); [reflexivity|]. cbn [orb].
  destruct ((1 <=? k) && (k <=? 65535)); [reflexivity|].
  destruct (0xc0000000 <=? k); reflexivity.
Qed.

Lemma analyzeInstruction_port_load_tag jt jf k idx :
  Type_ (analyzeInstruction 0x48 jt jf k idx)
  = if k =? 14 then LoadSourcePort else if k =? 16 then LoadDestPort else Unknown.
Proof.
  unfold analyzeInstruction, semantic.
  change (72 =? 40) with false. change (72 =? 48) with false.
  change (72 =? 32) with false. change (72 =? 72) with true. cbv iota.
  destruct (k =? 14); [reflexivity|]. destruct (k =? 16); reflexivity.
Qed.

Lemma Validate_ports f :
  Validate f = true -> 0 <= SrcPort f <= 65535 /\ 0 <= DstPort f <= 65535.
Proof.
  unfold Validate, validPort. intros H.
  repeat (apply andb_prop in H as [H ?]).
  repeat match goal with
         | H : negb (_ || _) = true |- _ =>
             apply negb_true_iff, orb_false_elim in H as [? ?]
         end.
  lia.
Qed.

(** C3, counterexample: for "tcp, source port 80" the one port check is
    classified as a destination-port check. *)
Lemma source_port_check_not_classified_as_source :
  ~ portCheckClassifiedByPort tcpSrcPort80.
Proof.
  intros (code & p & check & sem & H1 & H2 & H3 & H4).
  vm_compute in H1. injection H1 as <-.
  vm_compute in H2. injection H2 as <- <-.
  vm_compute in H3. injection H3 as <-.
  vm_compute in H4. discriminate H4.
Qed.

Lemma uint32_small z : 0 <= z <= 65535 -> uint32 z = z.
Proof. intros H. unfold uint32. apply Z.mod_small. lia. Qed.

(** C3, as amended: with exactly one port set the program holds exactly
    one port check; it follows the load of the port that was set (offset
    14 for the source port, 16 for the destination port, classified as the
    corresponding load) and compares with that port.  The check itself is
    classified from its immediate alone: as a destination-port check
    whichever port was set, except that port 2048 is taken for the
    ethertype check and ports 1, 6 and 17 for a protocol check. *)
Theorem single_port_check_classified_by_immediate (f : PacketFilter) :
  Validate f = true ->
  xorb (SrcPort f =? 0) (DstPort f =? 0) = true ->
  exists code p load check sem,
    GenerateBPF f = Some code
    /\ portChecksOf (Instructions code) = [(p, check)]
    /\ index (Instructions code) (p - 1) = Some load
    /\ K check = (if SrcPort f =? 0 then DstPort f else SrcPort f)
    /\ Type_ (analyzeInstruction (Code load) (JT load) (JF load) (K load) (p - 1))
       = (if SrcPort f =? 0 then LoadDestPort else LoadSourcePort)
    /\ index (analyzePrototypeSemantics (Instructions code)) p = Some sem
    /\ Type_ sem
       = (if K check =? 0x800 then CheckIP
          else if (K check =? 6) || (K check =? 17) || (K check =? 1) then CheckProtocol
          else CheckDestPort).
Proof.
  intros Hv Hx. destruct (Validate_ports f Hv) as [Hs Hd]. clear Hv.
  filter_shape f; try discriminate Hx.
  all: apply Z.eqb_neq in Hsp || apply Z.eqb_neq in Hdp.
  all: do 5 eexists.
  all: split; [run_generator; reflexivity|]; cbn [Instructions].
  all: split; [cbv -[uint32 protocolNum ipToUint32]; reflexivity|].
  all: split; [cbv -[uint32 protocolNum ipToUint32]; reflexivity|].
  all: cbn [K Code JT JF].
  all: split; [apply uint32_small; assumption|].
  all: split; [rewrite analyzeInstruction_port_load_tag; reflexivity|].
  all: split; [cbv -[uint32 protocolNum ipToUint32 analyzeInstruction]; reflexivity|].
  all: rewrite analyzeInstruction_check_tag, uint32_small by assumption.
  all: repeat match goal with |- context [if ?c then _ else _] =>
         destruct c eqn:?; try reflexivity end; lia.
Qed.

Lemma single_port_check_tcp_sport_80 :
  exists code p load check sem,
    GenerateBPF tcpSrcPort80 = Some code
    /\ portChecksOf (Instructions code) = [(p, check)]
    /\ index (Instructions code) (p - 1) = Some load
    /\ K check = (if SrcPort tcpSrcPort80 =? 0 then DstPort tcpSrcPort80
                  else SrcPort tcpSrcPort80)
    /\ Type_ (analyzeInstruction (Code load) (JT load) (JF load) (K load) (p - 1))
       = (if SrcPort tcpSrcPort80 =? 0 then LoadDestPort else LoadSourcePort)
    /\ index (analyzePrototypeSemantics (Instructions code)) p = Some sem
    /\ Type_ sem
       = (if K check =? 0x800 then CheckIP
          else if (K check =? 6) || (K check =? 17) || (K check =? 1) then CheckProtocol
          else CheckDestPort).
Proof.
  apply (single_port_check_classified_by_immediate tcpSrcPort80); reflexivity.
Defined.

(** C4, counterexample: the source address 8.8.8.8 has the integer form
    0x08080808, and the generated check compares with 0xc0a80001. *)
Lemma address_check_not_integer_form_8_8_8_8 :
  ~ addressGatesExact fromGoogleDNS.
Proof.
  intros (code & H1 & H2 & _).
  vm_compute in H1. injection H1 as <-.
  specialize (H2 ltac:(discriminate) 0x08080808 eq_refl).
  vm_compute in H2. discriminate H2.
Qed.

Lemma ipToUint32_default ip :
  ~ In ip knownAddresses -> ipToUint32 ip = 0xc0a80001.
Proof.
  intros Hn. unfold ipToUint32.
  destruct (String.eqb_spec ip "192.168.1.1") as [->|_]; [exfalso; apply Hn; cbn; tauto|].
  destruct (String.eqb_spec ip "10.0.0.1") as [->|_]; [exfalso; apply Hn; cbn; tauto|].
  destruct (String.eqb_spec ip "127.0.0.1") as [->|_]; [exfalso; apply Hn; cbn; tauto|].
  reflexivity.
Qed.

(** C4, as amended: for each present address the generator emits the load
    of its address word (offset 26 for the source, 30 for the destination)
    directly followed by an equality check whose immediate is
    [ipToUint32] of the address text.  That value is the integer form of
    the dotted quad for 192.168.1.1, 10.0.0.1 and 127.0.0.1, and the fixed
    value 0xc0a80001 for every other text. *)
Theorem address_checks_compare_with_ipToUint32 (f : PacketFilter) :
  exists code,
    GenerateBPF f = Some code
    /\ addressChecks 26 (Instructions code)
       = (if String.eqb (SrcIP f) "" then [] else [ipToUint32 (SrcIP f)])
    /\ addressChecks 30 (Instructions code)
       = (if String.eqb (DstIP f) "" then [] else [ipToUint32 (DstIP f)])
    /\ Forall (fun ip => dottedQuadValue ip = Some (ipToUint32 ip)) knownAddresses
    /\ (forall ip, ~ In ip knownAddresses -> ipToUint32 ip = 0xc0a80001).
Proof.
  assert (Hknown : Forall (fun ip => dottedQuadValue ip = Some (ipToUint32 ip))
                          knownAddresses)
    by (repeat constructor).
  filter_shape f.
  all: eexists; split; [run_generator; reflexivity|]; cbn [Instructions].
  all: split; [cbv -[uint32 protocolNum ipToUint32]; reflexivity|].
  all: split; [cbv -[uint32 protocolNum ipToUint32]; reflexivity|].
  all: split; [exact Hknown|exact ipToUint32_default].
Qed.

(** C8, at the failing input: position -1 passes the guard
    [instructionIndex < len(b.instructions)] and the indexing panics, on
    the fresh builder as on any other. *)
Theorem UpdateJumpTargets_minus_one_panics :
  UpdateJumpTargets (-1) 0 0 NewBPFBuilder = None
  /\ forall b, UpdateJumpTargets (-1) 0 0 b = None.
Proof.
  split; [reflexivity|]. intros b. apply UpdateJumpTargets_negative. lia.
Qed.

(** C9: the classifier does not look at the branch fields. *)
Theorem analyzeInstruction_ignores_branches (code jt jf jt' jf' k idx : Z) :
  analyzeInstruction code jt jf k idx = analyzeInstruction code jt' jf' k idx.
Proof. reflexivity. Qed.

(** The tags the classifier can return. *)
Lemma analyzeInstruction_tags code jt jf k idx :
  In (Type_ (analyzeInstruction code jt jf k idx))
     [LoadEtherType; CheckIP; LoadProtocol; CheckProtocol; LoadSourceIP;
      CheckSourceIP; LoadDestIP; LoadFragmentInfo; CheckFragment; LoadHeaderLength;
      LoadSourcePort; LoadDestPort; CheckDestPort; Accept; Reject; Unknown].
Proof.
  unfold analyzeInstruction, semantic.
  repeat match goal with
         | |- context [if ?c then _ else _] => destruct c
         end; cbn; tauto.
Qed.

(** ** The comparison engine *)

(** *** Type counts *)

Lemma increment_lookup m t u :
  increment m t !! u = if decide (t = u) then Some (default 0 (m !! t) + 1) else m !! u.
Proof. unfold increment. apply lookup_insert. Qed.

Lemma foldl_increment_None sems : forall m t,
  foldl (fun m sem => increment m (Type_ sem)) m sems !! t = None
  <-> m !! t = None /\ hasInstructionType sems t = false.
Proof.
  induction sems as [|sem sems IH]; intros m t; cbn.
  - tauto.
  - rewrite IH, increment_lookup. unfold hasInstructionType in *.
    destruct (decide (Type_ sem = t)) as [->|Hne].
    + rewrite bool_decide_eq_true_2 by reflexivity. cbn.
      split; [intros [? _]|intros [_ ?]]; discriminate.
    + rewrite bool_decide_eq_false_2 by assumption. cbn. tauto.
Qed.

Lemma countTypes_None sems t :
  countTypes sems !! t = None <-> hasInstructionType sems t = false.
Proof.
  unfold countTypes. rewrite foldl_increment_None, lookup_empty. tauto.
Qed.

Lemma countTypes_nonempty sems : sems <> [] -> countTypes sems <> ∅.
Proof.
  destruct sems as [|sem sems]; [congruence|]. intros _ Hempty.
  assert (H : countTypes (sem :: sems) !! Type_ sem = None) by (rewrite Hempty; apply lookup_empty).
  apply countTypes_None in H. cbn in H.
  rewrite bool_decide_eq_true_2 in H by reflexivity. discriminate.
Qed.

Lemma analyzeFrom_length {I} (fields : I -> Z * Z * Z * Z) l : forall start,
  length (analyzeFrom fields start l) = length l.
Proof.
  induction l as [|x l IH]; intros start; cbn; [reflexivity|].
  destruct (fields x) as [[[c jt] jf] k]. cbn. now rewrite IH.
Qed.

Lemma analyzeFrom_fields {I J} (f : I -> Z * Z * Z * Z) (g : J -> Z * Z * Z * Z) l l' :
  map f l = map g l' -> forall start, analyzeFrom f start l = analyzeFrom g start l'.
Proof.
  revert l'. induction l as [|x l IH]; intros [|y l'] H start; try discriminate H; [reflexivity|].
  cbn in *. injection H as Hxy Hl. rewrite Hxy.
  destruct (g y) as [[[c jt] jf] k]. f_equal. now apply IH.
Qed.

(** Every tag that is counted is one the classifier returns. *)
Lemma analyzeFrom_has_tag {I} (fields : I -> Z * Z * Z * Z) l t : forall start,
  hasInstructionType (analyzeFrom fields start l) t = true ->
  exists code jt jf k idx, t = Type_ (analyzeInstruction code jt jf k idx).
Proof.
  induction l as [|x l IH]; intros start; cbn; [discriminate|].
  destruct (fields x) as [[[c jt] jf] k]. cbn.
  intros H. apply orb_prop in H as [H|H].
  - apply bool_decide_eq_true in H. eauto 6.
  - eapply IH. exact H.
Qed.

(** *** Visiting a map *)

Section Visits.
Variable range : gmap InstructionType Z -> list (InstructionType * Z).
Hypothesis Hrange : visitsOnce range.

Lemma range_elem m t n : (t, n) ∈ range m <-> m !! t = Some n.
Proof. rewrite (Hrange m). apply elem_of_map_to_list. Qed.

Lemma range_nil m : range m = [] <-> m = ∅.
Proof.
  split; intros H.
  - apply map_to_list_empty_iff. apply Permutation_nil_r. rewrite <- (Hrange m), H. reflexivity.
  - apply Permutation_nil_r. rewrite (Hrange m), H, map_to_list_empty. reflexivity.
Qed.

Lemma range_length_bound m : (length (range m) <= 18)%nat.
Proof.
  rewrite (Hrange m). rewrite <- (length_fmap fst).
  change 18%nat with (length allTypes).
  apply submseteq_length, NoDup_submseteq.
  - apply NoDup_fst_map_to_list.
  - intros t _. apply list_elem_of_In. destruct t; cbn; tauto.
Qed.

End Visits.

(** *** The two loops of [compareSemantics] *)

Lemma findMatch_loop protoTypes l : forall r,
  let r' := foldl (findMatch protoTypes) r l in
  findings r' = (Matches r ++ omap (matchEntry protoTypes) l,
                 Differences r ++ omap (differenceEntry protoTypes) l,
                 MissingInPrototype r ++ omap (missingEntry protoTypes) l,
                 ExtraInPrototype r, StructuralDiffs r)
  /\ inputs r' = inputs r.
Proof.
  induction l as [|[t n] l IH]; intros r; cbn zeta.
  - cbn. unfold findings. now rewrite !app_nil_r.
  - cbn [foldl]. destruct (IH (findMatch protoTypes r (t, n))) as [-> ->].
    unfold findings, inputs.
    assert (Hm : omap (matchEntry protoTypes) ((t, n) :: l)
                 = from_option (fun s => [s]) [] (matchEntry protoTypes (t, n))
                   ++ omap (matchEntry protoTypes) l)
      by (cbn; destruct (matchEntry protoTypes (t, n)); reflexivity).
    assert (Hd : omap (differenceEntry protoTypes) ((t, n) :: l)
                 = from_option (fun s => [s]) [] (differenceEntry protoTypes (t, n))
                   ++ omap (differenceEntry protoTypes) l)
      by (cbn; destruct (differenceEntry protoTypes (t, n)); reflexivity).
    assert (Hx : omap (missingEntry protoTypes) ((t, n) :: l)
                 = from_option (fun s => [s]) [] (missingEntry protoTypes (t, n))
                   ++ omap (missingEntry protoTypes) l)
      by (cbn; destruct (missingEntry protoTypes (t, n)); reflexivity).
    rewrite Hm, Hd, Hx. clear Hm Hd Hx.
    unfold findMatch, matchEntry, differenceEntry, missingEntry. cbn [fst snd].
    destruct (protoTypes !! t) as [m|]; [destruct (n =? m)|]; cbn;
      rewrite <- ?app_assoc, ?app_nil_r; split; reflexivity.
Qed.

Lemma findExtra_loop tcpTypes l : forall r,
  let r' := foldl (findExtra tcpTypes) r l in
  findings r' = (Matches r, Differences r, MissingInPrototype r,
                 ExtraInPrototype r ++ omap (extraEntry tcpTypes) l, StructuralDiffs r)
  /\ inputs r' = inputs r.
Proof.
  induction l as [|[t n] l IH]; intros r; cbn zeta.
  - cbn. unfold findings. now rewrite !app_nil_r.
  - cbn [foldl]. destruct (IH (findExtra tcpTypes r (t, n))) as [-> ->].
    unfold findings, inputs.
    assert (Hx : omap (extraEntry tcpTypes) ((t, n) :: l)
                 = from_option (fun s => [s]) [] (extraEntry tcpTypes (t, n))
                   ++ omap (extraEntry tcpTypes) l)
      by (cbn; destruct (extraEntry tcpTypes (t, n)); reflexivity).
    rewrite Hx. clear Hx.
    unfold findExtra, extraEntry. cbn [fst snd].
    destruct (tcpTypes !! t) as [m|]; cbn; rewrite <- ?app_assoc, ?app_nil_r;
      split; reflexivity.
Qed.

(** Each entry of the reference counts is recorded in exactly one of the
    first three lists. *)
Lemma findMatch_entries_length protoTypes l :
  (length (omap (matchEntry protoTypes) l) + length (omap (differenceEntry protoTypes) l)
   + length (omap (missingEntry protoTypes) l) = length l)%nat.
Proof.
  induction l as [|[t n] l IH]; [reflexivity|].
  cbn [omap list_omap length].
  destruct (matchEntry protoTypes (t, n)) eqn:Em,
           (differenceEntry protoTypes (t, n)) eqn:Ed,
           (missingEntry protoTypes (t, n)) eqn:Ex;
    unfold matchEntry, differenceEntry, missingEntry in Em, Ed, Ex; cbn [fst snd] in *;
    destruct (protoTypes !! t) as [m|]; try destruct (n =? m); try discriminate;
    cbn [length]; lia.
Qed.

(** The structural pass adds at most the count note to the matches and
    leaves the other three classified lists alone. *)
Lemma analyzeStructuralDifferences_lists r :
  let r' := analyzeStructuralDifferences r in
  Matches r' = Matches r
               ++ (if len (tcpdump.Instructions (TcpdumpBPF r))
                      =? len (prototype.Instructions (PrototypeBPF r))
                   then ["Same instruction count"] else [])
  /\ Differences r' = Differences r
  /\ MissingInPrototype r' = MissingInPrototype r
  /\ ExtraInPrototype r' = ExtraInPrototype r
  /\ inputs r' = inputs r.
Proof.
  unfold analyzeStructuralDifferences.
  destruct (len (tcpdump.Instructions (TcpdumpBPF r))
            =? len (prototype.Instructions (PrototypeBPF r))).
  all: repeat match goal with
         | |- context [if ?c then _ else _] => destruct c
         end; cbn; rewrite ?app_nil_r; repeat split; reflexivity.
Qed.

(** *** The lists [Compare] returns *)

Section Lists.
Variables rangeTcp rangeProto : gmap InstructionType Z -> list (InstructionType * Z).

Lemma compareSemantics_lists r :
  let tcpTypes := countTypes (TcpdumpSemantic r) in
  let protoTypes := countTypes (PrototypeSemantic r) in
  let r' := compareSemantics rangeTcp rangeProto r in
  Matches r' = (Matches r ++ omap (matchEntry protoTypes) (rangeTcp tcpTypes))
               ++ (if len (tcpdump.Instructions (TcpdumpBPF r))
                      =? len (prototype.Instructions (PrototypeBPF r))
                   then ["Same instruction count"] else [])
  /\ Differences r' = Differences r ++ omap (differenceEntry protoTypes) (rangeTcp tcpTypes)
  /\ MissingInPrototype r'
     = MissingInPrototype r ++ omap (missingEntry protoTypes) (rangeTcp tcpTypes)
  /\ ExtraInPrototype r'
     = ExtraInPrototype r ++ omap (extraEntry tcpTypes) (rangeProto protoTypes)
  /\ inputs r' = inputs r.
Proof.
  intros tcpTypes protoTypes. unfold compareSemantics. fold tcpTypes protoTypes. cbn zeta.
  set (r1 := foldl (findMatch protoTypes) r (rangeTcp tcpTypes)).
  set (r2 := foldl (findExtra tcpTypes) r1 (rangeProto protoTypes)).
  destruct (findMatch_loop protoTypes (rangeTcp tcpTypes) r) as [H1 I1]. fold r1 in H1, I1.
  destruct (findExtra_loop tcpTypes (rangeProto protoTypes) r1) as [H2 I2]. fold r2 in H2, I2.
  destruct (analyzeStructuralDifferences_lists r2) as (HM & HD & HX & HE & I3).
  unfold findings in H1, H2. injection H1 as M1 D1 X1 E1 S1. injection H2 as M2 D2 X2 E2 S2.
  rewrite HM, HD, HX, HE, I3, I2, I1, M2, D2, X2, E2, M1, D1, X1, E1.
  assert (Hin : inputs r2 = inputs r) by congruence.
  unfold inputs in Hin. injection Hin as -> -> _ _.
  repeat split; reflexivity.
Qed.

Lemma calculateVerdict_lists r :
  findings (calculateVerdict r) = findings r /\ inputs (calculateVerdict r) = inputs r.
Proof.
  unfold calculateVerdict.
  destruct (len (Matches r) + (len (Differences r) + len (MissingInPrototype r)
                               + len (ExtraInPrototype r)) =? 0); split; reflexivity.
Qed.

End Lists.

(** *** Which missing entries make the verdict critical *)

Lemma list_ascii_of_string_app s1 s2 :
  list_ascii_of_string (s1 ++ s2) = list_ascii_of_string s1 ++ list_ascii_of_string s2.
Proof.
  induction s1 as [|c s1 IH]; [reflexivity|].
  change (String c s1 ++ s2)%string with (String c (s1 ++ s2)).
  cbn. f_equal. exact IH.
Qed.

Lemma Contains_absent c rest s :
  Forall (fun d => d <> c) (list_ascii_of_string s) ->
  Contains s (String c rest) = false.
Proof.
  induction s as [|d s IH]; cbn; intros H; [reflexivity|].
  apply Forall_cons in H as [Hd Hs].
  destruct (ascii_dec c d) as [->|_]; [contradiction|]. cbn. now apply IH.
Qed.

Lemma string_of_uint_digits d :
  Forall (fun c => c <> "C"%char)
         (list_ascii_of_string (DecimalString.NilEmpty.string_of_uint d)).
Proof.
  induction d; cbn; constructor; first [discriminate | assumption].
Qed.

Lemma fmtDec_no_C n tail :
  Forall (fun c => c <> "C"%char) (list_ascii_of_string tail) ->
  Forall (fun c => c <> "C"%char) (list_ascii_of_string (fmtDec n ++ tail)).
Proof.
  intros Ht. rewrite list_ascii_of_string_app. apply Forall_app. split; [|assumption].
  unfold fmtDec, DecimalString.NilZero.string_of_int, DecimalString.NilZero.string_of_uint.
  destruct (Z.to_int n) as [d|d]; [|constructor; [discriminate|]];
    (destruct d; [repeat constructor; discriminate|..]; apply string_of_uint_digits).
Qed.

Lemma missing_entry_critical t n :
  Contains (fmtMissing t n) "Check IP Protocol" = bool_decide (t = CheckIP).
Proof.
  unfold fmtMissing.
  assert (Htail : Forall (fun c => c <> "C"%char)
                         (list_ascii_of_string (fmtDec n ++ " instructions)")))
    by (apply fmtDec_no_C; repeat constructor; discriminate).
  revert Htail. generalize (fmtDec n ++ " instructions)")%string. intros tail Htail.
  destruct t; cbv; first [reflexivity | exact (Contains_absent _ _ _ Htail)].
Qed.

Lemma extraEntry_empty_length (l : list (InstructionType * Z)) :
  length (omap (extraEntry ∅) l) = length l.
Proof.
  induction l as [|[t n] l IH]; [reflexivity|].
  change (omap (extraEntry ∅) ((t, n) :: l))
    with (match extraEntry ∅ (t, n) with
          | Some s => s :: omap (extraEntry ∅) l
          | None => omap (extraEntry ∅) l
          end).
  unfold extraEntry at 1. cbn [fst snd]. rewrite lookup_empty. cbn [length]. now rewrite IH.
Qed.

Section Verdict.
Variables rangeTcp rangeProto : gmap InstructionType Z -> list (InstructionType * Z).
Hypothesis HrangeTcp : visitsOnce rangeTcp.
Hypothesis HrangeProto : visitsOnce rangeProto.

(** A missing entry contains "Check IP Protocol" exactly when the
    ethertype check occurs in the reference program and not in the
    prototype. *)
Lemma critical_missing_entry tcpSem protoSem :
  existsb (fun missing => Contains missing "Check IP Protocol")
          (omap (missingEntry (countTypes protoSem)) (rangeTcp (countTypes tcpSem)))
  = hasInstructionType tcpSem CheckIP && negb (hasInstructionType protoSem CheckIP).
Proof.
  apply eq_true_iff_eq. rewrite existsb_exists, andb_true_iff, negb_true_iff. split.
  - intros (s & Hin & Hc). apply list_elem_of_In, list_elem_of_omap in Hin.
    destruct Hin as ([t n] & Hin & Hs). unfold missingEntry in Hs. cbn [fst snd] in Hs.
    destruct (countTypes protoSem !! t) eqn:Hp; [discriminate|]. injection Hs as <-.
    rewrite missing_entry_critical in Hc. apply bool_decide_eq_true in Hc. subst t.
    apply (range_elem _ HrangeTcp) in Hin. split.
    + destruct (hasInstructionType tcpSem CheckIP) eqn:E; [reflexivity|].
      apply countTypes_None in E. congruence.
    + now apply countTypes_None.
  - intros [Ht Hp]. apply countTypes_None in Hp.
    destruct (countTypes tcpSem !! CheckIP) as [n|] eqn:E.
    + exists (fmtMissing CheckIP n). split.
      * apply list_elem_of_In, list_elem_of_omap. exists (CheckIP, n). split.
        -- now apply (range_elem _ HrangeTcp).
        -- unfold missingEntry. cbn [fst snd]. now rewrite Hp.
      * rewrite missing_entry_critical. now apply bool_decide_eq_true.
    + apply countTypes_None in E. congruence.
Qed.

(** Something is always recorded: the two loops and the count note leave
    no pair of programs without a match, difference, missing or extra
    entry. *)
Lemma compareSemantics_records_something tcpI protoI r :
  TcpdumpSemantic r = analyzeTcpdumpSemantics tcpI ->
  PrototypeSemantic r = analyzePrototypeSemantics protoI ->
  tcpdump.Instructions (TcpdumpBPF r) = tcpI ->
  prototype.Instructions (PrototypeBPF r) = protoI ->
  let r' := compareSemantics rangeTcp rangeProto r in
  0 < len (Matches r') + (len (Differences r') + len (MissingInPrototype r')
                          + len (ExtraInPrototype r')).
Proof.
  intros Hts Hps Hti Hpi r'.
  destruct (compareSemantics_lists rangeTcp rangeProto r) as (HM & HD & HX & HE & _).
  fold r' in HM, HD, HX, HE. rewrite HM, HD, HX, HE. clear HM HD HX HE.
  rewrite Hti, Hpi, Hts, Hps. unfold len. rewrite !length_app.
  pose proof (findMatch_entries_length (countTypes (analyzePrototypeSemantics protoI))
                (rangeTcp (countTypes (analyzeTcpdumpSemantics tcpI)))) as Hsum.
  destruct (Z.eqb_spec (Z.of_nat (length tcpI)) (Z.of_nat (length protoI))) as [_|Hne].
  { cbn [length]. lia. }
  destruct tcpI as [|i tcpI].
  - (* only the prototype has instructions: each of its tags is extra *)
    assert (Hl : rangeProto (countTypes (analyzePrototypeSemantics protoI)) <> []).
    { rewrite (range_nil _ HrangeProto). apply countTypes_nonempty.
      intros E. apply (f_equal length) in E. unfold analyzePrototypeSemantics in E.
      rewrite analyzeFrom_length in E. destruct protoI; [now apply Hne|discriminate E]. }
    change (countTypes (analyzeTcpdumpSemantics [])) with (∅ : gmap InstructionType Z).
    rewrite extraEntry_empty_length.
    destruct (rangeProto (countTypes (analyzePrototypeSemantics protoI)));
      [contradiction|]. cbn [length]. lia.
  - assert (Hl : rangeTcp (countTypes (analyzeTcpdumpSemantics (i :: tcpI))) <> []).
    { rewrite (range_nil _ HrangeTcp). apply countTypes_nonempty.
      intros E. apply (f_equal length) in E. unfold analyzeTcpdumpSemantics in E.
      rewrite analyzeFrom_length in E. discriminate. }
    destruct (rangeTcp (countTypes (analyzeTcpdumpSemantics (i :: tcpI))));
      [contradiction|]. cbn [length] in Hsum. lia.
Qed.

End Verdict.

Lemma visitsOnce_map_to_list : visitsOnce map_to_list.
Proof. intros m. reflexivity. Qed.

Section Thresholds.
Variables rangeTcp rangeProto : gmap InstructionType Z -> list (InstructionType * Z).
Hypothesis HrangeTcp : visitsOnce rangeTcp.
Hypothesis HrangeProto : visitsOnce rangeProto.

(** [Compare] never takes the branch for an empty comparison. *)
Lemma Compare_never_inconclusive tcpBPF protoBPF :
  Verdict (Compare rangeTcp rangeProto tcpBPF protoBPF)
  <> "INCONCLUSIVE: No comparable instructions found".
Proof.
  unfold Compare, calculateVerdict.
  match goal with |- context [compareSemantics _ _ ?r0] => set (r0' := r0) end.
  pose proof (compareSemantics_records_something rangeTcp rangeProto HrangeTcp HrangeProto
                (tcpdump.Instructions tcpBPF) (prototype.Instructions protoBPF) r0'
                eq_refl eq_refl eq_refl eq_refl) as Hpos.
  cbn zeta in Hpos. set (r := compareSemantics rangeTcp rangeProto r0') in *.
  destruct (Z.eqb_spec (len (Matches r) + (len (Differences r) + len (MissingInPrototype r)
                                           + len (ExtraInPrototype r))) 0) as [E|_]; [lia|].
  cbn [Verdict setVerdict]. unfold thresholdVerdict.
  repeat match goal with
         | |- context [if ?c then _ else _] => destruct c
         end; discriminate.
Qed.

(** C6, as amended: the score is matches / (matches + differences +
    missing + extra), and the verdict is the verdict of the score's band:
    "EXCELLENT MATCH: ..." from 0.8, "GOOD MATCH: ..." from 0.6, "PARTIAL
    MATCH: ..." from 0.4, "POOR MATCH: ..." below; it is wrapped as
    "CRITICAL ISSUE: ... (Missing IP validation)" exactly when a missing
    entry contains "Check IP Protocol", the name of the ethertype check;
    that is the case exactly when the ethertype check occurs in the first
    program and not in the second.  An entry naming the protocol check
    ("Check Protocol") has no such effect. *)
Theorem verdict_is_threshold_with_ethertype_escalation
  (tcpBPF : tcpdump.BPFCode) (protoBPF : prototype.BPFCode) :
  let r := Compare rangeTcp rangeProto tcpBPF protoBPF in
  let total := len (Matches r) + (len (Differences r) + len (MissingInPrototype r)
                                  + len (ExtraInPrototype r)) in
  let critical := existsb (fun missing => Contains missing "Check IP Protocol")
                          (MissingInPrototype r) in
  Score r = PrimFloat.div (float64 (len (Matches r))) (float64 total)
  /\ InstructionType_String CheckIP = "Check IP Protocol"
  /\ InstructionType_String CheckProtocol = "Check Protocol"
  /\ critical = hasInstructionType (TcpdumpSemantic r) CheckIP
                && negb (hasInstructionType (PrototypeSemantic r) CheckIP)
  /\ exists verdict,
      Verdict r = (if critical
                   then ("CRITICAL ISSUE: " ++ verdict ++ " (Missing IP validation)")%string
                   else verdict)
      /\ ((PrimFloat.leb 0.8 (Score r) = true
           /\ verdict = "EXCELLENT MATCH: Prototype closely matches tcpdump behavior")
          \/ (PrimFloat.leb 0.8 (Score r) = false
              /\ PrimFloat.leb 0.6 (Score r) = true
              /\ verdict
                 = "GOOD MATCH: Prototype implements core functionality with some differences")
          \/ (PrimFloat.leb 0.8 (Score r) = false
              /\ PrimFloat.leb 0.6 (Score r) = false
              /\ PrimFloat.leb 0.4 (Score r) = true
              /\ verdict
                 = "PARTIAL MATCH: Prototype covers some functionality but has significant gaps")
          \/ (PrimFloat.leb 0.8 (Score r) = false
              /\ PrimFloat.leb 0.6 (Score r) = false
              /\ PrimFloat.leb 0.4 (Score r) = false
              /\ verdict = "POOR MATCH: Prototype differs significantly from tcpdump approach")).
Proof.
  unfold Compare.
  match goal with |- context [compareSemantics _ _ ?r0] => set (r0' := r0) end.
  pose proof (compareSemantics_records_something rangeTcp rangeProto HrangeTcp HrangeProto
                (tcpdump.Instructions tcpBPF) (prototype.Instructions protoBPF) r0'
                eq_refl eq_refl eq_refl eq_refl) as Hpos.
  destruct (compareSemantics_lists rangeTcp rangeProto r0') as (_ & _ & HX & _ & Hin).
  cbn zeta in Hpos, HX, Hin. set (r := compareSemantics rangeTcp rangeProto r0') in *.
  assert (Hcrit : existsb (fun missing => Contains missing "Check IP Protocol")
                          (MissingInPrototype r)
                  = hasInstructionType (TcpdumpSemantic r) CheckIP
                    && negb (hasInstructionType (PrototypeSemantic r) CheckIP)).
  { unfold inputs in Hin. injection Hin as _ _ -> ->. rewrite HX. cbn [app].
    apply critical_missing_entry. exact HrangeTcp. }
  unfold calculateVerdict.
  destruct (Z.eqb_spec (len (Matches r) + (len (Differences r) + len (MissingInPrototype r)
                                           + len (ExtraInPrototype r))) 0) as [E|_]; [lia|].
  cbn [Score Verdict Matches Differences MissingInPrototype ExtraInPrototype
       TcpdumpSemantic PrototypeSemantic setVerdict].
  split; [reflexivity|]. split; [reflexivity|]. split; [reflexivity|].
  split; [exact Hcrit|].
  set (score := PrimFloat.div _ _).
  exists (thresholdVerdict score). split; [reflexivity|].
  unfold thresholdVerdict.
  destruct (PrimFloat.leb 0.8 score); [left; split; reflexivity|].
  destruct (PrimFloat.leb 0.6 score); [right; left; repeat split; reflexivity|].
  destruct (PrimFloat.leb 0.4 score);
    [right; right; left|right; right; right]; repeat split; reflexivity.
Qed.

End Thresholds.

(** C6, counterexample: the reference program checks the protocol, the
    prototype only returns; a missing entry names the protocol check and
    the verdict stays the plain threshold verdict. *)
Lemma missing_protocol_check_not_critical :
  ~ verdictEscalatesOnEitherCheck
      (Compare map_to_list map_to_list protocolOnlyTcpdump returnsOnlyPrototype).
Proof.
  intros [H _]. vm_compute in H. specialize (H eq_refl). discriminate H.
Qed.

Lemma verdict_of_protocol_only_against_returns :
  let r := Compare map_to_list map_to_list protocolOnlyTcpdump returnsOnlyPrototype in
  let total := len (Matches r) + (len (Differences r) + len (MissingInPrototype r)
                                  + len (ExtraInPrototype r)) in
  let critical := existsb (fun missing => Contains missing "Check IP Protocol")
                          (MissingInPrototype r) in
  Score r = PrimFloat.div (float64 (len (Matches r))) (float64 total)
  /\ InstructionType_String CheckIP = "Check IP Protocol"
  /\ InstructionType_String CheckProtocol = "Check Protocol"
  /\ critical = hasInstructionType (TcpdumpSemantic r) CheckIP
                && negb (hasInstructionType (PrototypeSemantic r) CheckIP)
  /\ exists verdict,
      Verdict r = (if critical
                   then ("CRITICAL ISSUE: " ++ verdict ++ " (Missing IP validation)")%string
                   else verdict)
      /\ ((PrimFloat.leb 0.8 (Score r) = true
           /\ verdict = "EXCELLENT MATCH: Prototype closely matches tcpdump behavior")
          \/ (PrimFloat.leb 0.8 (Score r) = false
              /\ PrimFloat.leb 0.6 (Score r) = true
              /\ verdict
                 = "GOOD MATCH: Prototype implements core functionality with some differences")
          \/ (PrimFloat.leb 0.8 (Score r) = false
              /\ PrimFloat.leb 0.6 (Score r) = false
              /\ PrimFloat.leb 0.4 (Score r) = true
              /\ verdict
                 = "PARTIAL MATCH: Prototype covers some functionality but has significant gaps")
          \/ (PrimFloat.leb 0.8 (Score r) = false
              /\ PrimFloat.leb 0.6 (Score r) = false
              /\ PrimFloat.leb 0.4 (Score r) = false
              /\ verdict = "POOR MATCH: Prototype differs significantly from tcpdump approach")).
Proof.
  apply (verdict_is_threshold_with_ethertype_escalation map_to_list map_to_list);
    intros m; reflexivity.
Defined.

(** C5, at the failing input: two programs without instructions.  The
    count note is recorded as a match, so the score is 1 and the verdict
    "excellent"; the guard for an empty comparison is not reached. *)
Theorem compare_empty_programs_is_excellent :
  let r := Compare map_to_list map_to_list emptyTcpdump emptyPrototype in
  Matches r = ["Same instruction count"]
  /\ Differences r = [] /\ MissingInPrototype r = [] /\ ExtraInPrototype r = []
  /\ Score r = 1%float
  /\ Verdict r = "EXCELLENT MATCH: Prototype closely matches tcpdump behavior".
Proof. vm_compute. repeat split; reflexivity. Qed.

(** The guard itself: without any recorded entry [calculateVerdict] gives
    score 0 and the inconclusive verdict. *)
Lemma calculateVerdict_nothing_recorded r :
  Matches r = [] -> Differences r = [] -> MissingInPrototype r = [] ->
  ExtraInPrototype r = [] ->
  Score (calculateVerdict r) = 0%float
  /\ Verdict (calculateVerdict r) = "INCONCLUSIVE: No comparable instructions found".
Proof.
  intros HM HD HX HE. unfold calculateVerdict. rewrite HM, HD, HX, HE. cbn. split; reflexivity.
Qed.

(** *** Comparing a program with itself *)

Lemma float64_div_self n :
  1 <= n <= 19 -> PrimFloat.div (float64 n) (float64 n) = 1%float.
Proof.
  intros H. rewrite <- (Z2Nat.id n) by lia.
  assert (Hk : (1 <= Z.to_nat n <= 19)%nat) by lia.
  generalize dependent (Z.to_nat n). clear H. intros k [H1 H2].
  do 20 (destruct k as [|k]; [first [lia | vm_compute; reflexivity]|]). lia.
Qed.

Lemma entries_of_same_counts (m : gmap InstructionType Z) l :
  Forall (fun e => m !! e.1 = Some e.2) l ->
  omap (matchEntry m) l = map (fun e => fmtMatch e.1 e.2) l
  /\ omap (differenceEntry m) l = []
  /\ omap (missingEntry m) l = []
  /\ omap (extraEntry m) l = [].
Proof.
  induction 1 as [|[t n] l Ht _ (IHm & IHd & IHx & IHe)]; [repeat split; reflexivity|].
  cbn [fst snd] in Ht.
  change (omap (matchEntry m) ((t, n) :: l))
    with (match matchEntry m (t, n) with
          | Some s => s :: omap (matchEntry m) l | None => omap (matchEntry m) l end).
  change (omap (differenceEntry m) ((t, n) :: l))
    with (match differenceEntry m (t, n) with
          | Some s => s :: omap (differenceEntry m) l | None => omap (differenceEntry m) l end).
  change (omap (missingEntry m) ((t, n) :: l))
    with (match missingEntry m (t, n) with
          | Some s => s :: omap (missingEntry m) l | None => omap (missingEntry m) l end).
  change (omap (extraEntry m) ((t, n) :: l))
    with (match extraEntry m (t, n) with
          | Some s => s :: omap (extraEntry m) l | None => omap (extraEntry m) l end).
  unfold matchEntry at 1, differenceEntry at 1, missingEntry at 1, extraEntry at 1.
  cbn [fst snd]. rewrite Ht, Z.eqb_refl, IHm, IHd, IHx, IHe. repeat split; reflexivity.
Qed.

Lemma analyzeStructuralDifferences_same r :
  TcpdumpSemantic r = PrototypeSemantic r ->
  len (tcpdump.Instructions (TcpdumpBPF r)) = len (prototype.Instructions (PrototypeBPF r)) ->
  StructuralDiffs (analyzeStructuralDifferences r) = StructuralDiffs r.
Proof.
  intros Hs Hl. unfold analyzeStructuralDifferences. rewrite Hl, Z.eqb_refl. cbv zeta.
  change (TcpdumpSemantic (addMatch "Same instruction count" r)) with (TcpdumpSemantic r).
  change (PrototypeSemantic (addMatch "Same instruction count" r))
    with (PrototypeSemantic r).
  rewrite Hs, andb_negb_r.
  change (TcpdumpSemantic (addMatch "Same instruction count" r)) with (TcpdumpSemantic r).
  change (PrototypeSemantic (addMatch "Same instruction count" r))
    with (PrototypeSemantic r).
  rewrite Hs, andb_negb_r. reflexivity.
Qed.

Lemma sameInstructions_semantics tcpBPF protoBPF :
  sameInstructions tcpBPF protoBPF ->
  analyzeTcpdumpSemantics (tcpdump.Instructions tcpBPF)
  = analyzePrototypeSemantics (prototype.Instructions protoBPF)
  /\ len (tcpdump.Instructions tcpBPF) = len (prototype.Instructions protoBPF).
Proof.
  unfold sameInstructions. intros H. split.
  - apply (analyzeFrom_fields tcpdumpFields prototypeFields _ _ H).
  - unfold len. apply (f_equal length) in H. rewrite !length_map in H. now rewrite H.
Qed.

(** The reference counts, tag by tag. *)
Lemma analyzeInstruction_tag_at_any_position code jt jf k idx idx' :
  Type_ (analyzeInstruction code jt jf k idx) = Type_ (analyzeInstruction code jt jf k idx').
Proof.
  unfold analyzeInstruction, semantic.
  repeat match goal with |- context [if ?c then _ else _] => destruct c end; reflexivity.
Qed.

Lemma foldl_increment_lookup sems : forall m t,
  foldl (fun m sem => increment m (Type_ sem)) m sems !! t
  = let c := len (filter (fun sem => Type_ sem = t) sems) in
    if c =? 0 then m !! t else Some (default 0 (m !! t) + c).
Proof.
  induction sems as [|sem sems IH]; intros m t; [reflexivity|].
  cbn [foldl]. rewrite IH. cbn zeta. rewrite filter_cons, increment_lookup.
  unfold len.
  destruct (decide (Type_ sem = t)) as [->|Hne]; cbn [length].
  - destruct (Z.eqb_spec (Z.of_nat (length (filter (fun sem => Type_ sem = t) sems))) 0)
      as [E|E];
      (destruct (Z.eqb_spec (Z.of_nat (S (length (filter (fun sem => Type_ sem = t) sems)))) 0);
       [lia|]); cbn [default]; unfold id; f_equal; lia.
  - reflexivity.
Qed.

Lemma countTypes_lookup sems t :
  countTypes sems !! t
  = let c := len (filter (fun sem => Type_ sem = t) sems) in
    if c =? 0 then None else Some c.
Proof.
  unfold countTypes. rewrite foldl_increment_lookup, lookup_empty. cbn zeta.
  destruct (_ =? 0); [reflexivity|]. cbn [default]. f_equal.
Qed.

Lemma analyzeTcpdumpSemantics_tagCount t prog :
  len (filter (fun sem => Type_ sem = t) (analyzeTcpdumpSemantics prog)) = tagCount t prog.
Proof.
  unfold analyzeTcpdumpSemantics, tagCount, len. f_equal. generalize 0.
  induction prog as [|inst prog IH]; intros start; [reflexivity|].
  cbn [analyzeFrom]. rewrite !filter_cons.
  rewrite (analyzeInstruction_tag_at_any_position _ _ _ _ start 0).
  fold (tagOf inst). destruct (decide (tagOf inst = t)); cbn [length]; now rewrite IH.
Qed.

Section Identical.
Variables rangeTcp rangeProto : gmap InstructionType Z -> list (InstructionType * Z).
Hypothesis HrangeTcp : visitsOnce rangeTcp.
Hypothesis HrangeProto : visitsOnce rangeProto.

(** The entries of the reference counts: one per purpose tag that occurs in
    the program, with the number of instructions that carry it. *)
Lemma range_countTypes_tags prog :
  let m := countTypes (analyzeTcpdumpSemantics prog) in
  let tags := map fst (rangeTcp m) in
  rangeTcp m = map (fun t => (t, tagCount t prog)) tags
  /\ NoDup tags
  /\ forall t, t ∈ tags <-> 0 < tagCount t prog.
Proof.
  cbn zeta. set (m := countTypes (analyzeTcpdumpSemantics prog)).
  assert (Hm : forall t n, m !! t = Some n <-> 0 < tagCount t prog /\ n = tagCount t prog).
  { intros t n. unfold m. rewrite countTypes_lookup. cbn zeta.
    rewrite analyzeTcpdumpSemantics_tagCount.
    assert (0 <= tagCount t prog) by (unfold tagCount, len; lia).
    destruct (Z.eqb_spec (tagCount t prog) 0); split; intros Hn.
    - discriminate.
    - lia.
    - injection Hn as <-. lia.
    - destruct Hn as [_ ->]. reflexivity. }
  split; [|split].
  - rewrite map_map. rewrite <- (map_id (rangeTcp m)) at 1.
    apply map_ext_in. intros [t n] Hin. cbn [fst]. f_equal.
    apply list_elem_of_In, (range_elem _ HrangeTcp), Hm in Hin. tauto.
  - rewrite (HrangeTcp m). apply NoDup_fst_map_to_list.
  - intros t. rewrite list_elem_of_fmap. split.
    + intros ([t' n] & -> & Hin). apply (range_elem _ HrangeTcp), Hm in Hin. tauto.
    + intros Hpos. exists (t, tagCount t prog). split; [reflexivity|].
      apply (range_elem _ HrangeTcp), Hm. tauto.
Qed.

(** With identical instructions every entry of the reference counts is
    recorded as a match, and nothing else is recorded but the count note. *)
Lemma identical_instruction_lists_result
  (tcpBPF : tcpdump.BPFCode) (protoBPF : prototype.BPFCode) :
  sameInstructions tcpBPF protoBPF ->
  let r := Compare rangeTcp rangeProto tcpBPF protoBPF in
  Score r = 1%float
  /\ Verdict r = "EXCELLENT MATCH: Prototype closely matches tcpdump behavior"
  /\ MissingInPrototype r = []
  /\ ExtraInPrototype r = []
  /\ StructuralDiffs r = []
  /\ Differences r = []
  /\ Matches r
     = map (fun e => fmtMatch e.1 e.2)
           (rangeTcp (countTypes (analyzeTcpdumpSemantics (tcpdump.Instructions tcpBPF))))
       ++ ["Same instruction count"].
Proof.
  intros Hsame. destruct (sameInstructions_semantics _ _ Hsame) as [Hsem Hlen].
  unfold Compare.
  match goal with |- context [compareSemantics _ _ ?r0] => set (r0' := r0) end.
  destruct (compareSemantics_lists rangeTcp rangeProto r0') as (HM & HD & HX & HE & Hin).
  assert (HS : StructuralDiffs (compareSemantics rangeTcp rangeProto r0') = []).
  { unfold compareSemantics.
    match goal with |- context [analyzeStructuralDifferences ?x] => set (r2 := x) end.
    destruct (findMatch_loop (countTypes (PrototypeSemantic r0'))
                (rangeTcp (countTypes (TcpdumpSemantic r0'))) r0') as [F1 I1].
    destruct (findExtra_loop (countTypes (TcpdumpSemantic r0'))
                (rangeProto (countTypes (PrototypeSemantic r0')))
                (foldl (findMatch (countTypes (PrototypeSemantic r0'))) r0'
                       (rangeTcp (countTypes (TcpdumpSemantic r0'))))) as [F2 I2].
    cbn zeta in F1, I1, F2, I2. fold r2 in F2, I2.
    assert (I : inputs r2 = inputs r0') by congruence.
    unfold inputs in I. injection I as It Ip Its Ips.
    rewrite analyzeStructuralDifferences_same.
    - unfold findings in F1, F2. injection F2 as _ _ _ _ ->. injection F1 as _ _ _ _ ->.
      reflexivity.
    - rewrite Its, Ips. exact Hsem.
    - rewrite It, Ip. exact Hlen. }
  cbn zeta in HM, HD, HX, HE, Hin.
  set (r := compareSemantics rangeTcp rangeProto r0') in *.
  change (TcpdumpSemantic r0') with (analyzeTcpdumpSemantics (tcpdump.Instructions tcpBPF))
    in HM, HD, HX, HE.
  change (PrototypeSemantic r0')
    with (analyzePrototypeSemantics (prototype.Instructions protoBPF)) in HM, HD, HX, HE.
  change (tcpdump.Instructions (TcpdumpBPF r0')) with (tcpdump.Instructions tcpBPF) in HM.
  change (prototype.Instructions (PrototypeBPF r0'))
    with (prototype.Instructions protoBPF) in HM.
  change (Matches r0') with (@nil string) in HM.
  change (Differences r0') with (@nil string) in HD.
  change (MissingInPrototype r0') with (@nil string) in HX.
  change (ExtraInPrototype r0') with (@nil string) in HE.
  rewrite <- Hsem in HM, HD, HX, HE. rewrite Hlen, Z.eqb_refl in HM.
  set (m := countTypes (analyzeTcpdumpSemantics (tcpdump.Instructions tcpBPF))) in *.
  destruct (entries_of_same_counts m (rangeTcp m)) as (Em & Ed & Ex & _).
  { apply Forall_forall. intros [t n] Hin'. now apply (range_elem _ HrangeTcp). }
  destruct (entries_of_same_counts m (rangeProto m)) as (_ & _ & _ & Ee).
  { apply Forall_forall. intros [t n] Hin'. now apply (range_elem _ HrangeProto). }
  rewrite Em in HM. rewrite Ed in HD. rewrite Ex in HX. rewrite Ee in HE.
  cbn [app] in HM, HD, HX, HE.
  destruct (calculateVerdict_lists r) as [F _]. unfold findings in F.
  injection F as -> -> -> -> ->. fold m.
  rewrite HM, HD, HX, HE, HS.
  unfold calculateVerdict. rewrite HM, HD, HX, HE.
  pose proof (range_length_bound _ HrangeTcp m) as Hbound.
  set (n := len (map (fun e => fmtMatch e.1 e.2) (rangeTcp m) ++ ["Same instruction count"])).
  assert (Hn : 1 <= n <= 19).
  { unfold n, len. rewrite length_app, length_map. cbn [length]. lia. }
  change (len []) with 0. rewrite !Z.add_0_r.
  destruct (Z.eqb_spec n 0) as [E|_]; [lia|].
  cbn [Score Verdict setVerdict existsb]. rewrite (float64_div_self n Hn).
  repeat split; reflexivity.
Qed.

(** C7: a program compared with a program of identical instructions
    scores exactly 1.0 with the verdict "excellent"; nothing is missing,
    extra, different or structurally different, and the matches are one
    entry "Both implement <name> (<n> instructions)" for each purpose tag
    that occurs in the program, [n] being the number of instructions that
    carry the tag, followed by the count note. *)
Theorem compare_identical_instruction_lists
  (tcpBPF : tcpdump.BPFCode) (protoBPF : prototype.BPFCode) :
  sameInstructions tcpBPF protoBPF ->
  let r := Compare rangeTcp rangeProto tcpBPF protoBPF in
  let prog := tcpdump.Instructions tcpBPF in
  Score r = 1%float
  /\ Verdict r = "EXCELLENT MATCH: Prototype closely matches tcpdump behavior"
  /\ MissingInPrototype r = []
  /\ ExtraInPrototype r = []
  /\ StructuralDiffs r = []
  /\ Differences r = []
  /\ exists tags,
      Matches r
      = map (fun t => ("Both implement " ++ InstructionType_String t ++ " ("
                       ++ fmtDec (tagCount t prog) ++ " instructions)")%string) tags
        ++ ["Same instruction count"]
      /\ NoDup tags
      /\ forall t, t ∈ tags <-> 0 < tagCount t prog.
Proof.
  intros Hsame.
  destruct (identical_instruction_lists_result tcpBPF protoBPF Hsame)
    as (HS & HV & HX & HE & HD & HF & HM).
  cbn zeta in *. repeat (split; [assumption|]).
  destruct (range_countTypes_tags (tcpdump.Instructions tcpBPF)) as (Hrange & Hnodup & Htags).
  cbn zeta in *.
  exists (map fst (rangeTcp (countTypes (analyzeTcpdumpSemantics
                                         (tcpdump.Instructions tcpBPF))))).
  split; [|split; assumption].
  rewrite HM. f_equal. rewrite Hrange at 1. rewrite map_map. reflexivity.
Qed.

End Identical.

Lemma compare_protocol_only_with_itself :
  let r := Compare map_to_list map_to_list protocolOnlyTcpdump protocolOnlyPrototype in
  let prog := tcpdump.Instructions protocolOnlyTcpdump in
  Score r = 1%float
  /\ Verdict r = "EXCELLENT MATCH: Prototype closely matches tcpdump behavior"
  /\ MissingInPrototype r = []
  /\ ExtraInPrototype r = []
  /\ StructuralDiffs r = []
  /\ Differences r = []
  /\ exists tags,
      Matches r
      = map (fun t => ("Both implement " ++ InstructionType_String t ++ " ("
                       ++ fmtDec (tagCount t prog) ++ " instructions)")%string) tags
        ++ ["Same instruction count"]
      /\ NoDup tags
      /\ forall t, t ∈ tags <-> 0 < tagCount t prog.
Proof.
  apply (compare_identical_instruction_lists map_to_list map_to_list);
    [intros m; reflexivity | intros m; reflexivity | reflexivity].
Defined.

(** *** Tags the classifier never returns *)

Lemma analyzeInstruction_never_source_port_or_dest_ip code jt jf k idx :
  Type_ (analyzeInstruction code jt jf k idx) <> CheckSourcePort
  /\ Type_ (analyzeInstruction code jt jf k idx) <> CheckDestIP.
Proof.
  pose proof (analyzeInstruction_tags code jt jf k idx) as H. cbn in H.
  split; intros E; rewrite E in H; intuition discriminate.
Qed.

Lemma countTypes_key_classified {I} (fields : I -> Z * Z * Z * Z) l start t n :
  countTypes (analyzeFrom fields start l) !! t = Some n ->
  t <> CheckSourcePort /\ t <> CheckDestIP.
Proof.
  intros H.
  destruct (hasInstructionType (analyzeFrom fields start l) t) eqn:E.
  - apply analyzeFrom_has_tag in E as (code & jt & jf & k & idx & ->).
    apply analyzeInstruction_never_source_port_or_dest_ip.
  - apply countTypes_None in E. congruence.
Qed.

Ltac entry_tag H u :=
  destruct u; try reflexivity; exfalso; cbv -[fmtDec] in H; discriminate H.

Lemma fmtMatch_tag t u n n' :
  t = CheckSourcePort \/ t = CheckDestIP -> fmtMatch u n' = fmtMatch t n -> u = t.
Proof. intros [-> | ->] H; entry_tag H u. Qed.

Lemma fmtDifference_tag t u n n' m m' :
  t = CheckSourcePort \/ t = CheckDestIP ->
  fmtDifference u n' m' = fmtDifference t n m -> u = t.
Proof. intros [-> | ->] H; entry_tag H u. Qed.

Lemma fmtMissing_tag t u n n' :
  t = CheckSourcePort \/ t = CheckDestIP -> fmtMissing u n' = fmtMissing t n -> u = t.
Proof. intros [-> | ->] H; entry_tag H u. Qed.

Lemma fmtExtra_tag t u n n' :
  t = CheckSourcePort \/ t = CheckDestIP -> fmtExtra u n' = fmtExtra t n -> u = t.
Proof. intros [-> | ->] H; entry_tag H u. Qed.

Section Unreachable.
Variables rangeTcp rangeProto : gmap InstructionType Z -> list (InstructionType * Z).
Hypothesis HrangeTcp : visitsOnce rangeTcp.
Hypothesis HrangeProto : visitsOnce rangeProto.

(** C10: the classifier returns neither the source-port-check tag nor the
    destination-address-check tag, whatever its input; hence no comparison
    records a match, a difference, a missing or an extra entry for either
    of them. *)
Theorem source_port_and_dest_ip_checks_unreachable :
  (forall code jt jf k idx,
      Type_ (analyzeInstruction code jt jf k idx) <> CheckSourcePort
      /\ Type_ (analyzeInstruction code jt jf k idx) <> CheckDestIP)
  /\ forall (tcpBPF : tcpdump.BPFCode) (protoBPF : prototype.BPFCode) t,
       t = CheckSourcePort \/ t = CheckDestIP ->
       let r := Compare rangeTcp rangeProto tcpBPF protoBPF in
       hasInstructionType (TcpdumpSemantic r) t = false
       /\ hasInstructionType (PrototypeSemantic r) t = false
       /\ forall n m,
            ~ In (fmtMatch t n) (Matches r)
            /\ ~ In (fmtDifference t n m) (Differences r)
            /\ ~ In (fmtMissing t n) (MissingInPrototype r)
            /\ ~ In (fmtExtra t n) (ExtraInPrototype r).
Proof.
  split; [exact analyzeInstruction_never_source_port_or_dest_ip|].
  intros tcpBPF protoBPF t Ht. unfold Compare.
  match goal with |- context [compareSemantics _ _ ?r0] => set (r0' := r0) end.
  destruct (compareSemantics_lists rangeTcp rangeProto r0') as (HM & HD & HX & HE & Hin).
  cbn zeta in HM, HD, HX, HE, Hin.
  set (r := compareSemantics rangeTcp rangeProto r0') in *.
  destruct (calculateVerdict_lists r) as [F I]. unfold findings in F. unfold inputs in I, Hin.
  injection F as -> -> -> -> _. injection I as _ _ -> ->. injection Hin as _ _ Hts Hps.
  rewrite Hts, Hps, HM, HD, HX, HE. clear HM HD HX HE Hts Hps.
  change (TcpdumpSemantic r0') with (analyzeTcpdumpSemantics (tcpdump.Instructions tcpBPF)).
  change (PrototypeSemantic r0')
    with (analyzePrototypeSemantics (prototype.Instructions protoBPF)).
  cbn [Matches Differences MissingInPrototype ExtraInPrototype r0' app].
  set (tcpTypes := countTypes (analyzeTcpdumpSemantics (tcpdump.Instructions tcpBPF))).
  set (protoTypes := countTypes (analyzePrototypeSemantics (prototype.Instructions protoBPF))).
  assert (Htcp : forall n, tcpTypes !! t <> Some n).
  { intros n E. apply countTypes_key_classified in E. destruct Ht; subst t; tauto. }
  assert (Hproto : forall n, protoTypes !! t <> Some n).
  { intros n E. apply countTypes_key_classified in E. destruct Ht; subst t; tauto. }
  split; [|split].
  - apply countTypes_None. fold tcpTypes.
    destruct (tcpTypes !! t) as [z|] eqn:E; [exfalso|reflexivity]. now apply (Htcp z).
  - apply countTypes_None. fold protoTypes.
    destruct (protoTypes !! t) as [z|] eqn:E; [exfalso|reflexivity]. now apply (Hproto z).
  - intros n m. repeat split.
    + intros H. apply in_app_or in H as [H|H].
      * apply list_elem_of_In, list_elem_of_omap in H as ([u n'] & Hu & Hs).
        apply (range_elem _ HrangeTcp) in Hu. unfold matchEntry in Hs. cbn [fst snd] in Hs.
        destruct (protoTypes !! u); [|discriminate]. destruct (n' =? z); [|discriminate].
        apply (inj Some) in Hs. apply (fmtMatch_tag _ _ _ _ Ht) in Hs. subst u.
        now apply Htcp in Hu.
      * destruct (len (tcpdump.Instructions (TcpdumpBPF r0'))
                  =? len (prototype.Instructions (PrototypeBPF r0'))); [|destruct H].
        destruct H as [H|[]]. destruct Ht; subst t; cbv -[fmtDec] in H; discriminate H.
    + intros H. apply list_elem_of_In, list_elem_of_omap in H as ([u n'] & Hu & Hs).
      apply (range_elem _ HrangeTcp) in Hu. unfold differenceEntry in Hs. cbn [fst snd] in Hs.
      destruct (protoTypes !! u); [|discriminate]. destruct (n' =? z); [discriminate|].
      apply (inj Some) in Hs. apply (fmtDifference_tag _ _ _ _ _ _ Ht) in Hs. subst u.
      now apply Htcp in Hu.
    + intros H. apply list_elem_of_In, list_elem_of_omap in H as ([u n'] & Hu & Hs).
      apply (range_elem _ HrangeTcp) in Hu. unfold missingEntry in Hs. cbn [fst snd] in Hs.
      destruct (protoTypes !! u); [discriminate|].
      apply (inj Some) in Hs. apply (fmtMissing_tag _ _ _ _ Ht) in Hs. subst u.
      now apply Htcp in Hu.
    + intros H. apply list_elem_of_In, list_elem_of_omap in H as ([u n'] & Hu & Hs).
      apply (range_elem _ HrangeProto) in Hu. unfold extraEntry in Hs. cbn [fst snd] in Hs.
      destruct (tcpTypes !! u); [discriminate|].
      apply (inj Some) in Hs. apply (fmtExtra_tag _ _ _ _ Ht) in Hs. subst u.
      now apply Hproto in Hu.
Qed.

End Unreachable.

Lemma source_port_and_dest_ip_checks_unreachable_map_to_list :
  (forall code jt jf k idx,
      Type_ (analyzeInstruction code jt jf k idx) <> CheckSourcePort
      /\ Type_ (analyzeInstruction code jt jf k idx) <> CheckDestIP)
  /\ forall (tcpBPF : tcpdump.BPFCode) (protoBPF : prototype.BPFCode) t,
       t = CheckSourcePort \/ t = CheckDestIP ->
       let r := Compare map_to_list map_to_list tcpBPF protoBPF in
       hasInstructionType (TcpdumpSemantic r) t = false
       /\ hasInstructionType (PrototypeSemantic r) t = false
       /\ forall n m,
            ~ In (fmtMatch t n) (Matches r)
            /\ ~ In (fmtDifference t n m) (Differences r)
            /\ ~ In (fmtMissing t n) (MissingInPrototype r)
            /\ ~ In (fmtExtra t n) (ExtraInPrototype r).
Proof.
  apply (source_port_and_dest_ip_checks_unreachable map_to_list map_to_list);
    intros m; reflexivity.
Defined.

(** * Further properties *)

(** ** Builder states *)

Lemma reachable_invariant (b : BPFBuilder) : reachable b -> wellFormed b.
Proof.
  induction 1 as [|code jt jf k b off b' _ [IHa IHo] Hadd
                  |description b b' _ [IHa IHo] Hnote
                  |idx jt jf b b' _ [IHa IHo] Hupd].
  - split; [apply NewBPFBuilder_aliasFree|reflexivity].
  - destruct (AddInstruction_spec code jt jf k b IHa) as (b1 & E & Ha & _).
    rewrite E in Hadd. injection Hadd as _ <-. split; [assumption|].
    unfold AddInstruction in E. injection E as <-. cbn.
    unfold len. rewrite IHo, length_app. cbn. unfold len. lia.
  - injection Hnote as <-. split; assumption.
  - destruct (Z_lt_le_dec idx 0) as [Hneg|Hpos].
    + rewrite UpdateJumpTargets_negative in Hupd by assumption. discriminate.
    + destruct (Z_lt_le_dec idx (len (instructions b))) as [Hin|Hout].
      * destruct (UpdateJumpTargets_in_range idx jt jf b IHa (conj Hpos Hin))
          as (inst & b1 & _ & E & _ & Ha & Hi & _ & Ho).
        rewrite E in Hupd. injection Hupd as <-. split; [assumption|]. now rewrite Ho, Hi.
      * rewrite UpdateJumpTargets_past_end in Hupd by assumption.
        injection Hupd as <-. split; assumption.
Qed.

(** X1: every builder state reached from [NewBPFBuilder] through
    [AddInstruction], [AddOptimization] and [UpdateJumpTargets] holds
    pairwise distinct, allocated instruction pointers, and its offset
    counter equals the number of instructions. *)
Theorem reachable_builder_well_formed (b : BPFBuilder) :
  reachable b -> NoDup (instructions b)
                 /\ Forall (fun p => (p < length (store b))%nat) (instructions b)
                 /\ currentOffset b = len (instructions b)
                 /\ len (Build b) = len (instructions b).
Proof.
  intros Hr. destruct (reachable_invariant b Hr) as [[Hnd Hall] Ho].
  repeat split; try assumption. unfold len. f_equal. now apply deref_length.
Qed.

Lemma reachable_after_one_instruction :
  reachable (snd (default (0, NewBPFBuilder) (AddInstruction 0x28 0 0 12 NewBPFBuilder))).
Proof. eapply reachable_add; [apply reachable_new|reflexivity]. Qed.

Lemma builder_well_formed_after_one_instruction :
  let b := snd (default (0, NewBPFBuilder) (AddInstruction 0x28 0 0 12 NewBPFBuilder)) in
  NoDup (instructions b)
  /\ Forall (fun p => (p < length (store b))%nat) (instructions b)
  /\ currentOffset b = len (instructions b)
  /\ len (Build b) = len (instructions b).
Proof.
  apply (reachable_builder_well_formed _ reachable_after_one_instruction).
Defined.

(** X2: on such a state [AddInstruction] returns the number of
    instructions held so far, appends the new instruction with the given
    fields, and the returned number is the position at which the program
    then holds it. *)
Theorem AddInstruction_returns_position (code jt jf k : Z) (b : BPFBuilder) :
  reachable b ->
  exists b',
    AddInstruction code jt jf k b = Some (len (Build b), b')
    /\ Build b' = Build b ++ [{| Code := code; JT := jt; JF := jf; K := k |}]
    /\ index (Build b') (len (Build b))
       = Some {| Code := code; JT := jt; JF := jf; K := k |}
    /\ optimizations b' = optimizations b.
Proof.
  intros Hr. destruct (reachable_invariant b Hr) as [Ha Ho].
  destruct (AddInstruction_spec code jt jf k b Ha) as (b' & E & _ & HB & _ & Hopt).
  exists b'. unfold len at 1 2. rewrite (Build_length b Ha). fold (len (instructions b)).
  rewrite <- Ho. repeat split; try assumption.
  rewrite HB. unfold index. rewrite Ho. unfold len.
  destruct (Z.ltb_spec (Z.of_nat (length (instructions b))) 0); [lia|].
  rewrite Nat2Z.id, <- (Build_length b Ha). apply list_lookup_middle. reflexivity.
Qed.

Lemma AddInstruction_returns_position_second :
  exists b',
    AddInstruction 0x15 0 0 0x800
      (snd (default (0, NewBPFBuilder) (AddInstruction 0x28 0 0 12 NewBPFBuilder)))
    = Some (len (Build (snd (default (0, NewBPFBuilder)
                                     (AddInstruction 0x28 0 0 12 NewBPFBuilder)))), b')
    /\ Build b'
       = Build (snd (default (0, NewBPFBuilder) (AddInstruction 0x28 0 0 12 NewBPFBuilder)))
         ++ [{| Code := 0x15; JT := 0; JF := 0; K := 0x800 |}]
    /\ index (Build b')
             (len (Build (snd (default (0, NewBPFBuilder)
                                       (AddInstruction 0x28 0 0 12 NewBPFBuilder)))))
       = Some {| Code := 0x15; JT := 0; JF := 0; K := 0x800 |}
    /\ optimizations b'
       = optimizations (snd (default (0, NewBPFBuilder)
                                     (AddInstruction 0x28 0 0 12 NewBPFBuilder))).
Proof.
  apply (AddInstruction_returns_position 0x15 0 0 0x800 _ reachable_after_one_instruction).
Defined.

(** X3: on such a state [UpdateJumpTargets] with a non-negative position
    returns, and leaves the number of instructions, every opcode, every
    immediate and the optimization notes as they were. *)
Theorem UpdateJumpTargets_keeps_opcodes_and_immediates (idx jt jf : Z) (b : BPFBuilder) :
  reachable b -> 0 <= idx ->
  exists b',
    UpdateJumpTargets idx jt jf b = Some (tt, b')
    /\ map Code (Build b') = map Code (Build b)
    /\ map K (Build b') = map K (Build b)
    /\ length (Build b') = length (Build b)
    /\ optimizations b' = optimizations b.
Proof.
  intros Hr Hpos. destruct (reachable_invariant b Hr) as [Ha _].
  destruct (Z_lt_le_dec idx (len (instructions b))) as [Hin|Hout].
  - destruct (UpdateJumpTargets_in_range idx jt jf b Ha (conj Hpos Hin))
      as (inst & b' & Hl & E & HB & _ & _ & Hopt & _).
    exists b'. rewrite HB, length_insert. repeat split; try assumption.
    + rewrite list_fmap_insert. cbn. apply list_insert_id. now rewrite list_lookup_fmap, Hl.
    + rewrite list_fmap_insert. cbn. apply list_insert_id. now rewrite list_lookup_fmap, Hl.
  - exists b. rewrite UpdateJumpTargets_past_end by assumption. repeat split.
Qed.

Lemma UpdateJumpTargets_keeps_opcodes_first_instruction :
  exists b',
    UpdateJumpTargets 0 3 4
      (snd (default (0, NewBPFBuilder) (AddInstruction 0x28 0 0 12 NewBPFBuilder)))
    = Some (tt, b')
    /\ map Code (Build b')
       = map Code (Build (snd (default (0, NewBPFBuilder)
                                       (AddInstruction 0x28 0 0 12 NewBPFBuilder))))
    /\ map K (Build b')
       = map K (Build (snd (default (0, NewBPFBuilder)
                                    (AddInstruction 0x28 0 0 12 NewBPFBuilder))))
    /\ length (Build b')
       = length (Build (snd (default (0, NewBPFBuilder)
                                     (AddInstruction 0x28 0 0 12 NewBPFBuilder))))
    /\ optimizations b'
       = optimizations (snd (default (0, NewBPFBuilder)
                                     (AddInstruction 0x28 0 0 12 NewBPFBuilder))).
Proof.
  apply (UpdateJumpTargets_keeps_opcodes_and_immediates 0 3 4 _
           reachable_after_one_instruction).
  lia.
Defined.

(** X4: patching the same position twice leaves what the second patch
    alone leaves, on every builder state and for every position. *)
Theorem UpdateJumpTargets_last_write_wins (idx jt jf jt' jf' : Z) (b : BPFBuilder) :
  (UpdateJumpTargets idx jt jf ;;; UpdateJumpTargets idx jt' jf') b
  = UpdateJumpTargets idx jt' jf' b.
Proof.
  unfold bind, UpdateJumpTargets.
  destruct (idx <? len (instructions b)) eqn:Hlt; [|cbn; now rewrite Hlt].
  destruct (index (instructions b) idx) as [p|] eqn:Hp; [|reflexivity].
  destruct (store b !! p) as [inst|] eqn:Hinst; [|reflexivity].
  cbn. rewrite Hlt, Hp.
  rewrite list_lookup_insert_eq by (eapply lookup_lt_Some; eassumption).
  rewrite list_insert_insert_eq. reflexivity.
Qed.

(** X5: on an alias-free builder, patches at two different positions can
    be applied in either order. *)
Theorem UpdateJumpTargets_commute (i j jt jf jt' jf' : Z) (b : BPFBuilder) :
  aliasFree b -> i <> j ->
  (UpdateJumpTargets i jt jf ;;; UpdateJumpTargets j jt' jf') b
  = (UpdateJumpTargets j jt' jf' ;;; UpdateJumpTargets i jt jf) b.
Proof.
  intros [Hnd Hall] Hij. unfold bind, UpdateJumpTargets.
  destruct (i <? len (instructions b)) eqn:Hi, (j <? len (instructions b)) eqn:Hj;
    cbn; rewrite ?Hi, ?Hj; try reflexivity.
  - destruct (index (instructions b) i) as [p|] eqn:Hp;
      destruct (index (instructions b) j) as [q|] eqn:Hq; cbn; rewrite ?Hi, ?Hj, ?Hp, ?Hq;
      try reflexivity.
    + assert (Hpq : p <> q).
      { unfold index in Hp, Hq.
        destruct (i <? 0) eqn:Hi0; [discriminate|]. destruct (j <? 0) eqn:Hj0; [discriminate|].
        intros ->. apply Hij.
        pose proof (NoDup_lookup _ _ _ _ Hnd Hp Hq). lia. }
      destruct (store b !! p) as [x|] eqn:Hx; destruct (store b !! q) as [y|] eqn:Hy;
        cbn; rewrite ?Hi, ?Hj, ?Hp, ?Hq;
        rewrite ?list_lookup_insert_ne by congruence; rewrite ?Hx, ?Hy; try reflexivity.
      rewrite list_insert_insert_ne by congruence. reflexivity.
    + destruct (store b !! p) as [x|]; cbn; rewrite ?Hj, ?Hq; reflexivity.
    + destruct (store b !! q) as [y|]; cbn; rewrite ?Hi, ?Hp; reflexivity.
  - destruct (index (instructions b) i) as [p|]; [|reflexivity].
    destruct (store b !! p); cbn; rewrite ?Hj; reflexivity.
  - destruct (index (instructions b) j) as [q|]; [|reflexivity].
    destruct (store b !! q); cbn; rewrite ?Hi; reflexivity.
Qed.

Lemma reachable_after_two_instructions :
  reachable (snd (default (0, NewBPFBuilder)
                          ((AddInstruction 0x28 0 0 12 ;;; AddInstruction 0x15 0 0 0x800)
                             NewBPFBuilder))).
Proof.
  eapply reachable_add; [eapply reachable_add; [apply reachable_new|reflexivity]|reflexivity].
Qed.

Lemma UpdateJumpTargets_commute_first_two :
  let b := snd (default (0, NewBPFBuilder)
                        ((AddInstruction 0x28 0 0 12 ;;; AddInstruction 0x15 0 0 0x800)
                           NewBPFBuilder)) in
  (UpdateJumpTargets 0 1 2 ;;; UpdateJumpTargets 1 3 4) b
  = (UpdateJumpTargets 1 3 4 ;;; UpdateJumpTargets 0 1 2) b.
Proof.
  apply UpdateJumpTargets_commute;
    [exact (proj1 (reachable_invariant _ reachable_after_two_instructions))|lia].
Defined.

(** ** The generated program *)

(** X6: the generator returns for every filter; the program has two
    instructions for the ethertype gate, two per present protocol and
    address, three plus two per port when a port is set, and the terminal
    pair: between 4 and 17 in all, and [InstructionCount] is that number. *)
Theorem generated_program_length (f : PacketFilter) :
  exists code,
    GenerateBPF f = Some code
    /\ InstructionCount code = len (Instructions code)
    /\ len (Instructions code)
       = 4 + (if String.eqb (Protocol f) "" then 0 else 2)
           + (if String.eqb (SrcIP f) "" then 0 else 2)
           + (if String.eqb (DstIP f) "" then 0 else 2)
           + (if portsSet f then 3 else 0)
           + (if SrcPort f =? 0 then 0 else 2)
           + (if DstPort f =? 0 then 0 else 2)
    /\ 4 <= len (Instructions code) <= 17.
Proof.
  unfold portsSet. filter_shape f.
  all: run_generator.
  all: eexists; split; [reflexivity|]; run_generator; repeat split; first [reflexivity | lia].
Qed.

(** X7: the fragment-information load, the fragment check and the
    header-length load are emitted exactly when a port is set, once each,
    and one indexed port load per port that is set; without ports the
    program holds none of them. *)
Theorem port_gate_emitted_iff_port_set (f : PacketFilter) :
  exists code,
    GenerateBPF f = Some code
    /\ len (positionsFrom (fun inst => (Code inst =? 0x28) && (K inst =? 0x14)) 0
                          (Instructions code))
       = (if portsSet f then 1 else 0)
    /\ countCode 0x45 (Instructions code) = (if portsSet f then 1 else 0)
    /\ countCode 0xb1 (Instructions code) = (if portsSet f then 1 else 0)
    /\ countCode 0x48 (Instructions code)
       = (if SrcPort f =? 0 then 0 else 1) + (if DstPort f =? 0 then 0 else 1)
    /\ len (portChecksOf (Instructions code)) = countCode 0x48 (Instructions code).
Proof.
  unfold portsSet, countCode, portChecksOf. filter_shape f.
  all: run_generator.
  all: eexists; split; [reflexivity|]; run_generator; repeat split; reflexivity.
Qed.


Lemma analyzeInstruction_checkTag jt jf k idx :
  Type_ (analyzeInstruction 0x15 jt jf k idx) = checkTag k.
Proof. apply analyzeInstruction_check_tag. Qed.

Lemma checkTag_port p : 0 <= p <= 65535 -> p <> 0 -> checkTag (uint32 p) = portCheckTag p.
Proof.
  intros Hr Hn. rewrite uint32_small by assumption. unfold checkTag, portCheckTag.
  destruct (p =? 0x800); [reflexivity|].
  destruct ((p =? 6) || (p =? 17) || (p =? 1)); [reflexivity|].
  destruct (Z.leb_spec 1 p); [|lia]. destruct (Z.leb_spec p 65535); [|lia]. reflexivity.
Qed.

Lemma checkTag_address ip : checkTag (ipToUint32 ip) = addressCheckTag ip.
Proof.
  unfold ipToUint32, addressCheckTag.
  destruct (String.eqb_spec ip "192.168.1.1") as [->|_]; [reflexivity|].
  destruct (String.eqb ip "10.0.0.1"); [reflexivity|].
  destruct (String.eqb ip "127.0.0.1"); reflexivity.
Qed.

Lemma checkTag_protocol p :
  validProtocol p = true -> String.eqb p "" = false -> checkTag (protocolNum p) = CheckProtocol.
Proof.
  unfold validProtocol, protocolNum. intros Hv He. rewrite He in Hv. cbn [orb] in Hv.
  destruct (String.eqb p "tcp"); [reflexivity|].
  destruct (String.eqb p "udp"); [reflexivity|].
  destruct (String.eqb p "icmp"); [reflexivity|discriminate].
Qed.

(** X8: for a valid filter the classifier tags the generated program
    stage by stage as the generator meant it, with these exceptions: an
    address check is tagged as a source-address check for the source and
    the destination alike, and as unknown for 10.0.0.1 and 127.0.0.1; a
    port check is tagged as a destination-port check for either port, as
    the ethertype check for port 2048 and as a protocol check for ports 1,
    6 and 17. *)
Theorem generated_program_tags (f : PacketFilter) :
  Validate f = true ->
  exists code,
    GenerateBPF f = Some code
    /\ map Type_ (analyzePrototypeSemantics (Instructions code)) = generatedTags f.
Proof.
  intros Hv. destruct (Validate_ports f Hv) as [Rs Rd].
  assert (Hvp : validProtocol (Protocol f) = true).
  { unfold Validate in Hv. repeat (apply andb_prop in Hv as [Hv ?]). assumption. }
  clear Hv. unfold generatedTags, portsSet. filter_shape f.
  all: try apply Z.eqb_neq in Hsp; try apply Z.eqb_neq in Hdp.
  all: eexists; split; [run_generator; reflexivity|]; cbn [Instructions].
  all: cbv -[analyzeInstruction Type_ uint32 protocolNum ipToUint32 checkTag
             portCheckTag addressCheckTag].
  all: rewrite ?analyzeInstruction_checkTag.
  all: rewrite ?checkTag_address, ?checkTag_port, ?checkTag_protocol by assumption.
  all: reflexivity.
Qed.

Lemma generated_program_tags_tcp_dport_80 :
  exists code,
    GenerateBPF tcpDstPort80 = Some code
    /\ map Type_ (analyzePrototypeSemantics (Instructions code)) = generatedTags tcpDstPort80.
Proof. apply (generated_program_tags tcpDstPort80). reflexivity. Defined.

(** ** Positions kept by the analysers *)

Lemma analyzeInstruction_Index_Value code jt jf k idx :
  Index (analyzeInstruction code jt jf k idx) = idx
  /\ Value (analyzeInstruction code jt jf k idx) = k.
Proof.
  unfold analyzeInstruction, semantic.
  repeat match goal with |- context [if ?c then _ else _] => destruct c end;
    split; reflexivity.
Qed.

Lemma analyzeFrom_lookup {I} (fields : I -> Z * Z * Z * Z) l : forall start i x,
  l !! i = Some x ->
  analyzeFrom fields start l !! i
  = Some (analyzeInstruction (fields x).1.1.1 (fields x).1.1.2 (fields x).1.2 (fields x).2
                             (start + Z.of_nat i)).
Proof.
  induction l as [|y l IH]; intros start i x Hx; [now rewrite lookup_nil in Hx|].
  cbn [analyzeFrom]. destruct (fields y) as [[[c jt] jf] k] eqn:Ey.
  destruct i as [|i].
  - cbn in Hx. injection Hx as <-. rewrite Ey. cbn. now rewrite Z.add_0_r.
  - cbn in Hx. specialize (IH (start + 1) i x Hx).
    change ((analyzeInstruction c jt jf k start :: analyzeFrom fields (start + 1) l) !! S i)
      with (analyzeFrom fields (start + 1) l !! i).
    rewrite IH. do 2 f_equal. lia.
Qed.

(** X9: both analysers return one entry per instruction, in order; the
    entry at position [i] is the classification of instruction [i], its
    [Index] is [i] and its [Value] is the immediate of that instruction. *)
Theorem analysers_keep_positions :
  (forall (instructions : list prototype.BPFInstruction) i inst,
      instructions !! i = Some inst ->
      exists sem,
        analyzePrototypeSemantics instructions !! i = Some sem
        /\ sem = analyzeInstruction (Code inst) (JT inst) (JF inst) (K inst) (Z.of_nat i)
        /\ Index sem = Z.of_nat i /\ Value sem = K inst)
  /\ (forall (instructions : list tcpdump.BPFInstruction) i inst,
         instructions !! i = Some inst ->
         exists sem,
           analyzeTcpdumpSemantics instructions !! i = Some sem
           /\ sem = analyzeInstruction (tcpdump.Code inst) (tcpdump.JT inst)
                                       (tcpdump.JF inst) (tcpdump.K inst) (Z.of_nat i)
           /\ Index sem = Z.of_nat i /\ Value sem = tcpdump.K inst)
  /\ (forall instructions,
         length (analyzePrototypeSemantics instructions) = length instructions)
  /\ (forall instructions,
         length (analyzeTcpdumpSemantics instructions) = length instructions).
Proof.
  repeat split.
  - intros l i inst H. eexists. split; [|split; [reflexivity|]].
    + unfold analyzePrototypeSemantics. rewrite (analyzeFrom_lookup _ _ 0 i inst H).
      cbn [fst snd]. reflexivity.
    + apply analyzeInstruction_Index_Value.
  - intros l i inst H. eexists. split; [|split; [reflexivity|]].
    + unfold analyzeTcpdumpSemantics. rewrite (analyzeFrom_lookup _ _ 0 i inst H).
      cbn [fst snd]. reflexivity.
    + apply analyzeInstruction_Index_Value.
  - intros l. apply analyzeFrom_length.
  - intros l. apply analyzeFrom_length.
Qed.

(** ** More on the comparison *)

Lemma analyzeStructuralDifferences_entries r :
  StructuralDiffs (analyzeStructuralDifferences r)
  = StructuralDiffs r
    ++ structuralEntries (len (tcpdump.Instructions (TcpdumpBPF r)))
                         (len (prototype.Instructions (PrototypeBPF r)))
                         (TcpdumpSemantic r) (PrototypeSemantic r).
Proof.
  unfold analyzeStructuralDifferences, structuralEntries. cbv zeta.
  destruct (len (tcpdump.Instructions (TcpdumpBPF r))
            =? len (prototype.Instructions (PrototypeBPF r)));
    [|destruct (0 <? len (prototype.Instructions (PrototypeBPF r))
                     - len (tcpdump.Instructions (TcpdumpBPF r)))].
  all: repeat match goal with
         | |- context [TcpdumpSemantic (addMatch ?s ?x)] =>
             change (TcpdumpSemantic (addMatch s x)) with (TcpdumpSemantic x)
         | |- context [PrototypeSemantic (addMatch ?s ?x)] =>
             change (PrototypeSemantic (addMatch s x)) with (PrototypeSemantic x)
         | |- context [TcpdumpSemantic (addStructural ?s ?x)] =>
             change (TcpdumpSemantic (addStructural s x)) with (TcpdumpSemantic x)
         | |- context [PrototypeSemantic (addStructural ?s ?x)] =>
             change (PrototypeSemantic (addStructural s x)) with (PrototypeSemantic x)
         end.
  all: destruct (hasInstructionType (PrototypeSemantic r) CheckFragment
                 && negb (hasInstructionType (TcpdumpSemantic r) CheckFragment)).
  all: repeat match goal with
         | |- context [TcpdumpSemantic (addMatch ?s ?x)] =>
             change (TcpdumpSemantic (addMatch s x)) with (TcpdumpSemantic x)
         | |- context [PrototypeSemantic (addMatch ?s ?x)] =>
             change (PrototypeSemantic (addMatch s x)) with (PrototypeSemantic x)
         | |- context [TcpdumpSemantic (addStructural ?s ?x)] =>
             change (TcpdumpSemantic (addStructural s x)) with (TcpdumpSemantic x)
         | |- context [PrototypeSemantic (addStructural ?s ?x)] =>
             change (PrototypeSemantic (addStructural s x)) with (PrototypeSemantic x)
         end.
  all: destruct ((hasInstructionType (PrototypeSemantic r) CheckSourceIP
                  || hasInstructionType (PrototypeSemantic r) CheckDestIP)
                 && negb (hasInstructionType (TcpdumpSemantic r) CheckSourceIP
                          || hasInstructionType (TcpdumpSemantic r) CheckDestIP)).
  all: cbn; rewrite <- ?app_assoc, ?app_nil_r; reflexivity.
Qed.

Section CompareResult.
Variables rangeTcp rangeProto : gmap InstructionType Z -> list (InstructionType * Z).
Hypothesis HrangeTcp : visitsOnce rangeTcp.
Hypothesis HrangeProto : visitsOnce rangeProto.

(** The result of [Compare] in closed form. *)
Lemma Compare_closed_form tcpBPF protoBPF :
  let tcpSem := analyzeTcpdumpSemantics (tcpdump.Instructions tcpBPF) in
  let protoSem := analyzePrototypeSemantics (prototype.Instructions protoBPF) in
  let tcpTypes := countTypes tcpSem in
  let protoTypes := countTypes protoSem in
  let r := Compare rangeTcp rangeProto tcpBPF protoBPF in
  let total := len (Matches r) + (len (Differences r) + len (MissingInPrototype r)
                                  + len (ExtraInPrototype r)) in
  Matches r = omap (matchEntry protoTypes) (rangeTcp tcpTypes)
              ++ (if len (tcpdump.Instructions tcpBPF) =? len (prototype.Instructions protoBPF)
                  then ["Same instruction count"] else [])
  /\ Differences r = omap (differenceEntry protoTypes) (rangeTcp tcpTypes)
  /\ MissingInPrototype r = omap (missingEntry protoTypes) (rangeTcp tcpTypes)
  /\ ExtraInPrototype r = omap (extraEntry tcpTypes) (rangeProto protoTypes)
  /\ StructuralDiffs r
     = structuralEntries (len (tcpdump.Instructions tcpBPF))
                         (len (prototype.Instructions protoBPF)) tcpSem protoSem
  /\ TcpdumpSemantic r = tcpSem
  /\ PrototypeSemantic r = protoSem
  /\ 0 < total
  /\ Score r = PrimFloat.div (float64 (len (Matches r))) (float64 total)
  /\ Verdict r = if existsb (fun missing => Contains missing "Check IP Protocol")
                            (MissingInPrototype r)
                 then ("CRITICAL ISSUE: " ++ thresholdVerdict (Score r)
                       ++ " (Missing IP validation)")%string
                 else thresholdVerdict (Score r).
Proof.
  intros tcpSem protoSem tcpTypes protoTypes. unfold Compare.
  match goal with |- context [compareSemantics _ _ ?r0] => set (r0' := r0) end.
  pose proof (compareSemantics_records_something rangeTcp rangeProto HrangeTcp HrangeProto
                (tcpdump.Instructions tcpBPF) (prototype.Instructions protoBPF) r0'
                eq_refl eq_refl eq_refl eq_refl) as Hpos.
  destruct (compareSemantics_lists rangeTcp rangeProto r0') as (HM & HD & HX & HE & Hin).
  cbn zeta in Hpos, HM, HD, HX, HE, Hin.
  set (r := compareSemantics rangeTcp rangeProto r0') in *.
  destruct (calculateVerdict_lists r) as [F I]. unfold findings in F. unfold inputs in I, Hin.
  assert (HSD : StructuralDiffs r
                = structuralEntries (len (tcpdump.Instructions tcpBPF))
                    (len (prototype.Instructions protoBPF)) tcpSem protoSem).
  { unfold r, compareSemantics.
    match goal with |- context [analyzeStructuralDifferences ?x] => set (r2 := x) end.
    destruct (findMatch_loop (countTypes (PrototypeSemantic r0'))
                (rangeTcp (countTypes (TcpdumpSemantic r0'))) r0') as [F1 I1].
    destruct (findExtra_loop (countTypes (TcpdumpSemantic r0'))
                (rangeProto (countTypes (PrototypeSemantic r0')))
                (foldl (findMatch (countTypes (PrototypeSemantic r0'))) r0'
                       (rangeTcp (countTypes (TcpdumpSemantic r0'))))) as [F2 I2].
    cbn zeta in F1, I1, F2, I2. fold r2 in F2, I2.
    assert (I' : inputs r2 = inputs r0') by congruence.
    unfold inputs in I'. injection I' as It Ip Its' Ips'.
    rewrite analyzeStructuralDifferences_entries, It, Ip, Its', Ips'.
    unfold findings in F1, F2. injection F2 as _ _ _ _ ->. injection F1 as _ _ _ _ ->.
    reflexivity. }
  injection F as FM FD FX FE FS. injection I as _ _ Its Ips. injection Hin as _ _ Hts Hps.
  cbn zeta. rewrite FM, FD, FX, FE, FS, Its, Ips, Hts, Hps.
  do 8 (split; [first [assumption | reflexivity]|]).
  unfold calculateVerdict.
  destruct (Z.eqb_spec (len (Matches r) + (len (Differences r) + len (MissingInPrototype r)
                                           + len (ExtraInPrototype r))) 0) as [E|_]; [lia|].
  split; reflexivity.
Qed.

End CompareResult.

(** *** The quotients a comparison can produce *)

Lemma score_checks :
  forallb (fun t =>
             forallb (fun m =>
                        let s := PrimFloat.div (float64 (Z.of_nat m)) (float64 (Z.of_nat t)) in
                        PrimFloat.leb 0 s && PrimFloat.leb s 1
                        && (Nat.eqb m t || negb (PrimFloat.leb 1 s)))
                     (seq 0 (S t)))
          (seq 1 37) = true.
Proof. vm_compute. reflexivity. Qed.

Lemma score_facts m t :
  0 <= m <= t -> 1 <= t <= 37 ->
  let s := PrimFloat.div (float64 m) (float64 t) in
  PrimFloat.leb 0 s = true /\ PrimFloat.leb s 1 = true
  /\ (m <> t -> PrimFloat.leb 1 s = false).
Proof.
  intros Hm Ht. pose proof score_checks as H.
  rewrite forallb_forall in H. specialize (H (Z.to_nat t)).
  rewrite forallb_forall in H.
  specialize (H ltac:(apply in_seq; lia) (Z.to_nat m) ltac:(apply in_seq; lia)).
  cbn zeta in H. rewrite !Z2Nat.id in H by lia.
  apply andb_prop in H as [H H3]. apply andb_prop in H as [H1 H2].
  repeat split; try assumption.
  intros Hne. apply orb_prop in H3 as [H3|H3].
  - apply Nat.eqb_eq in H3. lia.
  - now apply negb_true_iff in H3.
Qed.

Lemma score_self t :
  1 <= t <= 37 -> PrimFloat.div (float64 t) (float64 t) = 1%float.
Proof.
  intros H. rewrite <- (Z2Nat.id t) by lia.
  assert (Hk : (1 <= Z.to_nat t <= 37)%nat) by lia.
  generalize dependent (Z.to_nat t). clear H. intros k [H1 H2].
  do 38 (destruct k as [|k]; [first [lia | vm_compute; reflexivity]|]). lia.
Qed.

Lemma length_omap_le {A B} (f : A -> option B) l : (length (omap f l) <= length l)%nat.
Proof.
  induction l as [|x l IH]; [reflexivity|]. cbn. destruct (f x); cbn; lia.
Qed.

Section Score.
Variables rangeTcp rangeProto : gmap InstructionType Z -> list (InstructionType * Z).
Hypothesis HrangeTcp : visitsOnce rangeTcp.
Hypothesis HrangeProto : visitsOnce rangeProto.

(** The counts behind the score: at most 19 matches among at most 37
    recorded entries, of which there is at least one. *)
Lemma Compare_counts tcpBPF protoBPF :
  let r := Compare rangeTcp rangeProto tcpBPF protoBPF in
  let total := len (Matches r) + (len (Differences r) + len (MissingInPrototype r)
                                  + len (ExtraInPrototype r)) in
  0 <= len (Matches r) <= total /\ 1 <= total <= 37.
Proof.
  destruct (Compare_closed_form rangeTcp rangeProto HrangeTcp HrangeProto tcpBPF protoBPF)
    as (HM & HD & HX & HE & _ & _ & _ & Hpos & _).
  cbn zeta in *. rewrite HM, HD, HX, HE in *. clear HM HD HX HE.
  set (tcpTypes := countTypes (analyzeTcpdumpSemantics (tcpdump.Instructions tcpBPF))) in *.
  set (protoTypes := countTypes (analyzePrototypeSemantics (prototype.Instructions protoBPF)))
    in *.
  pose proof (findMatch_entries_length protoTypes (rangeTcp tcpTypes)) as Hsum.
  pose proof (range_length_bound _ HrangeTcp tcpTypes) as Bt.
  pose proof (range_length_bound _ HrangeProto protoTypes) as Bp.
  pose proof (length_omap_le (extraEntry tcpTypes) (rangeProto protoTypes)) as Be.
  unfold len in *. rewrite length_app in *.
  destruct (Z.of_nat (length (tcpdump.Instructions tcpBPF))
            =? Z.of_nat (length (prototype.Instructions protoBPF))); cbn [length] in *; lia.
Qed.

(** X11: the score of every comparison lies between 0 and 1. *)
Theorem Compare_score_in_unit_interval
  (tcpBPF : tcpdump.BPFCode) (protoBPF : prototype.BPFCode) :
  let r := Compare rangeTcp rangeProto tcpBPF protoBPF in
  PrimFloat.leb 0 (Score r) = true /\ PrimFloat.leb (Score r) 1 = true.
Proof.
  destruct (Compare_closed_form rangeTcp rangeProto HrangeTcp HrangeProto tcpBPF protoBPF)
    as (_ & _ & _ & _ & _ & _ & _ & _ & HS & _).
  destruct (Compare_counts tcpBPF protoBPF) as [Hm Ht].
  cbn zeta in *. rewrite HS.
  destruct (score_facts _ _ Hm Ht) as (H0 & H1 & _). split; assumption.
Qed.

End Score.

(** *** Equal histograms *)

Lemma omap_nil_iff {A B} (f : A -> option B) l :
  omap f l = [] <-> Forall (fun x => f x = None) l.
Proof.
  induction l as [|x l IH]; cbn.
  - split; [constructor|reflexivity].
  - destruct (f x) eqn:E; cbn.
    + split; [discriminate|]. intros H. apply Forall_cons in H as [H _]. congruence.
    + rewrite IH. split; [now constructor|]. intros H. now apply Forall_cons in H as [_ H].
Qed.

Section Histogram.
Variables rangeTcp rangeProto : gmap InstructionType Z -> list (InstructionType * Z).
Hypothesis HrangeTcp : visitsOnce rangeTcp.
Hypothesis HrangeProto : visitsOnce rangeProto.

Lemma no_difference_iff_same_counts (tcpTypes protoTypes : gmap InstructionType Z) :
  omap (differenceEntry protoTypes) (rangeTcp tcpTypes) = []
  /\ omap (missingEntry protoTypes) (rangeTcp tcpTypes) = []
  /\ omap (extraEntry tcpTypes) (rangeProto protoTypes) = []
  <-> tcpTypes = protoTypes.
Proof.
  rewrite !omap_nil_iff, !Forall_forall. split.
  - intros (HD & HX & HE). apply map_eq. intros t.
    destruct (tcpTypes !! t) as [n|] eqn:Et.
    + assert (Hin : (t, n) ∈ rangeTcp tcpTypes) by now apply (range_elem _ HrangeTcp).
      pose proof (HD _ Hin) as D. pose proof (HX _ Hin) as X.
      unfold differenceEntry, missingEntry in D, X. cbn [fst snd] in D, X.
      destruct (protoTypes !! t) as [m|]; [|discriminate].
      destruct (Z.eqb_spec n m); [congruence|discriminate].
    + destruct (protoTypes !! t) as [m|] eqn:Ep; [|reflexivity].
      assert (Hin : (t, m) ∈ rangeProto protoTypes) by now apply (range_elem _ HrangeProto).
      pose proof (HE _ Hin) as E. unfold extraEntry in E. cbn [fst snd] in E.
      rewrite Et in E. discriminate.
  - intros <-. repeat split; intros [t n] Hin.
    + apply (range_elem _ HrangeTcp) in Hin. unfold differenceEntry. cbn [fst snd].
      now rewrite Hin, Z.eqb_refl.
    + apply (range_elem _ HrangeTcp) in Hin. unfold missingEntry. cbn [fst snd].
      now rewrite Hin.
    + apply (range_elem _ HrangeProto) in Hin. unfold extraEntry. cbn [fst snd].
      now rewrite Hin.
Qed.

(** X12: the score is exactly 1.0 if and only if the two programs have the
    same purpose-tag histogram, and that is the case if and only if no
    difference, missing or extra entry is recorded. *)
Theorem score_one_iff_same_histogram
  (tcpBPF : tcpdump.BPFCode) (protoBPF : prototype.BPFCode) :
  let r := Compare rangeTcp rangeProto tcpBPF protoBPF in
  (Score r = 1%float
   <-> countTypes (TcpdumpSemantic r) = countTypes (PrototypeSemantic r))
  /\ (Differences r = [] /\ MissingInPrototype r = [] /\ ExtraInPrototype r = []
      <-> countTypes (TcpdumpSemantic r) = countTypes (PrototypeSemantic r)).
Proof.
  destruct (Compare_closed_form rangeTcp rangeProto HrangeTcp HrangeProto tcpBPF protoBPF)
    as (HM & HD & HX & HE & _ & Hts & Hps & Hpos & HS & _).
  destruct (Compare_counts rangeTcp rangeProto HrangeTcp HrangeProto tcpBPF protoBPF)
    as [Hm Ht].
  cbn zeta in *. rewrite Hts, Hps, HD, HX, HE.
  pose proof (no_difference_iff_same_counts
                (countTypes (analyzeTcpdumpSemantics (tcpdump.Instructions tcpBPF)))
                (countTypes (analyzePrototypeSemantics (prototype.Instructions protoBPF))))
    as Hiff.
  split; [|exact Hiff]. rewrite <- Hiff, <- HD, <- HX, <- HE. clear Hiff.
  set (r := Compare rangeTcp rangeProto tcpBPF protoBPF) in *.
  rewrite HS. split.
  - intros H1.
    destruct (Z.eq_dec (len (Matches r))
                (len (Matches r) + (len (Differences r) + len (MissingInPrototype r)
                                    + len (ExtraInPrototype r)))) as [E|Hne].
    + unfold len in E.
      destruct (Differences r), (MissingInPrototype r), (ExtraInPrototype r);
        cbn [length] in E; try lia. repeat split.
    + destruct (score_facts _ _ Hm Ht) as (_ & _ & Hlt). specialize (Hlt Hne).
      rewrite H1 in Hlt. vm_compute in Hlt. discriminate Hlt.
  - intros (ED & EX & EE). rewrite ED, EX, EE in Ht |- *.
    change (len []) with 0 in *. rewrite !Z.add_0_r in *.
    apply score_self. exact Ht.
Qed.

(** X14: nothing is missing exactly when every purpose tag of the first
    program occurs in the second, and nothing is extra exactly when every
    purpose tag of the second occurs in the first. *)
Theorem missing_and_extra_empty_iff_tags_included
  (tcpBPF : tcpdump.BPFCode) (protoBPF : prototype.BPFCode) :
  let r := Compare rangeTcp rangeProto tcpBPF protoBPF in
  (MissingInPrototype r = []
   <-> forall t, hasInstructionType (TcpdumpSemantic r) t = true ->
                 hasInstructionType (PrototypeSemantic r) t = true)
  /\ (ExtraInPrototype r = []
      <-> forall t, hasInstructionType (PrototypeSemantic r) t = true ->
                    hasInstructionType (TcpdumpSemantic r) t = true).
Proof.
  destruct (Compare_closed_form rangeTcp rangeProto HrangeTcp HrangeProto tcpBPF protoBPF)
    as (_ & _ & HX & HE & _ & Hts & Hps & _).
  cbn zeta in *. rewrite Hts, Hps, HX, HE. clear HX HE Hts Hps.
  set (tcpSem := analyzeTcpdumpSemantics (tcpdump.Instructions tcpBPF)).
  set (protoSem := analyzePrototypeSemantics (prototype.Instructions protoBPF)).
  rewrite !omap_nil_iff, !Forall_forall. split; split.
  - intros H t Ht. destruct (hasInstructionType protoSem t) eqn:Ep; [reflexivity|].
    apply countTypes_None in Ep.
    destruct (countTypes tcpSem !! t) as [n|] eqn:Et.
    + apply (range_elem _ HrangeTcp) in Et. specialize (H _ Et).
      unfold missingEntry in H. cbn [fst snd] in H. rewrite Ep in H. discriminate.
    + apply countTypes_None in Et. congruence.
  - intros H [t n] Hin. apply (range_elem _ HrangeTcp) in Hin.
    unfold missingEntry. cbn [fst snd].
    destruct (countTypes protoSem !! t) eqn:Ep; [reflexivity|].
    apply countTypes_None in Ep. rewrite H in Ep; [discriminate|].
    destruct (hasInstructionType tcpSem t) eqn:Et; [reflexivity|].
    apply countTypes_None in Et. congruence.
  - intros H t Ht. destruct (hasInstructionType tcpSem t) eqn:Ep; [reflexivity|].
    apply countTypes_None in Ep.
    destruct (countTypes protoSem !! t) as [n|] eqn:Et.
    + apply (range_elem _ HrangeProto) in Et. specialize (H _ Et).
      unfold extraEntry in H. cbn [fst snd] in H. rewrite Ep in H. discriminate.
    + apply countTypes_None in Et. congruence.
  - intros H [t n] Hin. apply (range_elem _ HrangeProto) in Hin.
    unfold extraEntry. cbn [fst snd].
    destruct (countTypes tcpSem !! t) eqn:Ep; [reflexivity|].
    apply countTypes_None in Ep. rewrite H in Ep; [discriminate|].
    destruct (hasInstructionType protoSem t) eqn:Et; [reflexivity|].
    apply countTypes_None in Et. congruence.
Qed.

End Histogram.

(** *** Order and branch fields *)

Lemma analyzeInstruction_tag_of_operation code jt jf k idx :
  Type_ (analyzeInstruction code jt jf k idx) = Type_ (analyzeInstruction code 0 0 k 0).
Proof.
  unfold analyzeInstruction, semantic.
  repeat match goal with |- context [if ?c then _ else _] => destruct c end; reflexivity.
Qed.

Lemma analyzeFrom_tags {I} (fields : I -> Z * Z * Z * Z) l : forall start,
  map Type_ (analyzeFrom fields start l)
  = map (fun x => Type_ (analyzeInstruction (fields x).1.1.1 0 0 (fields x).2 0)) l.
Proof.
  induction l as [|x l IH]; intros start; [reflexivity|].
  cbn [analyzeFrom map]. destruct (fields x) as [[[c jt] jf] k] eqn:E. cbn [map fst snd].
  rewrite IH. f_equal. apply analyzeInstruction_tag_of_operation.
Qed.

Lemma increment_commute (m : gmap InstructionType Z) a b :
  increment (increment m a) b = increment (increment m b) a.
Proof.
  destruct (decide (a = b)) as [->|Hab]; [reflexivity|].
  apply map_eq. intros t. rewrite !increment_lookup.
  repeat match goal with
         | |- context [decide (?x = ?y)] => destruct (decide (x = y)); subst
         end; congruence.
Qed.

Lemma countTags_permutation (ts ts' : list InstructionType) :
  ts ≡ₚ ts' -> forall m, foldl increment m ts = foldl increment m ts'.
Proof.
  induction 1 as [|t ts ts' _ IH|a b ts|ts1 ts2 ts3 _ IH1 _ IH2]; intros m; cbn.
  - reflexivity.
  - apply IH.
  - now rewrite increment_commute.
  - now rewrite IH1, IH2.
Qed.

Lemma countTypes_tags sems : countTypes sems = foldl increment ∅ (map Type_ sems).
Proof. unfold countTypes. symmetry. apply (foldl_fmap increment ∅ sems Type_). Qed.

Lemma has_of_countTypes sems sems' :
  countTypes sems = countTypes sems' ->
  forall t, hasInstructionType sems t = hasInstructionType sems' t.
Proof.
  intros H t.
  destruct (hasInstructionType sems t) eqn:E, (hasInstructionType sems' t) eqn:E';
    try reflexivity.
  - apply countTypes_None in E'. rewrite <- H in E'. apply countTypes_None in E'. congruence.
  - apply countTypes_None in E. rewrite H in E. apply countTypes_None in E. congruence.
Qed.

Section Blind.
Variables rangeTcp rangeProto : gmap InstructionType Z -> list (InstructionType * Z).
Hypothesis HrangeTcp : visitsOnce rangeTcp.
Hypothesis HrangeProto : visitsOnce rangeProto.

(** X13: the comparison looks neither at the order of the instructions
    nor at their branch fields: when the opcode and immediate pairs of the
    second program are a rearrangement of those of the first, the score is
    exactly 1.0, the verdict is "excellent" and no difference, missing,
    extra or structural entry is recorded. *)
Theorem Compare_blind_to_order_and_branches
  (tcpBPF : tcpdump.BPFCode) (protoBPF : prototype.BPFCode) :
  map tcpdumpOperation (tcpdump.Instructions tcpBPF)
  ≡ₚ map prototypeOperation (prototype.Instructions protoBPF) ->
  let r := Compare rangeTcp rangeProto tcpBPF protoBPF in
  Score r = 1%float
  /\ Verdict r = "EXCELLENT MATCH: Prototype closely matches tcpdump behavior"
  /\ Differences r = [] /\ MissingInPrototype r = [] /\ ExtraInPrototype r = []
  /\ StructuralDiffs r = [].
Proof.
  intros Hperm.
  assert (Hcount : countTypes (analyzeTcpdumpSemantics (tcpdump.Instructions tcpBPF))
                   = countTypes (analyzePrototypeSemantics (prototype.Instructions protoBPF))).
  { rewrite !countTypes_tags. apply countTags_permutation.
    unfold analyzeTcpdumpSemantics, analyzePrototypeSemantics. rewrite !analyzeFrom_tags.
    cbn [fst snd].
    change (map (fun x : tcpdump.BPFInstruction =>
                   Type_ (analyzeInstruction (tcpdump.Code x) 0 0 (tcpdump.K x) 0))
                (tcpdump.Instructions tcpBPF))
      with (map ((fun op : Z * Z => Type_ (analyzeInstruction op.1 0 0 op.2 0))
                   ∘ tcpdumpOperation) (tcpdump.Instructions tcpBPF)).
    change (map (fun x : prototype.BPFInstruction =>
                   Type_ (analyzeInstruction (Code x) 0 0 (K x) 0))
                (prototype.Instructions protoBPF))
      with (map ((fun op : Z * Z => Type_ (analyzeInstruction op.1 0 0 op.2 0))
                   ∘ prototypeOperation) (prototype.Instructions protoBPF)).
    rewrite !(list_fmap_compose _ (fun op : Z * Z => Type_ (analyzeInstruction op.1 0 0 op.2 0))).
    now apply fmap_Permutation. }
  assert (Hlen : len (tcpdump.Instructions tcpBPF) = len (prototype.Instructions protoBPF)).
  { apply Permutation_length in Hperm. rewrite !length_map in Hperm. unfold len. lia. }
  destruct (Compare_closed_form rangeTcp rangeProto HrangeTcp HrangeProto tcpBPF protoBPF)
    as (HM & HD & HX & HE & HSD & Hts & Hps & Hpos & HS & HV).
  destruct (Compare_counts rangeTcp rangeProto HrangeTcp HrangeProto tcpBPF protoBPF)
    as [_ Ht].
  cbn zeta in *.
  destruct (proj2 (no_difference_iff_same_counts rangeTcp rangeProto HrangeTcp HrangeProto
                     _ _) Hcount) as (ED & EX & EE).
  rewrite <- HD in ED. rewrite <- HX in EX. rewrite <- HE in EE.
  assert (H1 : Score (Compare rangeTcp rangeProto tcpBPF protoBPF) = 1%float).
  { rewrite HS. rewrite ED, EX, EE in Ht |- *.
    change (len []) with 0 in *. rewrite !Z.add_0_r in *. now apply score_self. }
  repeat split; try assumption.
  - rewrite HV, EX, H1. reflexivity.
  - rewrite HSD. unfold structuralEntries. rewrite Hlen, Z.eqb_refl.
    rewrite !(has_of_countTypes _ _ Hcount), !andb_negb_r. reflexivity.
Qed.

End Blind.

(** ** Helpers of the report *)

Lemma string_length_append s1 s2 :
  String.length (s1 ++ s2) = (String.length s1 + String.length s2)%nat.
Proof.
  induction s1 as [|c s1 IH]; [reflexivity|].
  change (String c s1 ++ s2)%string with (String c (s1 ++ s2)). cbn. now rewrite IH.
Qed.

Lemma string_length_substring s : forall n,
  (n <= String.length s)%nat -> String.length (String.substring 0 n s) = n.
Proof.
  induction s as [|c s IH]; intros [|n] H; cbn in *; try reflexivity; try lia.
  rewrite IH by lia. reflexivity.
Qed.

Lemma string_length_repeat_space n : String.length (repeatString " " n) = n.
Proof.
  induction n as [|n IH]; [reflexivity|].
  cbn [repeatString]. rewrite string_length_append, IH. reflexivity.
Qed.

(** X15: for a width of at least 0, [centerText] returns a text of exactly
    [width] bytes: the first [width] bytes of a text that does not fit,
    and otherwise the text between blanks, the shorter half on the left.
    For a negative width it panics. *)
Theorem centerText_has_width (text : string) (width : Z) :
  (0 <= width ->
   exists s,
     centerText text width = Some s
     /\ strlen s = width
     /\ (width <= strlen text -> s = String.substring 0 (Z.to_nat width) text)
     /\ (strlen text < width ->
         s = (repeatString " " (Z.to_nat ((width - strlen text) / 2)) ++ text
              ++ repeatString " " (Z.to_nat (width - (width - strlen text) / 2
                                             - strlen text)))%string))
  /\ (width < 0 -> centerText text width = None).
Proof.
  unfold centerText, sliceTo, Repeat, strlen. split.
  - intros Hw. destruct (Z.leb_spec width (Z.of_nat (String.length text))) as [Hfit|Hpad].
    + destruct (Z.ltb_spec width 0); [lia|].
      destruct (Z.ltb_spec (Z.of_nat (String.length text)) width); [lia|]. cbn [orb].
      eexists. split; [reflexivity|]. split; [|split; [reflexivity|lia]].
      rewrite string_length_substring by lia. lia.
    + rewrite Z.quot_div_nonneg by lia.
      destruct (Z.ltb_spec ((width - Z.of_nat (String.length text)) / 2) 0);
        [pose proof (Z.div_pos (width - Z.of_nat (String.length text)) 2); lia|].
      destruct (Z.ltb_spec (width - (width - Z.of_nat (String.length text)) / 2
                            - Z.of_nat (String.length text)) 0) as [Hneg|_].
      { pose proof (Z.div_le_upper_bound (width - Z.of_nat (String.length text)) 2
                      (width - Z.of_nat (String.length text))). lia. }
      eexists. split; [reflexivity|]. split; [|split; [lia|reflexivity]].
      rewrite !string_length_append, !string_length_repeat_space.
      pose proof (Z.div_le_upper_bound (width - Z.of_nat (String.length text)) 2
                    (width - Z.of_nat (String.length text))).
      pose proof (Z.div_pos (width - Z.of_nat (String.length text)) 2). lia.
  - intros Hw. destruct (Z.leb_spec width (Z.of_nat (String.length text))); [|lia].
    destruct (Z.ltb_spec width 0); [reflexivity|lia].
Qed.

(** X16: for a limit of at least 3, [truncateString] returns at most
    [maxLen] bytes: the text itself when it fits, and otherwise its first
    [maxLen - 3] bytes followed by three dots, [maxLen] bytes in all.  For
    a limit below 3 and a text that does not fit it panics. *)
Theorem truncateString_within_limit (s : string) (maxLen : Z) :
  (strlen s <= maxLen -> truncateString s maxLen = Some s)
  /\ (3 <= maxLen -> maxLen < strlen s ->
      exists r,
        truncateString s maxLen = Some r
        /\ r = (String.substring 0 (Z.to_nat (maxLen - 3)) s ++ "...")%string
        /\ strlen r = maxLen)
  /\ (maxLen < 3 -> maxLen < strlen s -> truncateString s maxLen = None).
Proof.
  unfold truncateString, sliceTo, strlen. repeat split.
  - intros H. destruct (Z.leb_spec (Z.of_nat (String.length s)) maxLen); [reflexivity|lia].
  - intros H3 Hlong. destruct (Z.leb_spec (Z.of_nat (String.length s)) maxLen); [lia|].
    destruct (Z.ltb_spec (maxLen - 3) 0); [lia|].
    destruct (Z.ltb_spec (Z.of_nat (String.length s)) (maxLen - 3)); [lia|]. cbn [orb].
    eexists. split; [reflexivity|]. split; [reflexivity|].
    rewrite string_length_append, string_length_substring by lia. cbn. lia.
  - intros H3 Hlong. destruct (Z.leb_spec (Z.of_nat (String.length s)) maxLen); [lia|].
    destruct (Z.ltb_spec (maxLen - 3) 0); [reflexivity|lia].
Qed.

(** X17: [getTopDifferences] panics for a negative count; otherwise it
    returns the first [maxCount] entries of the missing entries followed
    by the extra and then the structural ones, in that order and not by
    priority. *)
Theorem getTopDifferences_takes_prefix (r : ComparisonResult) (maxCount : Z) :
  let all := map missingDifference (MissingInPrototype r)
             ++ map extraDifference (ExtraInPrototype r)
             ++ map structuralDifference (StructuralDiffs r) in
  (maxCount < 0 -> getTopDifferences r maxCount = None)
  /\ (0 <= maxCount ->
      getTopDifferences r maxCount = Some (take (Z.to_nat maxCount) all)
      /\ len (take (Z.to_nat maxCount) all) = Z.min maxCount (len all)).
Proof.
  cbn zeta. unfold getTopDifferences, sliceListTo.
  set (all := map missingDifference (MissingInPrototype r)
              ++ map extraDifference (ExtraInPrototype r)
              ++ map structuralDifference (StructuralDiffs r)).
  split.
  - intros Hneg. unfold len. destruct (Z.ltb_spec maxCount (Z.of_nat (length all))); [|lia].
    destruct (Z.ltb_spec maxCount 0); [reflexivity|lia].
  - intros Hpos. unfold len. rewrite length_take. split; [|lia].
    destruct (Z.ltb_spec maxCount (Z.of_nat (length all))).
    + destruct (Z.ltb_spec maxCount 0); [lia|reflexivity].
    + rewrite take_ge by lia. reflexivity.
Qed.

Lemma string_of_uint_avoids c d :
  (57 < nat_of_ascii c)%nat ->
  Forall (fun x => x <> c) (list_ascii_of_string (DecimalString.NilEmpty.string_of_uint d)).
Proof.
  intros Hc. induction d; cbn; [constructor|..];
    (apply Forall_cons_2; [intros <-; vm_compute in Hc; lia|assumption]).
Qed.

Lemma fmtDec_avoids c n tail :
  (57 < nat_of_ascii c)%nat ->
  Forall (fun x => x <> c) (list_ascii_of_string tail) ->
  Forall (fun x => x <> c) (list_ascii_of_string (fmtDec n ++ tail)).
Proof.
  intros Hc Ht. rewrite list_ascii_of_string_app. apply Forall_app. split; [|assumption].
  unfold fmtDec, DecimalString.NilZero.string_of_int, DecimalString.NilZero.string_of_uint.
  destruct (Z.to_int n) as [d|d];
    [|apply Forall_cons_2; [intros <-; vm_compute in Hc; lia|]];
    (destruct d;
     [apply Forall_cons_2; [intros <-; vm_compute in Hc; lia|constructor]|..];
     apply string_of_uint_avoids; assumption).
Qed.

(** X18: in the report a missing entry is marked "CRITICAL" exactly when
    it is the entry of the ethertype check or of the protocol load, whose
    names both contain "IP Protocol"; the verdict of [calculateVerdict] is
    made critical by the entry of the ethertype check alone. *)
Theorem missing_entry_marked_critical (t : InstructionType) (n : Z) :
  missingDifference (fmtMissing t n)
  = (if bool_decide (t = CheckIP) || bool_decide (t = LoadProtocol)
     then {| Icon := "🚨"; Text := ("CRITICAL: " ++ fmtMissing t n)%string; Priority := 1 |}
     else {| Icon := "✗"; Text := fmtMissing t n; Priority := 3 |})
  /\ Contains (fmtMissing t n) "Check IP Protocol" = bool_decide (t = CheckIP).
Proof.
  split; [|apply missing_entry_critical].
  unfold missingDifference.
  assert (H : Contains (fmtMissing t n) "IP Protocol"
              = bool_decide (t = CheckIP) || bool_decide (t = LoadProtocol)).
  { unfold fmtMissing.
    assert (Htail : Forall (fun c => c <> "I"%char)
                           (list_ascii_of_string (fmtDec n ++ " instructions)")))
      by (apply fmtDec_avoids; [vm_compute; lia|repeat constructor; discriminate]).
    revert Htail. generalize (fmtDec n ++ " instructions)")%string. intros tail Htail.
    destruct t; cbv; first [reflexivity | exact (Contains_absent _ _ _ Htail)]. }
  rewrite H. destruct (bool_decide (t = CheckIP) || bool_decide (t = LoadProtocol)); reflexivity.
Qed.

(** ** Rendering a filter *)

Lemma concat_cons_nonempty sep x xs :
  x <> "" -> String.concat sep (x :: xs) <> "".
Proof.
  intros Hx. destruct x as [|c x]; [congruence|]. destruct xs; cbn; [discriminate|].
  change (String c x ++ sep ++ String.concat sep (s :: xs))%string
    with (String c (x ++ sep ++ String.concat sep (s :: xs))). discriminate.
Qed.

(** X19: a filter that passes [Validate] never renders as the empty text:
    neither as a tcpdump expression (so the "empty filter expression"
    error of the reference generator cannot occur), nor as the generator's
    description, nor through [String]. *)
Theorem valid_filter_renders_nonempty (f : PacketFilter) :
  Validate f = true ->
  ToTcpdumpFilter f <> "" /\ buildFilterDescription f <> "" /\ PacketFilter_String f <> "".
Proof.
  unfold Validate. intros Hv. repeat (apply andb_prop in Hv as [Hv ?]).
  match goal with H : negb (_ && _ && _ && _ && _) = true |- _ => rename H into Hany end.
  unfold ToTcpdumpFilter, buildFilterDescription, PacketFilter_String.
  destruct f as [proto sip dip sp dp]. cbn [Protocol SrcIP DstIP SrcPort DstPort] in *.
  destruct (String.eqb_spec proto "") as [->|Hp]; cbn [negb app].
  2: { repeat split; apply concat_cons_nonempty;
       first [assumption | (intros E; cbv [String.append] in E; discriminate E)]. }
  destruct (String.eqb sip ""); cbn [negb app].
  2: { repeat split; apply concat_cons_nonempty;
       intros E; cbv [String.append] in E; discriminate E. }
  destruct (String.eqb dip ""); cbn [negb app].
  2: { repeat split; apply concat_cons_nonempty;
       intros E; cbv [String.append] in E; discriminate E. }
  destruct (sp =? 0); cbn [negb app].
  2: { repeat split; apply concat_cons_nonempty;
       intros E; cbv [String.append] in E; discriminate E. }
  destruct (dp =? 0); cbn [negb app].
  2: { repeat split; apply concat_cons_nonempty;
       intros E; cbv [String.append] in E; discriminate E. }
  discriminate Hany.
Qed.

Lemma tcp_dport_80_renders_nonempty :
  ToTcpdumpFilter tcpDstPort80 <> "" /\ buildFilterDescription tcpDstPort80 <> ""
  /\ PacketFilter_String tcpDstPort80 <> "".
Proof. apply (valid_filter_renders_nonempty tcpDstPort80). reflexivity. Defined.

(** ** Verdicts and witnesses of the comparison properties *)

Section Verdicts.
Variables rangeTcp rangeProto : gmap InstructionType Z -> list (InstructionType * Z).
Hypothesis HrangeTcp : visitsOnce rangeTcp.
Hypothesis HrangeProto : visitsOnce rangeProto.

(** X10: the verdict of every comparison is one of the four threshold
    verdicts, as it is or wrapped as a critical issue; the verdict
    "INCONCLUSIVE: No comparable instructions found" is never returned. *)
Theorem Compare_verdict_is_threshold_verdict
  (tcpBPF : tcpdump.BPFCode) (protoBPF : prototype.BPFCode) :
  let r := Compare rangeTcp rangeProto tcpBPF protoBPF in
  (exists v,
      In v thresholdVerdicts
      /\ (Verdict r = v
          \/ Verdict r = ("CRITICAL ISSUE: " ++ v ++ " (Missing IP validation)")%string))
  /\ Verdict r <> "INCONCLUSIVE: No comparable instructions found".
Proof.
  split; [|now apply Compare_never_inconclusive].
  destruct (Compare_closed_form rangeTcp rangeProto HrangeTcp HrangeProto tcpBPF protoBPF)
    as (_ & _ & _ & _ & _ & _ & _ & _ & _ & HV).
  cbn zeta in HV. rewrite HV.
  exists (thresholdVerdict (Score (Compare rangeTcp rangeProto tcpBPF protoBPF))). split.
  - unfold thresholdVerdict, thresholdVerdicts.
    repeat match goal with |- context [if ?c then _ else _] => destruct c end; cbn; tauto.
  - destruct (existsb _ _); [right|left]; reflexivity.
Qed.

End Verdicts.

Lemma verdict_of_empty_programs_is_threshold_verdict :
  let r := Compare map_to_list map_to_list emptyTcpdump emptyPrototype in
  (exists v,
      In v thresholdVerdicts
      /\ (Verdict r = v
          \/ Verdict r = ("CRITICAL ISSUE: " ++ v ++ " (Missing IP validation)")%string))
  /\ Verdict r <> "INCONCLUSIVE: No comparable instructions found".
Proof.
  apply (Compare_verdict_is_threshold_verdict map_to_list map_to_list);
    intros m; reflexivity.
Defined.

Lemma score_in_unit_interval_protocol_only :
  let r := Compare map_to_list map_to_list protocolOnlyTcpdump returnsOnlyPrototype in
  PrimFloat.leb 0 (Score r) = true /\ PrimFloat.leb (Score r) 1 = true.
Proof.
  apply (Compare_score_in_unit_interval map_to_list map_to_list); intros m; reflexivity.
Defined.

Lemma score_one_iff_same_histogram_protocol_only :
  let r := Compare map_to_list map_to_list protocolOnlyTcpdump returnsOnlyPrototype in
  (Score r = 1%float
   <-> countTypes (TcpdumpSemantic r) = countTypes (PrototypeSemantic r))
  /\ (Differences r = [] /\ MissingInPrototype r = [] /\ ExtraInPrototype r = []
      <-> countTypes (TcpdumpSemantic r) = countTypes (PrototypeSemantic r)).
Proof.
  apply (score_one_iff_same_histogram map_to_list map_to_list); intros m; reflexivity.
Defined.

Lemma missing_and_extra_protocol_only :
  let r := Compare map_to_list map_to_list protocolOnlyTcpdump returnsOnlyPrototype in
  (MissingInPrototype r = []
   <-> forall t, hasInstructionType (TcpdumpSemantic r) t = true ->
                 hasInstructionType (PrototypeSemantic r) t = true)
  /\ (ExtraInPrototype r = []
      <-> forall t, hasInstructionType (PrototypeSemantic r) t = true ->
                    hasInstructionType (TcpdumpSemantic r) t = true).
Proof.
  apply (missing_and_extra_empty_iff_tags_included map_to_list map_to_list);
    intros m; reflexivity.
Defined.

Lemma compare_blind_to_reversed_program :
  let r := Compare map_to_list map_to_list protocolOnlyTcpdump reversedProtocolOnly in
  Score r = 1%float
  /\ Verdict r = "EXCELLENT MATCH: Prototype closely matches tcpdump behavior"
  /\ Differences r = [] /\ MissingInPrototype r = [] /\ ExtraInPrototype r = []
  /\ StructuralDiffs r = [].
Proof.
  apply (Compare_blind_to_order_and_branches map_to_list map_to_list);
    [intros m; reflexivity | intros m; reflexivity |].
  vm_compute. apply Permutation_rev.
Defined.

(** ** The reference parser *)

Lemma digit_digitChar c : digitChar c -> strconv.digit c = Some (byteOf c - 48).
Proof.
  intros [H1 H2]. unfold strconv.digit.
  destruct (Z.leb_spec 48 (byteOf c)); [|lia].
  destruct (Z.leb_spec (byteOf c) 57); [|lia]. reflexivity.
Qed.

Lemma asciiSpace_digitChar c : digitChar c -> strings.asciiSpace c = false.
Proof.
  intros [H1 H2]. unfold strings.asciiSpace.
  destruct (Z.leb_spec 9 (byteOf c)), (Z.leb_spec (byteOf c) 13),
    (Z.eqb_spec (byteOf c) 32); try lia; reflexivity.
Qed.

Lemma space2_low b0 b1 : b0 < 128 -> strings.space2 b0 b1 = false.
Proof.
  intros H. unfold strings.space2.
  destruct (Z.eqb_spec b0 194); [lia|reflexivity].
Qed.

Lemma space3_low b0 b1 b2 : b0 < 128 -> strings.space3 b0 b1 b2 = false.
Proof.
  intros H. unfold strings.space3.
  destruct (Z.eqb_spec b0 225), (Z.eqb_spec b0 226), (Z.eqb_spec b0 227);
    try lia; reflexivity.
Qed.

Lemma space2_last_low b0 b1 : b1 < 128 -> strings.space2 b0 b1 = false.
Proof.
  intros H. unfold strings.space2.
  destruct (Z.eqb_spec b1 133), (Z.eqb_spec b1 160); try lia;
    cbn; apply andb_false_r.
Qed.

Lemma space3_last_low b0 b1 b2 : b2 < 128 -> strings.space3 b0 b1 b2 = false.
Proof.
  intros H. unfold strings.space3.
  destruct (Z.eqb_spec b2 128), (Z.leb_spec 128 b2), (Z.eqb_spec b2 168),
    (Z.eqb_spec b2 169), (Z.eqb_spec b2 175), (Z.eqb_spec b2 159); try lia;
    cbn; now rewrite !andb_false_r.
Qed.

Lemma spaceWidth_digit c rest : digitChar c -> strings.spaceWidth (c :: rest) = 0%nat.
Proof.
  intros H. pose proof (asciiSpace_digitChar c H) as Hs. destruct H as [H1 H2].
  unfold strings.spaceWidth. rewrite Hs.
  destruct rest as [|d [|e rest]]; [reflexivity|..];
    rewrite space2_low by lia; [reflexivity|].
  now rewrite space3_low by lia.
Qed.

Lemma lastSpaceWidth_digit c rest : digitChar c -> strings.lastSpaceWidth (c :: rest) = 0%nat.
Proof.
  intros H. pose proof (asciiSpace_digitChar c H) as Hs. destruct H as [H1 H2].
  unfold strings.lastSpaceWidth. rewrite Hs.
  destruct rest as [|d [|e rest]]; [reflexivity|..];
    rewrite space2_last_low by lia; [reflexivity|].
  now rewrite space3_last_low by lia.
Qed.

Lemma TrimSpace_digitEnds s : digitEnds s -> strings.TrimSpace s = s.
Proof.
  intros [(c & rest & -> & Hc) (front & c' & E & Hc')]. unfold strings.TrimSpace.
  assert (strings.trimFrom strings.spaceWidth 0 (c :: rest) = c :: rest) as ->.
  { cbn [strings.trimFrom]. now rewrite spaceWidth_digit. }
  rewrite E, rev_app_distr. cbn [rev app].
  assert (strings.trimFrom strings.lastSpaceWidth 0 (c' :: rev front) = c' :: rev front) as ->.
  { cbn [strings.trimFrom]. now rewrite lastSpaceWidth_digit. }
  cbn [rev]. now rewrite rev_involutive.
Qed.

Lemma TrimSpace_digitEnds_newline s :
  digitEnds s -> strings.TrimSpace (s ++ ["010"%char]) = s.
Proof.
  intros [(c & rest & -> & Hc) (front & c' & E & Hc')]. unfold strings.TrimSpace.
  assert (strings.trimFrom strings.spaceWidth 0 ((c :: rest) ++ ["010"%char])
          = (c :: rest) ++ ["010"%char]) as ->.
  { cbn [strings.trimFrom app]. now rewrite spaceWidth_digit. }
  rewrite E, !rev_app_distr. cbn [rev app].
  assert (strings.trimFrom strings.lastSpaceWidth 0 ("010"%char :: c' :: rev front)
          = c' :: rev front) as ->.
  { cbn [strings.trimFrom].
    change (strings.lastSpaceWidth ("010"%char :: c' :: rev front)) with 1%nat.
    cbn [strings.trimFrom]. now rewrite lastSpaceWidth_digit. }
  cbn [rev]. now rewrite rev_involutive.
Qed.

Lemma splitFrom_piece sep piece s rest :
  Forall (fun c => c <> sep) s ->
  strings.splitFrom sep piece (s ++ rest) = strings.splitFrom sep (piece ++ s) rest.
Proof.
  revert piece. induction s as [|c s IH]; intros piece H.
  - now rewrite app_nil_r.
  - apply Forall_cons in H as [Hc Hs]. cbn [app strings.splitFrom].
    destruct (Ascii.eqb_spec c sep); [contradiction|].
    rewrite IH by assumption. now rewrite <- app_assoc.
Qed.

Lemma Split_joinLines line lines :
  Forall (Forall (fun c => c <> "010"%char)) (line :: lines) ->
  strings.Split (joinLines (line :: lines)) "010"%char = line :: lines.
Proof.
  unfold strings.Split. revert line. induction lines as [|next lines IH]; intros line H.
  - apply Forall_cons in H as [H _]. cbn [joinLines].
    rewrite <- (app_nil_r line) at 1. rewrite splitFrom_piece by assumption. reflexivity.
  - apply Forall_cons in H as [H Hrest].
    change (joinLines (line :: next :: lines))
      with (line ++ "010"%char :: joinLines (next :: lines)).
    rewrite splitFrom_piece by assumption. cbn [strings.splitFrom app].
    change (Ascii.eqb "010" "010") with true. cbn iota. f_equal. now apply IH.
Qed.

Lemma concat_lines_joinLines line lines :
  concat (map (fun l => l ++ ["010"%char]) (line :: lines))
  = joinLines (line :: lines) ++ ["010"%char].
Proof.
  revert line. induction lines as [|next lines IH]; intros line.
  - cbn. now rewrite app_nil_r.
  - change (joinLines (line :: next :: lines))
      with (line ++ "010"%char :: joinLines (next :: lines)).
    cbn [map concat] in *. rewrite IH. now rewrite <- !app_assoc.
Qed.

Lemma joinLines_digitEnds line lines :
  Forall digitEnds (line :: lines) -> digitEnds (joinLines (line :: lines)).
Proof.
  revert line. induction lines as [|next lines IH]; intros line H.
  - now apply Forall_cons in H as [H _].
  - apply Forall_cons in H as [[(c & rest & -> & Hc) _] Hrest].
    destruct (IH next Hrest) as [_ (front & c' & E & Hc')].
    change (joinLines ((c :: rest) :: next :: lines))
      with ((c :: rest) ++ "010"%char :: joinLines (next :: lines)).
    split.
    + exists c, (rest ++ "010"%char :: joinLines (next :: lines)). now split.
    + exists ((c :: rest) ++ "010"%char :: front), c'. split; [|assumption].
      rewrite E. now rewrite <- app_assoc.
Qed.

Lemma fieldsFrom_digits field s rest :
  Forall digitChar s ->
  strings.fieldsFrom 0 field (s ++ rest) = strings.fieldsFrom 0 (field ++ s) rest.
Proof.
  revert field. induction s as [|c s IH]; intros field H.
  - now rewrite app_nil_r.
  - apply Forall_cons in H as [Hc Hs]. cbn [app strings.fieldsFrom].
    rewrite spaceWidth_digit by assumption.
    rewrite IH by assumption. now rewrite <- app_assoc.
Qed.

Lemma fieldsFrom_blank field rest :
  strings.fieldsFrom 0 field (" "%char :: rest)
  = strings.flush field ++ strings.fieldsFrom 0 [] rest.
Proof. reflexivity. Qed.

Lemma fieldsFrom_digits_end field s :
  Forall digitChar s -> strings.fieldsFrom 0 field s = strings.flush (field ++ s).
Proof.
  intros H. rewrite <- (app_nil_r s) at 1. now rewrite fieldsFrom_digits.
Qed.

Lemma Fields_four a b c d :
  Forall digitChar a -> Forall digitChar b -> Forall digitChar c -> Forall digitChar d ->
  a <> [] -> b <> [] -> c <> [] -> d <> [] ->
  strings.Fields (a ++ " "%char :: b ++ " "%char :: c ++ " "%char :: d) = [a; b; c; d].
Proof.
  intros Ha Hb Hc Hd Na Nb Nc Nd. unfold strings.Fields.
  rewrite fieldsFrom_digits, fieldsFrom_blank by assumption.
  rewrite fieldsFrom_digits, fieldsFrom_blank by assumption.
  rewrite fieldsFrom_digits, fieldsFrom_blank by assumption.
  rewrite fieldsFrom_digits_end by assumption. cbn [app].
  destruct a; [contradiction|]. destruct b; [contradiction|].
  destruct c; [contradiction|]. destruct d; [contradiction|]. reflexivity.
Qed.

Lemma of_uint_acc_ge d acc : (acc <= Pos.of_uint_acc d acc)%positive.
Proof.
  revert acc. induction d; intros acc; cbn [Pos.of_uint_acc]; [lia|..];
    (etransitivity; [|apply IHd]); lia.
Qed.

Lemma cutoff_bound n maxVal : maxVal < 2 ^ 64 -> n * 10 <= maxVal -> n < strconv.cutoff.
Proof.
  intros H1 H2. unfold strconv.cutoff.
  change ((2 ^ 64 - 1) / 10 + 1) with 1844674407370955162.
  change (2 ^ 64) with 18446744073709551616 in H1. lia.
Qed.

Lemma parseDigits_of_uint_acc maxVal d acc :
  maxVal < 2 ^ 64 -> Z.pos (Pos.of_uint_acc d acc) <= maxVal ->
  strconv.parseDigits maxVal (Z.pos acc)
    (list_ascii_of_string (DecimalString.NilEmpty.string_of_uint d))
  = inr (Z.pos (Pos.of_uint_acc d acc)).
Proof.
  intros Hmax. revert acc.
  induction d; intros acc H; [reflexivity|..];
    cbn [DecimalString.NilEmpty.string_of_uint list_ascii_of_string
         strconv.parseDigits Pos.of_uint_acc] in *;
    (match goal with
     | |- context [strconv.digit ?c] =>
         change (strconv.digit c) with (Some (byteOf c - 48)); cbn iota beta
     end);
    (match goal with
     | H : Z.pos (Pos.of_uint_acc d ?a) <= _ |- _ =>
         pose proof (of_uint_acc_ge d a) as Hge
     end);
    (destruct (Z.leb_spec strconv.cutoff (Z.pos acc)) as [Hc|_];
     [pose proof (cutoff_bound (Z.pos acc) maxVal Hmax ltac:(lia)); lia|]);
    cbn zeta;
    (match goal with
     | |- context [maxVal <? ?n1] =>
         destruct (Z.ltb_spec maxVal n1) as [Hlt|_];
         [vm_compute byteOf in Hlt; lia|]
     end);
    rewrite <- IHd by assumption; f_equal; vm_compute byteOf; lia.
Qed.

Lemma parseDigits_of_uint maxVal d :
  0 <= maxVal < 2 ^ 64 -> Z.of_N (Pos.of_uint d) <= maxVal ->
  strconv.parseDigits maxVal 0
    (list_ascii_of_string (DecimalString.NilEmpty.string_of_uint d))
  = inr (Z.of_N (Pos.of_uint d)).
Proof.
  intros [H0 Hmax].
  induction d; intros H; [reflexivity|..];
    cbn [DecimalString.NilEmpty.string_of_uint list_ascii_of_string
         strconv.parseDigits Pos.of_uint] in *;
    (match goal with
     | |- context [strconv.digit ?c] =>
         change (strconv.digit c) with (Some (byteOf c - 48)); cbn iota beta
     end);
    change (strconv.cutoff <=? 0) with false; cbn iota zeta;
    vm_compute (0 * 10 + _);
    [destruct (Z.ltb_spec maxVal 0) as [Hlt|_]; [lia|]; now apply IHd|..];
    (match goal with
     | |- context [Pos.of_uint_acc d ?a] => pose proof (of_uint_acc_ge d a) as Hge
     end);
    (match goal with
     | |- context [maxVal <? ?n1] =>
         destruct (Z.ltb_spec maxVal n1) as [Hlt|_]; [lia|]
     end);
    now apply parseDigits_of_uint_acc.
Qed.

Lemma string_of_uint_digitChars d :
  Forall digitChar (list_ascii_of_string (DecimalString.NilEmpty.string_of_uint d)).
Proof.
  induction d; cbn; [constructor|..];
    (apply Forall_cons_2; [unfold digitChar; vm_compute byteOf; lia|assumption]).
Qed.

(** [%d] of a natural number: its digits, at least one. *)
Lemma fmtDec_digits n :
  0 <= n ->
  Forall digitChar (list_ascii_of_string (fmtDec n))
  /\ list_ascii_of_string (fmtDec n) <> [].
Proof.
  intros Hn. unfold fmtDec. destruct n as [|p|p]; [| |lia].
  - split; [|discriminate].
    apply Forall_cons_2; [unfold digitChar; vm_compute byteOf; lia|constructor].
  - cbn [Z.to_int DecimalString.NilZero.string_of_int].
    pose proof (DecimalPos.Unsigned.to_uint_nonnil p) as Hnil.
    unfold DecimalString.NilZero.string_of_uint.
    destruct (Pos.to_uint p) eqn:E; try contradiction;
      (split; [rewrite <- E; apply string_of_uint_digitChars|discriminate]).
Qed.

Lemma digits_digitEnds s : Forall digitChar s -> s <> [] -> digitEnds s.
Proof.
  intros H N. split.
  - destruct s as [|c rest]; [contradiction|]. apply Forall_cons in H as [Hc _]. eauto.
  - destruct (exists_last N) as (front & c & ->). apply Forall_app in H as [_ H].
    apply Forall_cons in H as [Hc _]. eauto.
Qed.

Lemma ParseUint_fmtDec n bitSize :
  0 <= bitSize <= 64 -> 0 <= n < 2 ^ bitSize ->
  strconv.ParseUint (list_ascii_of_string (fmtDec n)) bitSize = inr n.
Proof.
  intros Hb Hn.
  assert (0 <= 2 ^ bitSize - 1 < 2 ^ 64) as Hmax.
  { pose proof (Z.pow_le_mono_r 2 bitSize 64 ltac:(lia) ltac:(lia)). lia. }
  destruct (fmtDec_digits n ltac:(lia)) as [_ N].
  unfold strconv.ParseUint. destruct (list_ascii_of_string (fmtDec n)) eqn:E; [contradiction|].
  rewrite <- E. clear E N. unfold fmtDec. destruct n as [|p|p]; [| |lia].
  - cbn. change (strconv.digit "0") with (Some 0). cbn iota beta.
    change (strconv.cutoff <=? 0) with false. cbn iota zeta.
    change (0 * 10 + 0) with 0.
    destruct (Z.ltb_spec (2 ^ bitSize - 1) 0); [lia|reflexivity].
  - cbn [Z.to_int DecimalString.NilZero.string_of_int].
    pose proof (DecimalPos.Unsigned.to_uint_nonnil p) as Hnil.
    pose proof (DecimalPos.Unsigned.of_to p) as Hof.
    unfold DecimalString.NilZero.string_of_uint.
    assert (strconv.parseDigits (2 ^ bitSize - 1) 0
              (list_ascii_of_string (DecimalString.NilEmpty.string_of_uint (Pos.to_uint p)))
            = inr (Z.pos p)) as Hp.
    { rewrite parseDigits_of_uint; [now rewrite Hof|assumption|rewrite Hof; cbn; lia]. }
    destruct (Pos.to_uint p); [contradiction|..]; exact Hp.
Qed.

Lemma Atoi_fmtDec intSize n :
  intSize = 32 \/ intSize = 64 -> 0 <= n < 2 ^ (intSize - 1) ->
  strconv.Atoi intSize (list_ascii_of_string (fmtDec n)) = inr n.
Proof.
  intros Hi Hn.
  assert (0 <= intSize <= 64 /\ 0 <= n < 2 ^ intSize) as [Hs Hn'].
  { destruct Hi as [-> | ->];
      [change (2 ^ (32 - 1)) with 2147483648 in Hn; change (2 ^ 32) with 4294967296
      |change (2 ^ (64 - 1)) with 9223372036854775808 in Hn;
       change (2 ^ 64) with 18446744073709551616]; lia. }
  destruct (fmtDec_digits n ltac:(lia)) as [Hd N].
  pose proof (ParseUint_fmtDec n intSize Hs Hn') as Hp.
  unfold strconv.Atoi. destruct (list_ascii_of_string (fmtDec n)) as [|c rest] eqn:E;
    [contradiction|].
  apply Forall_cons in Hd as [[Hc1 Hc2] _].
  destruct (Ascii.eqb_spec c "+") as [->|_];
    [change (byteOf "+") with 43 in Hc1; lia|].
  destruct (Ascii.eqb_spec c "-") as [->|_];
    [change (byteOf "-") with 45 in Hc1; lia|].
  cbn [orb negb andb]. rewrite Hp.
  destruct (Z.leb_spec (2 ^ (intSize - 1)) n); [lia|reflexivity].
Qed.

Ltac flatten_app := repeat (rewrite <- !app_assoc || rewrite <- !app_comm_cons).

Lemma instructionLine_bytes inst :
  list_ascii_of_string (instructionLine inst) = lineBytes inst ++ ["010"%char].
Proof.
  unfold instructionLine, lineBytes, decBytes.
  rewrite !list_ascii_of_string_app. cbn [list_ascii_of_string].
  flatten_app. reflexivity.
Qed.

Lemma mockOutput_fold instructions start :
  list_ascii_of_string
    (fold_left (fun out inst => (out ++ instructionLine inst)%string) instructions start)
  = list_ascii_of_string start
    ++ concat (map (fun l => l ++ ["010"%char]) (map lineBytes instructions)).
Proof.
  revert start. induction instructions as [|inst instructions IH]; intros start.
  - cbn. now rewrite app_nil_r.
  - cbn [fold_left map concat]. rewrite IH, list_ascii_of_string_app, instructionLine_bytes.
    now rewrite <- !app_assoc.
Qed.

Lemma mockOutput_bytes instructions :
  list_ascii_of_string (mockOutput instructions)
  = joinLines (decBytes (len instructions) :: map lineBytes instructions) ++ ["010"%char].
Proof.
  unfold mockOutput. rewrite mockOutput_fold, list_ascii_of_string_app.
  rewrite <- concat_lines_joinLines. reflexivity.
Qed.

Lemma digitChar_not c x : digitChar c -> (byteOf x < 48 \/ 57 < byteOf x) -> c <> x.
Proof. intros [H1 H2] Hx ->. lia. Qed.

Lemma decBytes_facts n :
  0 <= n ->
  Forall digitChar (decBytes n) /\ decBytes n <> [] /\ digitEnds (decBytes n)
  /\ Forall (fun c => c <> "010"%char) (decBytes n).
Proof.
  intros Hn. destruct (fmtDec_digits n Hn) as [Hd N]. fold (decBytes n) in Hd, N.
  split; [assumption|]. split; [assumption|]. split; [now apply digits_digitEnds|].
  eapply Forall_impl; [exact Hd|]. intros c Hc. apply digitChar_not; [assumption|].
  left. reflexivity.
Qed.

Lemma lineBytes_facts inst :
  inRange inst ->
  digitEnds (lineBytes inst) /\ Forall (fun c => c <> "010"%char) (lineBytes inst).
Proof.
  intros (Hc & Ht & Hf & Hk).
  destruct (decBytes_facts (tcpdump.Code inst) ltac:(lia)) as (_ & _ & [Hstart _] & Nc).
  destruct (decBytes_facts (tcpdump.JT inst) ltac:(lia)) as (_ & _ & _ & Nt).
  destruct (decBytes_facts (tcpdump.JF inst) ltac:(lia)) as (_ & _ & _ & Nf).
  destruct (decBytes_facts (tcpdump.K inst) ltac:(lia)) as (_ & _ & [_ Hend] & Nk).
  unfold lineBytes. split; [split|].
  - destruct Hstart as (c & rest & -> & H). eexists c, _. split; [reflexivity|assumption].
  - destruct Hend as (front & c & -> & H).
    exists (decBytes (tcpdump.Code inst) ++ " "%char :: decBytes (tcpdump.JT inst)
            ++ " "%char :: decBytes (tcpdump.JF inst) ++ " "%char :: front), c.
    split; [|assumption].
    flatten_app. reflexivity.
  - repeat (apply Forall_app; split; [assumption|]; apply Forall_cons_2; [discriminate|]).
    assumption.
Qed.

Lemma uint16_small z : 0 <= z < 2 ^ 16 -> uint16 z = z.
Proof. intros H. unfold uint16. now apply Z.mod_small. Qed.

Lemma uint32_in_range z : 0 <= z < 2 ^ 32 -> uint32 z = z.
Proof. intros H. unfold uint32. now apply Z.mod_small. Qed.

Lemma uint8_small z : 0 <= z < 2 ^ 8 -> uint8 z = z.
Proof. intros H. unfold uint8. now apply Z.mod_small. Qed.

Lemma parseInstruction_lineBytes i inst :
  inRange inst -> parseInstruction i (lineBytes inst) = inr inst.
Proof.
  intros Hr. destruct (lineBytes_facts inst Hr) as [He _].
  destruct Hr as (Hc & Ht & Hf & Hk).
  destruct (decBytes_facts (tcpdump.Code inst) ltac:(lia)) as (Dc & Nc & _).
  destruct (decBytes_facts (tcpdump.JT inst) ltac:(lia)) as (Dt & Nt & _).
  destruct (decBytes_facts (tcpdump.JF inst) ltac:(lia)) as (Df & Nf & _).
  destruct (decBytes_facts (tcpdump.K inst) ltac:(lia)) as (Dk & Nk & _).
  unfold parseInstruction. rewrite TrimSpace_digitEnds by assumption.
  unfold lineBytes. rewrite Fields_four by assumption.
  unfold decBytes.
  rewrite (ParseUint_fmtDec _ 16) by lia.
  rewrite (ParseUint_fmtDec _ 8) by lia.
  rewrite (ParseUint_fmtDec _ 8) by lia.
  rewrite (ParseUint_fmtDec _ 32) by lia.
  rewrite uint16_small, !uint8_small, uint32_in_range by lia.
  now destruct inst.
Qed.

Lemma parseFrom_lineBytes front instructions acc :
  Forall inRange instructions ->
  parseFrom (front ++ map lineBytes instructions) (length front) (length instructions) acc
  = Some (inr (acc ++ instructions)).
Proof.
  revert front acc. induction instructions as [|inst instructions IH]; intros front acc H.
  - cbn. now rewrite app_nil_r.
  - apply Forall_cons in H as [Hi H]. cbn [length parseFrom map].
    rewrite lookup_app_r by lia. rewrite Nat.sub_diag. cbn [lookup list_lookup].
    rewrite parseInstruction_lineBytes by assumption.
    specialize (IH (front ++ [lineBytes inst]) (acc ++ [inst]) H).
    rewrite length_app in IH. cbn [length] in IH.
    replace (length front + 1)%nat with (S (length front)) in IH by lia.
    rewrite <- !app_assoc in IH. exact IH.
Qed.

Lemma int_small intSize z :
  intSize = 32 \/ intSize = 64 -> 0 <= z < 2 ^ 31 -> int intSize z = z.
Proof.
  intros Hi Hz. change (2 ^ 31) with 2147483648 in Hz. unfold int.
  destruct Hi as [-> | ->];
    [change (2 ^ (32 - 1)) with 2147483648; change (2 ^ 32) with 4294967296
    |change (2 ^ (64 - 1)) with 9223372036854775808;
     change (2 ^ 64) with 18446744073709551616];
    rewrite Z.mod_small; lia.
Qed.

(** X20: the text that generateMockBPF writes for a list of instructions is
    read back by parseTcpdumpOutput as that same list: for instructions whose
    fields lie in the ranges of their types (and fewer than 2^31 - 1 of
    them), on a platform with a 32-bit or a 64-bit int, the parser returns
    the instructions without an error. *)
Theorem parseTcpdumpOutput_mockOutput intSize instructions :
  intSize = 32 \/ intSize = 64 ->
  len instructions < 2 ^ 31 - 1 ->
  Forall inRange instructions ->
  parseTcpdumpOutput intSize (mockOutput instructions) = Some (inr instructions).
Proof.
  intros Hi Hlen Hr. unfold len in Hlen. change (2 ^ 31) with 2147483648 in Hlen.
  set (n := Z.of_nat (length instructions)) in *.
  assert (0 <= n) as Hn by lia.
  destruct (decBytes_facts n Hn) as (_ & _ & He & Hnl).
  assert (Forall digitEnds (decBytes n :: map lineBytes instructions)) as Hends.
  { apply Forall_cons_2; [assumption|]. apply Forall_map.
    eapply Forall_impl; [exact Hr|]. intros inst H. now apply lineBytes_facts. }
  assert (Forall (Forall (fun c => c <> "010"%char))
            (decBytes n :: map lineBytes instructions)) as Hfree.
  { apply Forall_cons_2; [assumption|]. apply Forall_map.
    eapply Forall_impl; [exact Hr|]. intros inst H. now apply lineBytes_facts. }
  unfold parseTcpdumpOutput. rewrite mockOutput_bytes. change (len instructions) with n.
  rewrite TrimSpace_digitEnds_newline by now apply joinLines_digitEnds.
  rewrite Split_joinLines by assumption.
  assert (len (decBytes n :: map lineBytes instructions) = n + 1) as Hlines.
  { unfold len. cbn [length]. rewrite length_map. lia. }
  rewrite Hlines. destruct (Z.eqb_spec (n + 1) 0) as [|_]; [lia|].
  change (index (decBytes n :: map lineBytes instructions) 0) with (Some (decBytes n)).
  cbn iota.
  rewrite TrimSpace_digitEnds by assumption.
  unfold decBytes at 1. rewrite Atoi_fmtDec.
  - rewrite int_small by (try assumption; change (2 ^ 31) with 2147483648; lia).
    rewrite Z.eqb_refl. cbn [negb].
    unfold n. rewrite Nat2Z.id.
    exact (parseFrom_lineBytes [decBytes (Z.of_nat (length instructions))] instructions [] Hr).
  - assumption.
  - destruct Hi as [-> | ->];
      [change (2 ^ (32 - 1)) with 2147483648
      |change (2 ^ (64 - 1)) with 9223372036854775808]; lia.
Qed.

Lemma mockInstruction_inRange code jt jf k :
  0 <= code < 2 ^ 16 -> 0 <= jt < 2 ^ 8 -> 0 <= jf < 2 ^ 8 -> 0 <= k < 2 ^ 32 ->
  inRange (mockInstruction code jt jf k).
Proof. intros. repeat split; cbn; lia. Qed.

Lemma parseTcpdumpOutput_mockOutput_tcp_port_80 :
  (64 = 32 \/ 64 = 64)
  /\ len (mockInstructions tcpPort80) < 2 ^ 31 - 1
  /\ Forall inRange (mockInstructions tcpPort80)
  /\ parseTcpdumpOutput 64 (mockOutput (mockInstructions tcpPort80))
     = Some (inr (mockInstructions tcpPort80)).
Proof.
  assert (64 = 32 \/ 64 = 64) as Hi by (right; reflexivity).
  assert (len (mockInstructions tcpPort80) < 2 ^ 31 - 1) as Hlen by reflexivity.
  assert (Forall inRange (mockInstructions tcpPort80)) as Hr.
  { repeat (apply Forall_cons_2; [apply mockInstruction_inRange; lia|]). constructor. }
  split; [exact Hi|]. split; [exact Hlen|]. split; [exact Hr|].
  exact (parseTcpdumpOutput_mockOutput 64 (mockInstructions tcpPort80) Hi Hlen Hr).
Defined.

Lemma splitFrom_nonempty sep piece s : strings.splitFrom sep piece s <> [].
Proof.
  revert piece. induction s as [|c s IH]; intros piece; cbn; [discriminate|].
  destruct (Ascii.eqb c sep); [discriminate|apply IH].
Qed.

Lemma parseDigits_nonneg maxVal n s v :
  0 <= n -> strconv.parseDigits maxVal n s = inr v -> 0 <= v.
Proof.
  revert n. induction s as [|c s IH]; intros n Hn H; cbn in H.
  - injection H as <-. assumption.
  - unfold strconv.digit in H.
    destruct ((48 <=? byteOf c) && (byteOf c <=? 57)) eqn:Hd; [|discriminate].
    apply andb_prop in Hd as [H1 H2]. apply Z.leb_le in H1, H2.
    destruct (strconv.cutoff <=? n); [discriminate|].
    destruct (maxVal <? n * 10 + (byteOf c - 48)); [discriminate|].
    apply IH in H; [assumption|lia].
Qed.

Lemma Atoi_range intSize s n :
  1 <= intSize ->
  strconv.Atoi intSize s = inr n -> - 2 ^ (intSize - 1) <= n < 2 ^ (intSize - 1).
Proof.
  intros Hi. pose proof (Z.pow_pos_nonneg 2 (intSize - 1) ltac:(lia) ltac:(lia)) as Hpos.
  unfold strconv.Atoi. destruct s as [|c rest]; [discriminate|].
  set (digits := if Ascii.eqb c "+" || Ascii.eqb c "-" then rest else c :: rest).
  destruct (strconv.ParseUint digits intSize) as [e|un] eqn:Hp; [discriminate|].
  assert (0 <= un) as Hun.
  { unfold strconv.ParseUint in Hp. destruct digits; [discriminate|].
    eapply parseDigits_nonneg; [|exact Hp]. lia. }
  destruct (Ascii.eqb c "-"); cbn [negb andb].
  - destruct (Z.ltb_spec (2 ^ (intSize - 1)) un) as [|Hle]; [discriminate|].
    intros E. injection E as <-. lia.
  - destruct (Z.leb_spec (2 ^ (intSize - 1)) un) as [|Hlt]; [discriminate|].
    intros E. injection E as <-. lia.
Qed.

Lemma parseInstruction_result i text inst :
  parseInstruction i text = inr inst -> inRange inst.
Proof.
  unfold parseInstruction.
  destruct (strings.Fields (strings.TrimSpace text)) as [|p0 [|p1 [|p2 [|p3 [|? ?]]]]];
    try discriminate.
  destruct (strconv.ParseUint p0 16); [discriminate|].
  destruct (strconv.ParseUint p1 8); [discriminate|].
  destruct (strconv.ParseUint p2 8); [discriminate|].
  destruct (strconv.ParseUint p3 32); [discriminate|].
  intros H. injection H as <-. unfold inRange, uint16, uint8, uint32. cbn.
  repeat split; apply Z.mod_pos_bound; reflexivity.
Qed.

Lemma parseInstruction_error i text : parseInstruction i text <> inl EmptyOutput.
Proof.
  unfold parseInstruction.
  destruct (strings.Fields (strings.TrimSpace text)) as [|p0 [|p1 [|p2 [|p3 [|? ?]]]]];
    try discriminate.
  destruct (strconv.ParseUint p0 16); [discriminate|].
  destruct (strconv.ParseUint p1 8); [discriminate|].
  destruct (strconv.ParseUint p2 8); [discriminate|].
  destruct (strconv.ParseUint p3 32); discriminate.
Qed.

Lemma parseFrom_in_range lines i count acc :
  (i + count <= length lines)%nat ->
  parseFrom lines i count acc <> None
  /\ parseFrom lines i count acc <> Some (inl EmptyOutput)
  /\ forall l, parseFrom lines i count acc = Some (inr l) ->
       (length l = length acc + count)%nat /\ (Forall inRange acc -> Forall inRange l).
Proof.
  revert i acc. induction count as [|count IH]; intros i acc Hi; cbn [parseFrom].
  - split; [discriminate|]. split; [discriminate|].
    intros l H. injection H as <-. split; [lia|tauto].
  - destruct (lookup_lt_is_Some_2 lines i ltac:(lia)) as [text ->].
    destruct (parseInstruction (Z.of_nat i) text) as [e|inst] eqn:Hp.
    + split; [discriminate|]. split; [|discriminate].
      intros H. injection H as ->. now apply parseInstruction_error in Hp.
    + destruct (IH (S i) (acc ++ [inst]) ltac:(lia)) as (H1 & H2 & H3).
      split; [assumption|]. split; [assumption|].
      intros l H. destruct (H3 l H) as [Hl Hr]. rewrite length_app in Hl. cbn in Hl.
      split; [lia|]. intros Hacc. apply Hr. apply Forall_app. split; [assumption|].
      apply Forall_cons_2; [|constructor]. now apply parseInstruction_result in Hp.
Qed.

Lemma int_no_wrap intSize n z :
  intSize = 32 \/ intSize = 64 ->
  - 2 ^ (intSize - 1) <= n < 2 ^ (intSize - 1) ->
  0 < z -> z = int intSize (n + 1) -> z = n + 1.
Proof.
  intros Hi Hn Hz ->. unfold int in *.
  destruct Hi as [-> | ->];
    [change (2 ^ (32 - 1)) with 2147483648 in *; change (2 ^ 32) with 4294967296 in *
    |change (2 ^ (64 - 1)) with 9223372036854775808 in *;
     change (2 ^ 64) with 18446744073709551616 in *];
    match goal with
    | |- ?a mod ?m - _ = _ =>
        destruct (Z.eq_dec a m) as [E|E];
        [rewrite E, Z.mod_same in Hz by lia; lia|rewrite Z.mod_small by lia; lia]
    end.
Qed.

(** X21: parseTcpdumpOutput, on a platform with a 32-bit or a 64-bit int and
    for every output text, never panics (its indexing of the lines stays
    inside the slice) and never returns the error "empty tcpdump output" (a
    split text has at least one piece); when it returns instructions, they
    are one per line after the first, and every field lies in the range of
    its type. *)
Theorem parseTcpdumpOutput_total intSize output :
  intSize = 32 \/ intSize = 64 ->
  parseTcpdumpOutput intSize output <> None
  /\ parseTcpdumpOutput intSize output <> Some (inl EmptyOutput)
  /\ forall instructions,
       parseTcpdumpOutput intSize output = Some (inr instructions) ->
       len instructions + 1
       = len (strings.Split (strings.TrimSpace (list_ascii_of_string output)) "010"%char)
       /\ Forall inRange instructions.
Proof.
  intros Hi. unfold parseTcpdumpOutput.
  set (lines := strings.Split (strings.TrimSpace (list_ascii_of_string output)) "010"%char).
  pose proof (splitFrom_nonempty "010"%char [] (strings.TrimSpace (list_ascii_of_string output)))
    as Hne.
  fold (strings.Split (strings.TrimSpace (list_ascii_of_string output)) "010"%char) in Hne.
  fold lines in Hne. destruct lines as [|first rest]; [contradiction|].
  assert (len (first :: rest) = Z.of_nat (length rest) + 1) as Hlen
    by (unfold len; cbn [length]; lia).
  rewrite Hlen. destruct (Z.eqb_spec (Z.of_nat (length rest) + 1) 0) as [|_]; [lia|].
  change (index (first :: rest) 0) with (Some first). cbn iota.
  destruct (strconv.Atoi intSize (strings.TrimSpace first)) as [e|n] eqn:Ha.
  { split; [discriminate|]. split; discriminate. }
  apply Atoi_range in Ha; [|destruct Hi as [-> | ->]; lia].
  destruct (Z.eqb_spec (Z.of_nat (length rest) + 1) (int intSize (n + 1))) as [E|_];
    cbn [negb]; [|split; [discriminate|]; split; discriminate].
  assert (n = Z.of_nat (length rest)) as ->.
  { apply (int_no_wrap intSize n) in E; [lia|assumption|assumption|lia]. }
  rewrite Nat2Z.id.
  destruct (parseFrom_in_range (first :: rest) 1 (length rest) [] ltac:(cbn; lia))
    as (H1 & H2 & H3).
  split; [assumption|]. split; [assumption|].
  intros instructions H. destruct (H3 _ H) as [Hl Hr]. cbn in Hl.
  split; [unfold len; lia|]. apply Hr. constructor.
Qed.

Lemma parseTcpdumpOutput_total_empty_text :
  (64 = 32 \/ 64 = 64)
  /\ parseTcpdumpOutput 64 "" <> None
  /\ parseTcpdumpOutput 64 "" <> Some (inl EmptyOutput)
  /\ forall instructions,
       parseTcpdumpOutput 64 "" = Some (inr instructions) ->
       len instructions + 1
       = len (strings.Split (strings.TrimSpace (list_ascii_of_string "")) "010"%char)
       /\ Forall inRange instructions.
Proof.
  split; [right; reflexivity|].
  apply (parseTcpdumpOutput_total 64 ""). right. reflexivity.
Defined.

(** X22: for every filter expression the classifier tags the mock program,
    instruction by instruction, as the ethertype gate, a protocol gate when
    the expression contains "tcp" or "udp", the fragment and header-length
    stage with one port load when it contains "port" (the load at [x + 14],
    tagged as a source-port load) and one port check when it also contains
    "80" (tagged as a destination-port check), and the two returns; so the
    mock holds between 4 and 11 instructions, InstructionCount is their
    number, every field lies in the range of its type, and no instruction is
    tagged as an address load or check. *)
Theorem mock_program_tags filterExpr :
  let code := generateMockBPF filterExpr in
  map Type_ (analyzeTcpdumpSemantics (tcpdump.Instructions code)) = mockTags filterExpr
  /\ tcpdump.InstructionCount code = len (mockTags filterExpr)
  /\ 4 <= tcpdump.InstructionCount code <= 11
  /\ tcpdump.IsMocked code = true
  /\ Forall inRange (tcpdump.Instructions code)
  /\ Forall (fun t => ~ In t [LoadSourceIP; CheckSourceIP; LoadDestIP; CheckDestIP])
            (mockTags filterExpr).
Proof.
  unfold generateMockBPF, mockInstructions, mockTags.
  cbn [tcpdump.Instructions tcpdump.InstructionCount tcpdump.IsMocked].
  destruct (Contains filterExpr "tcp"), (Contains filterExpr "udp"),
    (Contains filterExpr "port"), (Contains filterExpr "80");
    (split; [reflexivity|]); (split; [reflexivity|]);
    (split; [split; discriminate|]); (split; [reflexivity|]);
    (split;
     [repeat (apply Forall_cons_2; [apply mockInstruction_inRange; lia|]); constructor
     |repeat (apply Forall_cons_2; [cbn; intuition discriminate|]); constructor]).
Qed.

(** X23: in every mock program some conditional jump has a branch offset
    that leads past the last instruction: the false branch of the ethertype
    check (position 1, offset 8, target 10) unless the program has all 11
    instructions, and then the true branch of the port check (position 8,
    offset 2, target 11). *)
Theorem mock_program_branch_past_end filterExpr :
  let prog := mockInstructions filterExpr in
  exists i inst,
    index prog i = Some inst
    /\ isConditional inst = true
    /\ (len prog <= branchTarget i (tcpdump.JT inst)
        \/ len prog <= branchTarget i (tcpdump.JF inst)).
Proof.
  unfold mockInstructions.
  destruct (Contains filterExpr "tcp") eqn:Htcp;
    [|destruct (Contains filterExpr "udp") eqn:Hudp];
    (destruct (Contains filterExpr "port") eqn:Hport;
     [destruct (Contains filterExpr "80") eqn:H80|]);
    cbn zeta;
    first
      [ exists 1; eexists; split; [reflexivity|]; split; [reflexivity|];
        right; vm_compute; discriminate
      | exists 8; eexists; split; [reflexivity|]; split; [reflexivity|];
        left; vm_compute; discriminate ].
Qed.

(** *** The report's score bar, indicator and takeaway *)

Lemma scoreBar_checks :
  forallb (fun intSize =>
    forallb (fun t =>
      forallb (fun m =>
                 let s := PrimFloat.div (float64 (Z.of_nat m)) (float64 (Z.of_nat t)) in
                 match intOfFloat intSize (PrimFloat.mul s (float64 50)) with
                 | Some filled =>
                     (0 <=? filled) && (filled <=? 50)
                     && Bool.eqb (filled =? 50) (Nat.eqb m t)
                 | None => false
                 end)
              (seq 0 (S t)))
            (seq 1 37))
    [32; 64] = true.
Proof. vm_compute. reflexivity. Qed.

Lemma scoreBar_facts intSize m t :
  intSize = 32 \/ intSize = 64 -> 0 <= m <= t -> 1 <= t <= 37 ->
  exists filled,
    intOfFloat intSize (PrimFloat.mul (PrimFloat.div (float64 m) (float64 t)) (float64 50))
    = Some filled
    /\ 0 <= filled <= 50 /\ (filled = 50 <-> m = t).
Proof.
  intros Hi Hm Ht. pose proof scoreBar_checks as H.
  rewrite forallb_forall in H. specialize (H intSize).
  rewrite forallb_forall in H.
  specialize (H ltac:(cbn; destruct Hi; auto) (Z.to_nat t)).
  rewrite forallb_forall in H.
  specialize (H ltac:(apply in_seq; lia) (Z.to_nat m) ltac:(apply in_seq; lia)).
  cbn zeta in H. rewrite !Z2Nat.id in H by lia.
  destruct (intOfFloat _ _) as [filled|]; [|discriminate].
  exists filled. split; [reflexivity|].
  apply andb_prop in H as [H H3]. apply andb_prop in H as [H1 H2].
  apply Z.leb_le in H1, H2. split; [lia|].
  apply Bool.eqb_prop in H3.
  destruct (Z.eqb_spec filled 50) as [E|E].
  - symmetry in H3. apply Nat.eqb_eq in H3. split; [lia|tauto].
  - symmetry in H3. apply Nat.eqb_neq in H3. split; [contradiction|lia].
Qed.

Ltac band n :=
  match eval cbv in (nth n bands ("", "", "")) with
  | (?verdict, ?indicator, ?takeaway) => exists verdict, indicator, takeaway
  end.

Section Report.
Variables rangeTcp rangeProto : gmap InstructionType Z -> list (InstructionType * Z).
Hypothesis HrangeTcp : visitsOnce rangeTcp.
Hypothesis HrangeProto : visitsOnce rangeProto.

(** X24: the score bar that Display draws for a comparison (50 cells wide)
    is always drawn: for every pair of programs, every iteration order of
    the maps and a 32-bit or a 64-bit int, getScoreBar returns without a
    panic a bar of exactly 50 cells between brackets, of which between 0 and
    50 are filled, and all 50 exactly when the score is at least 1.0. *)
Theorem getScoreBar_of_comparison intSize
  (tcpBPF : tcpdump.BPFCode) (protoBPF : prototype.BPFCode) :
  intSize = 32 \/ intSize = 64 ->
  let r := Compare rangeTcp rangeProto tcpBPF protoBPF in
  exists cell filled,
    getScoreBar intSize r 50 = Some (scoreBar cell filled 50)
    /\ In cell ["█"; "▓"; "▒"]
    /\ 0 <= filled <= 50
    /\ (filled = 50 <-> PrimFloat.leb 1 (Score r) = true).
Proof.
  intros Hi.
  destruct (Compare_closed_form rangeTcp rangeProto HrangeTcp HrangeProto tcpBPF protoBPF)
    as (_ & _ & _ & _ & _ & _ & _ & _ & HS & _).
  destruct (Compare_counts rangeTcp rangeProto HrangeTcp HrangeProto tcpBPF protoBPF)
    as [Hm Ht].
  cbn zeta in *.
  set (r := Compare rangeTcp rangeProto tcpBPF protoBPF) in *.
  destruct (scoreBar_facts intSize _ _ Hi Hm Ht) as (filled & Hf & Hr & Hfull).
  rewrite <- HS in Hf.
  assert (filled = 50 <-> PrimFloat.leb 1 (Score r) = true) as Hone.
  { rewrite Hfull, HS. split.
    - intros E.
      replace (float64 (len (Matches r)))
        with (float64 (len (Matches r)
                       + (len (Differences r) + len (MissingInPrototype r)
                          + len (ExtraInPrototype r)))) by (f_equal; lia).
      now rewrite score_self by lia.
    - intros H. destruct (Z.eq_dec (len (Matches r))
        (len (Matches r) + (len (Differences r) + len (MissingInPrototype r)
                            + len (ExtraInPrototype r)))) as [E|E]; [exact E|].
      destruct (score_facts _ _ Hm Ht) as (_ & _ & H1). rewrite (H1 E) in H. discriminate. }
  unfold getScoreBar. rewrite Hf. unfold Repeat.
  destruct (Z.ltb_spec filled 0); [lia|].
  destruct (Z.ltb_spec (50 - filled) 0); [lia|].
  destruct (PrimFloat.leb 0.8 (Score r)); [|destruct (PrimFloat.leb 0.6 (Score r))];
    eexists _, filled; (split; [reflexivity|]); (split; [cbn; tauto|]); split; assumption.
Qed.

(** X25: the report's indicator and takeaway always agree with the verdict:
    for every comparison the verdict is the threshold verdict of one of the
    four score bands, as it is or wrapped as a critical issue, and
    getVerdictColor and getKeyTakeaway show the indicator and the sentence of
    that same band: green for EXCELLENT, yellow for GOOD, red for PARTIAL and
    for POOR.  A verdict wrapped as a critical issue keeps the indicator of
    its score. *)
Theorem indicator_and_takeaway_agree_with_verdict
  (tcpBPF : tcpdump.BPFCode) (protoBPF : prototype.BPFCode) :
  let r := Compare rangeTcp rangeProto tcpBPF protoBPF in
  exists verdict indicator takeaway,
    In (verdict, indicator, takeaway) bands
    /\ (Verdict r = verdict
        \/ Verdict r = ("CRITICAL ISSUE: " ++ verdict ++ " (Missing IP validation)")%string)
    /\ getVerdictColor r = (indicator ++ " VERDICT: " ++ Verdict r)%string
    /\ getKeyTakeaway r = takeaway.
Proof.
  destruct (Compare_closed_form rangeTcp rangeProto HrangeTcp HrangeProto tcpBPF protoBPF)
    as (_ & _ & _ & _ & _ & _ & _ & _ & _ & HV).
  cbn zeta in *.
  set (r := Compare rangeTcp rangeProto tcpBPF protoBPF) in *.
  assert (Verdict r = thresholdVerdict (Score r)
          \/ Verdict r = ("CRITICAL ISSUE: " ++ thresholdVerdict (Score r)
                          ++ " (Missing IP validation)")%string) as Hv.
  { rewrite HV. destruct (existsb _ _); [right|left]; reflexivity. }
  clear HV. unfold getVerdictColor, getKeyTakeaway.
  unfold thresholdVerdict in Hv.
  destruct (PrimFloat.leb 0.8 (Score r));
    [band 0%nat|destruct (PrimFloat.leb 0.6 (Score r));
      [band 1%nat|destruct (PrimFloat.leb 0.4 (Score r)); [band 2%nat|band 3%nat]]];
    (split; [cbn; tauto|split; [exact Hv|split; reflexivity]]).
Qed.

End Report.

Lemma getScoreBar_of_comparison_protocol_only :
  let r := Compare map_to_list map_to_list protocolOnlyTcpdump returnsOnlyPrototype in
  (64 = 32 \/ 64 = 64)
  /\ exists cell filled,
       getScoreBar 64 r 50 = Some (scoreBar cell filled 50)
       /\ In cell ["█"; "▓"; "▒"]
       /\ 0 <= filled <= 50
       /\ (filled = 50 <-> PrimFloat.leb 1 (Score r) = true).
Proof.
  split; [right; reflexivity|].
  apply (getScoreBar_of_comparison map_to_list map_to_list);
    [intros m; reflexivity|intros m; reflexivity|right; reflexivity].
Defined.

Lemma indicator_and_takeaway_protocol_only :
  let r := Compare map_to_list map_to_list protocolOnlyTcpdump returnsOnlyPrototype in
  exists verdict indicator takeaway,
    In (verdict, indicator, takeaway) bands
    /\ (Verdict r = verdict
        \/ Verdict r = ("CRITICAL ISSUE: " ++ verdict ++ " (Missing IP validation)")%string)
    /\ getVerdictColor r = (indicator ++ " VERDICT: " ++ Verdict r)%string
    /\ getKeyTakeaway r = takeaway.
Proof.
  apply (indicator_and_takeaway_agree_with_verdict map_to_list map_to_list);
    intros m; reflexivity.
Defined.

